(** * GST / Tally reconciliation: a shallow embedding of the matching engine

    Sources embedded here:
    - [src/utils/reconciliation.js]: [reconcileData], [createKey],
      [findDiscrepancies] (module [Reconciliation]);
    - [src/index.js]: [normalizeValueForDB], [storeMappedData] and the tables
      it writes, the partial matcher and the severity classification of the
      route [/api/reconcile-mapped-data] (module [Server]), the date helpers
      of the route [/api/save-mapping] (module [Dates]);
    - the file parser's [normalizeValue] (module [FileParser]) and the row
      normalization of [parseExcel] and [parseCSV] (module [Sheet]);
    - further parts of [src/index.js]: the column and table names (module
      [Columns]), the date detection of [/api/save-mapping] (module
      [DateDetect]), the feature numbering of [storeMappedData] and the
      exact-match query of [performSQLReconciliation] with the summary of the
      route [/api/reconcile] (module [Features]), the residual lists of
      [/api/reconcile-mapped-data] (module [Report]).
    The modules [Closed] and [Budget] hold the notions the statements use.

    Modelling conventions.
    - A JavaScript cell value is a [JsVal]; numbers held by cells are
      integer valued ([Z]); an object or a function is a [VObj] with the text
      [String] gives it. A record (a JS object used as a row) is a finite map
      from the names of its own properties to their values; a property it
      does not own reads as [Object.prototype] has it, else [VUndef].
    - Strings are Rocq strings of 8-bit characters; [trim] strips the ASCII
      white space characters and [toLowerCase] folds the ASCII letters, as
      the methods of JavaScript do on a text of ASCII characters
      ([asciiText]).
    - [parseFloat] yields the real number the text denotes, kept exact. The
      monetary comparison of [/api/reconcile-mapped-data] rounds it to the
      IEEE 754 double ([toDouble]) and subtracts in doubles; the date code
      compares it with whole numbers and takes its floor.
    - Arrays are lists, [push] appends at the end, [Set]s of row indices are
      [gset]s, the [Map] from keys to buckets is a [gmap].
    - An entry of a result bucket keeps, next to the record it holds, the
      index of that record on its side: the index stands for the identity of
      the JS object the entry refers to.
    - A table of the database is the list of its rows, a row the list of its
      texts. Of PostgreSQL two rules are modelled: a column written without a
      table over a join must be a column of exactly one of the joined tables,
      and a text bound to a column of type [TEXT[]] must be an array literal,
      which ends with a closing brace. *)

From Stdlib Require Import ZArith QArith Qminmax Qabs String Ascii List Bool Lia.
From Stdlib Require Import DecimalString Qround.
From stdpp Require Import gmap strings list fin_maps.

Local Open Scope string_scope.
Local Open Scope list_scope.
Local Open Scope stdpp_scope.

(** ** JavaScript values and string primitives *)

Inductive JsVal : Type :=
  | VUndef
  | VNull
  | VBool (b : bool)
  | VNum (z : Z)
  | VStr (s : string)
  | VObj (text : string).

#[global] Instance JsVal_eq_dec : EqDecision JsVal.
Proof. solve_decision. Defined.

(** ToBoolean. *)
Definition truthy (v : JsVal) : bool :=
  match v with
  | VUndef | VNull => false
  | VBool b => b
  | VNum z => negb (Z.eqb z 0)
  | VStr s => negb (String.eqb s "")
  | VObj _ => true
  end.

(** [a || b]. *)
Definition jsOr (a b : JsVal) : JsVal := if truthy a then a else b.

Definition Z_to_string (z : Z) : string := NilZero.string_of_int (Z.to_int z).

(** [String(v)]. *)
Definition toString (v : JsVal) : string :=
  match v with
  | VUndef => "undefined"
  | VNull => "null"
  | VBool true => "true"
  | VBool false => "false"
  | VNum z => Z_to_string z
  | VStr s => s
  | VObj text => text
  end.

Definition isSpace (c : ascii) : bool :=
  let n := nat_of_ascii c in
  (Nat.leb 9 n && Nat.leb n 13) || Nat.eqb n 32.

Fixpoint trimStart (s : string) : string :=
  match s with
  | EmptyString => EmptyString
  | String c r => if isSpace c then trimStart r else s
  end.

Fixpoint trimEnd (s : string) : string :=
  match s with
  | EmptyString => EmptyString
  | String c r =>
      match trimEnd r with
      | EmptyString => if isSpace c then EmptyString else String c EmptyString
      | r' => String c r'
      end
  end.

Definition trim (s : string) : string := trimEnd (trimStart s).

Definition lowerChar (c : ascii) : ascii :=
  let n := nat_of_ascii c in
  if Nat.leb 65 n && Nat.leb n 90 then ascii_of_nat (n + 32) else c.

Fixpoint toLowerCase (s : string) : string :=
  match s with
  | EmptyString => EmptyString
  | String c r => String (lowerChar c) (toLowerCase r)
  end.

(** [parts.join(sep)]. *)
Fixpoint join (sep : string) (parts : list string) : string :=
  match parts with
  | [] => ""
  | [p] => p
  | p :: rest => p +:+ sep +:+ join sep rest
  end.

Definition isDigit (c : ascii) : bool :=
  let n := nat_of_ascii c in Nat.leb 48 n && Nat.leb n 57.

Definition digitVal (c : ascii) : Z := Z.of_nat (nat_of_ascii c) - 48.

(** A row object: column name to cell value. *)
Abbreviation record := (gmap string JsVal).

(** The function members every row object inherits from [Object.prototype]. *)
Definition prototypeMethods : list string :=
  ["constructor"; "__defineGetter__"; "__defineSetter__"; "hasOwnProperty";
   "__lookupGetter__"; "__lookupSetter__"; "isPrototypeOf"; "propertyIsEnumerable";
   "toString"; "valueOf"; "toLocaleString"].

(** What a property that is not the row's own reads: a member of
    [Object.prototype] (the constructor is the function [Object], [__proto__]
    the prototype itself), else [undefined]. *)
Definition inherited (col : string) : JsVal :=
  if String.eqb col "__proto__" then VObj "[object Object]"
  else if String.eqb col "constructor" then VObj "function Object() { [native code] }"
  else if bool_decide (col ∈ prototypeMethods)
       then VObj ("function " +:+ col +:+ "() { [native code] }")
  else VUndef.

(** [record[col]]. *)
Definition get (r : record) (col : string) : JsVal :=
  match r !! col with
  | Some v => v
  | None => inherited col
  end.

(** [arr.forEach((x, index) => ...)] with the mutated locals threaded as a
    state. *)
Fixpoint forEachFrom {A S : Type} (f : S -> A -> nat -> S)
    (i : nat) (l : list A) (s : S) : S :=
  match l with
  | [] => s
  | x :: r => forEachFrom f (Datatypes.S i) r (f s x i)
  end.

Definition forEach {A S : Type} (f : S -> A -> nat -> S) (l : list A) (s : S) : S :=
  forEachFrom f 0 l s.

(** ** [src/utils/reconciliation.js] *)

Module Reconciliation.

Record Discrepancy : Type := mkDiscrepancy {
  field : string;
  gstValue : JsVal;
  tallyValue : JsVal
}.

Record MatchEntry : Type := mkMatch {
  gstIndex : nat;
  gstRecord : record;
  tallyIndex : nat;
  tallyRecord : record;
  matchType : string;
  discrepancies : list Discrepancy
}.

Record Mismatch : Type := mkMismatch {
  mmIndex : nat;
  mmRecord : record;
  mmSource : string;
  mmType : string
}.

Record Result : Type := mkResult {
  exactMatches : list MatchEntry;
  partialMatches : list MatchEntry;
  tallyMismatches : list Mismatch;
  gstMismatches : list Mismatch
}.

(** [String(record[col] || '').trim().toLowerCase()]. *)
Definition cellText (v : JsVal) : string :=
  toLowerCase (trim (toString (jsOr v (VStr "")))).

Definition createKey (r : record) (columns : list string) : string :=
  join "|" (map (fun col => cellText (get r col)) columns).

(** The loop runs over [i < Math.min(gstColumns.length, tallyColumns.length)],
    that is over the two column lists in lock step. *)
Fixpoint findDiscrepancies (gstRec tallyRec : record)
    (gstColumns tallyColumns : list string) : list Discrepancy :=
  match gstColumns, tallyColumns with
  | gstCol :: gs, tallyCol :: ts =>
      let gstVal := cellText (get gstRec gstCol) in
      let tallyVal := cellText (get tallyRec tallyCol) in
      let rest := findDiscrepancies gstRec tallyRec gs ts in
      if String.eqb gstVal tallyVal then rest
      else mkDiscrepancy gstCol (get gstRec gstCol) (get tallyRec tallyCol) :: rest
  | _, _ => []
  end.

(** The mutable locals of [reconcileData]. *)
Record State : Type := mkState {
  sExact : list MatchEntry;
  sPartial : list MatchEntry;
  matchedTallyIds : gset nat;
  matchedGstIds : gset nat
}.

Definition initState : State := mkState [] [] ∅ ∅.

(** [{ ...record, _index: index }]. *)
Definition withIndex (r : record) (index : nat) : record :=
  <["_index" := VNum (Z.of_nat index)]> r.

(** Lines 11-18: the lookup map; a bucket holds, in row order, the Tally
    rows of one key, each with its [_index]. *)
Definition tallyMapStep (tallyColumns : list string)
    (m : gmap string (list (nat * record))) (r : record) (index : nat)
    : gmap string (list (nat * record)) :=
  let key := createKey r tallyColumns in
  let m1 := match m !! key with None => <[key := []]> m | Some _ => m end in
  <[key := default [] (m1 !! key) ++ [(index, withIndex r index)]]> m1.

Definition buildTallyMap (tallyData : list record) (tallyColumns : list string)
    : gmap string (list (nat * record)) :=
  forEach (tallyMapStep tallyColumns) tallyData ∅.

(** Lines 27-38: the inner [forEach] over the bucket of the key. *)
Definition exactInner (gstRec : record) (gstIdx : nat)
    (s : State) (t : nat * record) : State :=
  if decide (t.1 ∈ matchedTallyIds s) then s
  else mkState
         (sExact s ++ [mkMatch gstIdx gstRec t.1 t.2 "exact" []])
         (sPartial s)
         ({[t.1]} ∪ matchedTallyIds s)
         ({[gstIdx]} ∪ matchedGstIds s).

(** Lines 21-40. *)
Definition exactStep (tallyMap : gmap string (list (nat * record)))
    (gstColumns : list string) (s : State) (gstRec : record) (gstIdx : nat) : State :=
  let gstKey := createKey gstRec gstColumns in
  match tallyMap !! gstKey with
  | Some tallyMatches => fold_left (exactInner gstRec gstIdx) tallyMatches s
  | None => s
  end.

(** Lines 46-62: the inner [forEach] over all Tally rows. *)
Definition partialInner (gstColumns tallyColumns : list string)
    (gstRec : record) (gstIdx : nat)
    (s : State) (tallyRec : record) (tallyIdx : nat) : State :=
  if decide (tallyIdx ∈ matchedTallyIds s) then s
  else
    let ds := findDiscrepancies gstRec tallyRec gstColumns tallyColumns in
    if Nat.ltb 0 (length ds) && Nat.ltb (length ds) (length gstColumns) then
      mkState
        (sExact s)
        (sPartial s ++ [mkMatch gstIdx gstRec tallyIdx tallyRec "partial" ds])
        ({[tallyIdx]} ∪ matchedTallyIds s)
        ({[gstIdx]} ∪ matchedGstIds s)
    else s.

(** Lines 43-63. *)
Definition partialStep (tallyData : list record) (gstColumns tallyColumns : list string)
    (s : State) (gstRec : record) (gstIdx : nat) : State :=
  if decide (gstIdx ∈ matchedGstIds s) then s
  else forEach (partialInner gstColumns tallyColumns gstRec gstIdx) tallyData s.

(** Lines 66-84. *)
Definition gstMismatchStep (matched : gset nat)
    (acc : list Mismatch) (r : record) (i : nat) : list Mismatch :=
  if decide (i ∈ matched) then acc
  else acc ++ [mkMismatch i r "GST" "missing_in_tally"].

Definition tallyMismatchStep (matched : gset nat)
    (acc : list Mismatch) (r : record) (i : nat) : list Mismatch :=
  if decide (i ∈ matched) then acc
  else acc ++ [mkMismatch i r "Tally" "missing_in_gst"].

Definition exactPass (gstData tallyData : list record)
    (gstColumns tallyColumns : list string) : State :=
  forEach (exactStep (buildTallyMap tallyData tallyColumns) gstColumns) gstData initState.

Definition partialPass (gstData tallyData : list record)
    (gstColumns tallyColumns : list string) (s : State) : State :=
  forEach (partialStep tallyData gstColumns tallyColumns) gstData s.

Definition reconcileData (gstData tallyData : list record)
    (gstColumns tallyColumns : list string) : Result :=
  let s1 := exactPass gstData tallyData gstColumns tallyColumns in
  let s2 := partialPass gstData tallyData gstColumns tallyColumns s1 in
  mkResult
    (sExact s2)
    (sPartial s2)
    (forEach (tallyMismatchStep (matchedTallyIds s2)) tallyData [])
    (forEach (gstMismatchStep (matchedGstIds s2)) gstData []).

(** The index pairs of a bucket of matches. *)
Definition pairs (l : list MatchEntry) : list (nat * nat) :=
  map (fun m => (gstIndex m, tallyIndex m)) l.

End Reconciliation.

(** ** Numbers read from text: [parseFloat] and [parseInt] *)

(** The value of [parseFloat]: not-a-number, an infinity, or a finite number
    (kept exact). *)
Inductive JsNumber : Type :=
  | NaN
  | Infinity (negative : bool)
  | Finite (q : Q).

Fixpoint takeDigits (s : string) : list ascii * string :=
  match s with
  | String c r =>
      if isDigit c then let '(ds, rest) := takeDigits r in (c :: ds, rest)
      else ([], s)
  | EmptyString => ([], EmptyString)
  end.

Definition digitsValue (ds : list ascii) : Z :=
  fold_left (fun acc c => 10 * acc + digitVal c)%Z ds 0%Z.

(** An exponent part [e], [e+] or [e-] followed by at least one digit;
    anything else is not part of the number. *)
Definition readExponent (s : string) : Z :=
  match s with
  | String c r =>
      if Ascii.eqb c "e" || Ascii.eqb c "E" then
        match r with
        | String "-" r' => (- digitsValue (takeDigits r').1)%Z
        | String "+" r' => digitsValue (takeDigits r').1
        | _ => digitsValue (takeDigits r).1
        end
      else 0%Z
  | EmptyString => 0%Z
  end.

Definition scale10 (m : Z) (e : Z) : Q :=
  if (0 <=? e)%Z then inject_Z (m * 10 ^ e) else Qmake m (Z.to_pos (10 ^ (- e))).

(** The unsigned decimal literal at the head of [s], if there is one. *)
Definition readDecimal (s : string) : option Q :=
  let '(ip, r1) := takeDigits s in
  let '(fp, r2) :=
    match r1 with
    | String "." r => takeDigits r
    | _ => ([], r1)
    end in
  match ip, fp with
  | [], [] => None
  | _, _ =>
      let mant := digitsValue (ip ++ fp) in
      Some (scale10 mant (readExponent r2 - Z.of_nat (length fp)))
  end.

(** [hay.startsWith(needle)]. *)
Fixpoint startsWith (hay needle : string) : bool :=
  match needle with
  | EmptyString => true
  | String a n =>
      match hay with
      | EmptyString => false
      | String b h => Ascii.eqb a b && startsWith h n
      end
  end.

Definition parseUnsigned (negative : bool) (s : string) : JsNumber :=
  if startsWith s "Infinity" then Infinity negative
  else match readDecimal s with
       | Some q => Finite (if negative then Qopp q else q)
       | None => NaN
       end.

Definition parseFloat (s : string) : JsNumber :=
  match trimStart s with
  | String "-" r => parseUnsigned true r
  | String "+" r => parseUnsigned false r
  | r => parseUnsigned false r
  end.

Definition hexVal (c : ascii) : option Z :=
  let n := nat_of_ascii c in
  if isDigit c then Some (digitVal c)
  else if Nat.leb 97 n && Nat.leb n 102 then Some (Z.of_nat n - 87)%Z
  else if Nat.leb 65 n && Nat.leb n 70 then Some (Z.of_nat n - 55)%Z
  else None.

Fixpoint takeHex (s : string) : list Z :=
  match s with
  | String c r => match hexVal c with Some v => v :: takeHex r | None => [] end
  | EmptyString => []
  end.

Definition parseIntUnsigned (s : string) : option Z :=
  match s with
  | String "0" (String x r) =>
      if Ascii.eqb x "x" || Ascii.eqb x "X" then
        match takeHex r with
        | [] => None
        | hs => Some (fold_left (fun acc v => 16 * acc + v)%Z hs 0%Z)
        end
      else Some (digitsValue (takeDigits s).1)
  | _ => match takeDigits s with
         | ([], _) => None
         | (ds, _) => Some (digitsValue ds)
         end
  end.

(** [parseInt(s)] without a radix; [None] is NaN. *)
Definition parseInt (s : string) : option Z :=
  match trimStart s with
  | String "-" r => Z.opp <$> parseIntUnsigned r
  | String "+" r => parseIntUnsigned r
  | r => parseIntUnsigned r
  end.

(** [hay.includes(needle)]. *)
Fixpoint includes (hay needle : string) : bool :=
  startsWith hay needle ||
  match hay with
  | String _ r => includes r needle
  | EmptyString => false
  end.

Fixpoint filterChars (p : ascii -> bool) (s : string) : string :=
  match s with
  | EmptyString => EmptyString
  | String c r => if p c then String c (filterChars p r) else filterChars p r
  end.

Fixpoint allChars (p : ascii -> bool) (s : string) : bool :=
  match s with
  | EmptyString => true
  | String c r => p c && allChars p r
  end.

(** A text of ASCII characters. On such a text [trim] and [toLowerCase] are
    the methods of JavaScript, which beyond ASCII also strip the other white
    space of Unicode and fold its other letters. *)
Definition isAscii (c : ascii) : bool := Nat.ltb (nat_of_ascii c) 128.

Definition asciiText (s : string) : bool := allChars isAscii s.

(** [s.split(sep)] for a one-character separator class. *)
Fixpoint splitOn (p : ascii -> bool) (s : string) : list string :=
  match s with
  | EmptyString => [EmptyString]
  | String c r =>
      if p c then EmptyString :: splitOn p r
      else match splitOn p r with
           | w :: ws => String c w :: ws
           | [] => [String c EmptyString]
           end
  end.

(** [s.padStart(2, '0')]. *)
Definition padStart2 (s : string) : string :=
  match String.length s with
  | 0 => "00"
  | 1 => "0" +:+ s
  | _ => s
  end.

(** ** Numbers: the arithmetic of IEEE 754 doubles

    A Number is not-a-number, an infinity or a finite double, held as the
    rational it is (in lowest terms); the sign of a zero is not kept, no
    operation below tells the two zeros apart. *)

(** 2^e. *)
Definition pow2 (e : Z) : Q :=
  if (0 <=? e)%Z then inject_Z (2 ^ e) else 1 # Z.to_pos (2 ^ (- e)).

(** The binade of a positive rational: the [e] with 2^e <= q < 2^(e+1). *)
Definition binade (q : Q) : Z :=
  let e0 := (Z.log2 (Qnum q) - Z.log2 (Zpos (Qden q)))%Z in
  if Qle_bool (pow2 e0) q then e0 else (e0 - 1)%Z.

(** The integer nearest to [q], the even one of two equally near. *)
Definition roundHalfEven (q : Q) : Z :=
  let f := Qfloor q in
  match Qcompare (q - inject_Z f) (1 # 2) with
  | Lt => f
  | Gt => (f + 1)%Z
  | Eq => if Z.even f then f else (f + 1)%Z
  end.

(** The double nearest to a positive rational (round to nearest, ties to
    even): 53 significant bits, the least exponent -1022, an infinity from
    2^1024 on. *)
Definition roundPositive (q : Q) : JsNumber :=
  let e := Z.max (binade q) (-1022) in
  let ulp := pow2 (e - 52) in
  let r := (inject_Z (roundHalfEven (q / ulp)) * ulp)%Q in
  if Qle_bool (pow2 1024) r then Infinity false else Finite (Qred r).

Definition negate (x : JsNumber) : JsNumber :=
  match x with
  | NaN => NaN
  | Infinity negative => Infinity (negb negative)
  | Finite q => Finite (Qred (- q))
  end.

(** The Number value of a real number. *)
Definition toDouble (q : Q) : JsNumber :=
  match Qcompare q 0 with
  | Eq => Finite 0
  | Gt => roundPositive q
  | Lt => negate (roundPositive (- q))
  end.

(** [a - b]. *)
Definition numSub (a b : JsNumber) : JsNumber :=
  match a, b with
  | NaN, _ | _, NaN => NaN
  | Infinity x, Infinity y => if Bool.eqb x y then NaN else Infinity x
  | Infinity x, Finite _ => Infinity x
  | Finite _, Infinity y => Infinity (negb y)
  | Finite p, Finite q => toDouble (p - q)
  end.

(** [Math.abs(a)]. *)
Definition numAbs (a : JsNumber) : JsNumber :=
  match a with
  | NaN => NaN
  | Infinity _ => Infinity false
  | Finite q => Finite (Qabs q)
  end.

(** [a <= b]; a comparison with NaN is false. *)
Definition numLe (a b : JsNumber) : bool :=
  match a, b with
  | NaN, _ | _, NaN => false
  | Infinity true, _ => true
  | _, Infinity false => true
  | Infinity false, _ => false
  | _, Infinity true => false
  | Finite p, Finite q => Qle_bool p q
  end.


(** [a < b]. *)
Definition numLt (a b : JsNumber) : bool := numLe a b && negb (numLe b a).

(** [Math.max(a, b)]. *)
Definition numMax (a b : JsNumber) : JsNumber :=
  match a, b with
  | NaN, _ | _, NaN => NaN
  | _, _ => if numLe a b then b else a
  end.

(** ** Texts sent to the database *)

Definition doubleQuote : ascii := ascii_of_nat 34.
Definition backslash : ascii := ascii_of_nat 92.

Definition hexDigit (n : nat) : ascii :=
  ascii_of_nat (if Nat.ltb n 10 then 48 + n else 87 + n).

(** A character inside a JSON string. *)
Definition jsonEscape (c : ascii) : string :=
  let n := nat_of_ascii c in
  if Ascii.eqb c doubleQuote then String backslash (String doubleQuote "")
  else if Ascii.eqb c backslash then String backslash (String backslash "")
  else if Nat.eqb n 8 then String backslash "b"
  else if Nat.eqb n 9 then String backslash "t"
  else if Nat.eqb n 10 then String backslash "n"
  else if Nat.eqb n 12 then String backslash "f"
  else if Nat.eqb n 13 then String backslash "r"
  else if Nat.ltb n 32 then
    String backslash ("u00" +:+ String (hexDigit (n / 16)) (String (hexDigit (n mod 16)) ""))
  else String c "".

Fixpoint jsonEscapes (s : string) : string :=
  match s with
  | EmptyString => EmptyString
  | String c r => jsonEscape c +:+ jsonEscapes r
  end.

Definition jsonString (s : string) : string :=
  String doubleQuote (jsonEscapes s +:+ String doubleQuote "").

(** [JSON.stringify(cols)] for an array of strings. *)
Definition jsonStringify (cols : list string) : string :=
  "[" +:+ join "," (map jsonString cols) +:+ "]".

Fixpoint lastChar (s : string) : option ascii :=
  match s with
  | EmptyString => None
  | String c EmptyString => Some c
  | String _ r => lastChar r
  end.

(** PostgreSQL reads a text as the value of an array column only when it is
    an array literal, a list in braces (after its dimensions, if it gives
    them); of that grammar only the closing brace is modelled: a text that
    does not end with one, white space apart, is rejected. *)
Definition arrayLiteralShape (s : string) : bool :=
  match lastChar (trimEnd s) with
  | Some c => Ascii.eqb c "}"
  | None => false
  end.

(** ** [src/index.js] *)

Module Server.

(** Lines 13-28. *)
Definition normalizeValueForDB (value : JsVal) : JsVal :=
  match value with
  | VNull | VUndef | VStr "" => VNum 0
  | _ =>
      let strValue := trim (toString value) in
      if String.eqb strValue "-" then VNum 0 else VStr strValue
  end.

(** *** The tables of [storeMappedData] (lines 367-453) *)

Record Mapping : Type := mkMapping {
  gstCol : string;
  tallyCol : string;
  featureNum : nat
}.

Definition nonEmpty (s : string) : bool := negb (String.eqb s "").

(** [gstCols.map((gstCol, idx) => ({gstCol, tallyCol: tallyCols[idx],
    featureNum: idx + 1})).filter(m => m.gstCol && m.tallyCol)]. *)
Definition validMappingStep (tallyCols : list string)
    (acc : list Mapping) (gstCol : string) (idx : nat) : list Mapping :=
  match tallyCols !! idx with
  | Some tallyCol =>
      if nonEmpty gstCol && nonEmpty tallyCol
      then acc ++ [mkMapping gstCol tallyCol (idx + 1)] else acc
  | None => acc
  end.

Definition validMappings (gstCols tallyCols : list string) : list Mapping :=
  forEach (validMappingStep tallyCols) gstCols [].

(** The text a feature column receives for a cell: the driver writes the
    number [0] as the text "0". *)
Definition storedCell (v : JsVal) : string :=
  toString (normalizeValueForDB (jsOr v VNull)).

Definition gstStoredRow (ms : list Mapping) (row : record) : list string :=
  map (fun m => storedCell (get row (gstCol m))) ms.

Definition tallyStoredRow (ms : list Mapping) (row : record) : list string :=
  map (fun m => storedCell (get row (tallyCol m))) ms.

(** What [storeMappedData] comes to: the error thrown when no mapping is
    valid (line 386), or the two tables written, rows in insertion order,
    and then the insert into [column_mappings] (lines 441-445), which binds
    the texts [JSON.stringify(gstCols)] and [JSON.stringify(tallyCols)] to the
    columns [gst_columns] and [tally_columns] of type [TEXT[]]: the function
    throws when PostgreSQL rejects one of them. *)
Inductive StoreResult : Type :=
  | NoValidMappings
  | MappingsRejected (gstTable tallyTable : list (list string))
  | Stored (gstTable tallyTable : list (list string)).

Definition storeMappedData (gstData tallyData : list record)
    (gstColumns tallyColumns : list string) : StoreResult :=
  let ms := validMappings gstColumns tallyColumns in
  match ms with
  | [] => NoValidMappings
  | _ =>
      let gstTable := map (gstStoredRow ms) gstData in
      let tallyTable := map (tallyStoredRow ms) tallyData in
      if arrayLiteralShape (jsonStringify gstColumns)
         && arrayLiteralShape (jsonStringify tallyColumns)
      then Stored gstTable tallyTable
      else MappingsRejected gstTable tallyTable
  end.

(** The rows of an inner join on the equality of all feature columns, as the
    positions (insertion order, from 0) of the joined rows, GST row major. *)
Fixpoint joinRow (g : list string) (gi ti : nat) (tallyTable : list (list string))
    : list (nat * nat) :=
  match tallyTable with
  | [] => []
  | t :: ts =>
      (if decide (g = t) then [(gi, ti)] else []) ++ joinRow g gi (Datatypes.S ti) ts
  end.

Fixpoint innerJoinFrom (gi : nat) (gstTable tallyTable : list (list string))
    : list (nat * nat) :=
  match gstTable with
  | [] => []
  | g :: gs => joinRow g gi 0 tallyTable ++ innerJoinFrom (Datatypes.S gi) gs tallyTable
  end.

Definition innerJoin (gstTable tallyTable : list (list string)) : list (nat * nat) :=
  innerJoinFrom 0 gstTable tallyTable.

(** *** The partial matcher of [/api/reconcile-mapped-data] (lines 645-741) *)

(** A row read back from a mapped table: its primary key and its columns. *)
Record Row : Type := mkRow {
  rowId : Z;
  rowCells : record
}.

Record DiscrepancyColumn : Type := mkDiscrepancyColumn {
  columnIndex : nat;
  gstColumn : string;
  tallyColumn : string;
  gstValue : string;
  tallyValue : string
}.

Record PartialMatch : Type := mkPartialMatch {
  gst : Row;
  tally : Row;
  discrepancies : nat;
  discrepancyColumns : list DiscrepancyColumn;
  maxDiscrepancy : JsNumber;
  isMinor : bool
}.

(** [/^\d{4}-\d{2}-\d{2}T/.test(s)]. *)
Definition isoTimestamp (s : string) : bool :=
  match s with
  | String y1 (String y2 (String y3 (String y4 (String "-"
      (String m1 (String m2 (String "-" (String d1 (String d2 (String "T" _)))))))))) =>
      isDigit y1 && isDigit y2 && isDigit y3 && isDigit y4 &&
      isDigit m1 && isDigit m2 && isDigit d1 && isDigit d2
  | _ => false
  end.

(** Lines 680-689: the compared text of a cell. *)
Definition comparedText (v : JsVal) : string :=
  let s := trim (toString (jsOr v (VStr ""))) in
  if isoTimestamp s then hd "" (splitOn (fun c => Ascii.eqb c "T") s) else s.

(** [names[i]]; an index past the end reads [undefined], which as a property
    name is the text "undefined". *)
Definition nameAt (names : list string) (i : nat) : string :=
  default "undefined" (names !! i).

(** Lines 676-701: one turn of the column loop. *)
Definition compareStep (tallyColumnNames : list string) (gstRow tallyRow : Row)
    (acc : nat * list DiscrepancyColumn) (gstCol : string) (i : nat)
    : nat * list DiscrepancyColumn :=
  let tallyCol := nameAt tallyColumnNames i in
  let gstVal := comparedText (get (rowCells gstRow) gstCol) in
  let tallyVal := comparedText (get (rowCells tallyRow) tallyCol) in
  if String.eqb gstVal tallyVal then acc
  else (Datatypes.S acc.1,
        acc.2 ++ [mkDiscrepancyColumn i gstCol tallyCol gstVal tallyVal]).

Definition compareRows (gstColumnNames tallyColumnNames : list string)
    (gstRow tallyRow : Row) : nat * list DiscrepancyColumn :=
  forEach (compareStep tallyColumnNames gstRow tallyRow) gstColumnNames (0, []).

(** The locals [bestMatch], [bestDiscrepancies], [discrepancyColumns]. *)
Record Best : Type := mkBest {
  bestMatch : option Row;
  bestDiscrepancies : nat;
  bestColumns : list DiscrepancyColumn
}.

Definition initBest : Best := mkBest None 999 [].

(** Lines 670-709: one turn of the scan over the Tally rows. *)
Definition scanStep (gstColumnNames tallyColumnNames : list string)
    (matchedTallyIds : gset Z) (gstRow : Row) (b : Best) (tallyRow : Row) : Best :=
  if decide (rowId tallyRow ∈ matchedTallyIds) then b
  else
    let '(currentDiscrepancies, currentColumns) :=
      compareRows gstColumnNames tallyColumnNames gstRow tallyRow in
    if Nat.leb 1 currentDiscrepancies && Nat.leb currentDiscrepancies 3
       && Nat.ltb currentDiscrepancies (bestDiscrepancies b)
    then mkBest (Some tallyRow) currentDiscrepancies currentColumns
    else b.

Definition findBest (gstColumnNames tallyColumnNames : list string)
    (matchedTallyIds : gset Z) (gstRow : Row) (tallyData : list Row) : Best :=
  fold_left (scanStep gstColumnNames tallyColumnNames matchedTallyIds gstRow)
            tallyData initBest.

Definition taxColumns : list string :=
  ["taxable_value"; "col_taxable_value"; "igst"; "col_igst"; "cgst"; "col_cgst";
   "sgst"; "col_sgst"; "integrated_tax"; "col_integrated_tax"; "central_tax";
   "col_central_tax"; "state_ut_tax"; "col_state_ut_tax"].

Definition isTaxColumn (d : DiscrepancyColumn) : bool :=
  let colName := toLowerCase (gstColumn d) in
  existsb (fun tc => includes colName tc) taxColumns.

Definition keepNumeric (c : ascii) : bool :=
  isDigit c || Ascii.eqb c "." || Ascii.eqb c "-".

(** The real number [parseFloat(String(v).replace(/[^0-9.-]/g, ''))] reads,
    0 where it reads none. No letter is left by the replacement, so what is
    read is never the literal Infinity. *)
Definition moneyValue (v : string) : Q :=
  match parseFloat (filterChars keepNumeric v) with
  | Finite q => q
  | NaN => 0
  | Infinity _ => 0
  end.

(** [gstNum], [tallyNum]: [parseFloat(...) || 0], the Number value of what is
    read (the nearest double; an infinity for a number too large). *)
Definition moneyNumber (v : string) : JsNumber := toDouble (moneyValue v).

(** [Math.abs(gstNum - tallyNum)]. *)
Definition moneyDiff (d : DiscrepancyColumn) : JsNumber :=
  numAbs (numSub (moneyNumber (gstValue d)) (moneyNumber (tallyValue d))).

(** Lines 717-728: the locals ([hasLargeDiscrepancy], [maxDiscrepancy]). *)
Definition severityStep (acc : bool * JsNumber) (disc : DiscrepancyColumn)
    : bool * JsNumber :=
  if isTaxColumn disc then
    let diff := moneyDiff disc in
    (if numLe (Finite 1) diff then true else acc.1, numMax acc.2 diff)
  else acc.

Definition severity (cols : list DiscrepancyColumn) : bool * JsNumber :=
  fold_left severityStep cols (false, Finite 0).

(** Lines 730-737. *)
Definition makePartialMatch (gstRow bestRow : Row) (count : nat)
    (cols : list DiscrepancyColumn) : PartialMatch :=
  let '(hasLargeDiscrepancy, maxD) := severity cols in
  mkPartialMatch gstRow bestRow count cols maxD
                 (negb hasLargeDiscrepancy && numLt (Finite 0) maxD).

(** The locals of the route across the loop over the GST rows. *)
Record Matcher : Type := mkMatcher {
  partialMatches : list PartialMatch;
  matchedGstIds : gset Z;
  matchedTallyIds : gset Z
}.

(** Lines 663-741: one turn of the loop over the GST rows. *)
Definition matchStep (gstColumnNames tallyColumnNames : list string)
    (tallyData : list Row) (m : Matcher) (gstRow : Row) : Matcher :=
  if decide (rowId gstRow ∈ matchedGstIds m) then m
  else
    let b := findBest gstColumnNames tallyColumnNames (matchedTallyIds m) gstRow tallyData in
    match bestMatch b with
    | Some best =>
        if Nat.leb (bestDiscrepancies b) 3 then
          mkMatcher
            (partialMatches m ++
               [makePartialMatch gstRow best (bestDiscrepancies b) (bestColumns b)])
            ({[rowId gstRow]} ∪ matchedGstIds m)
            ({[rowId best]} ∪ matchedTallyIds m)
        else m
    | None => m
    end.

(** The partial matching stage, entered with the ids consumed by the exact
    matches. *)
Definition partialMatcher (gstColumnNames tallyColumnNames : list string)
    (gstData tallyData : list Row) (exactGstIds exactTallyIds : gset Z) : Matcher :=
  fold_left (matchStep gstColumnNames tallyColumnNames tallyData) gstData
            (mkMatcher [] exactGstIds exactTallyIds).

End Server.

(** *** The date helpers of [/api/save-mapping] (lines 1163-1264) *)

Module Dates.

(** Calendar date of a day count from 1970-01-01 (proleptic Gregorian). The
    [Date] arithmetic of the source is read in a zone whose offset does not
    change between 1900 and the converted date. *)
Definition civilFromDays (days : Z) : Z * Z * Z :=
  let z := (days + 719468)%Z in
  let era := (z / 146097)%Z in
  let doe := (z - era * 146097)%Z in
  let yoe := ((doe - doe / 1460 + doe / 36524 - doe / 146096) / 365)%Z in
  let y := (yoe + era * 400)%Z in
  let doy := (doe - (365 * yoe + yoe / 4 - yoe / 100))%Z in
  let mp := ((5 * doy + 2) / 153)%Z in
  let d := (doy - (153 * mp + 2) / 5 + 1)%Z in
  let m := (if (mp <? 10)%Z then mp + 3 else mp - 9)%Z in
  ((if (m <=? 2)%Z then y + 1 else y)%Z, m, d).

(** [new Date(1900, 0, 1)] as a day count from 1970-01-01. *)
Definition excelEpochDay : Z := (-25567)%Z.

(** [isValidDate(year, month, day)] on the text parts; a comparison with NaN
    is false. *)
Definition nanLt (a : option Z) (b : Z) : bool :=
  match a with Some x => (x <? b)%Z | None => false end.

Definition nanGt (a : option Z) (b : Z) : bool :=
  match a with Some x => (b <? x)%Z | None => false end.

Definition isValidDate (year month day : string) : bool :=
  let year := parseInt year in
  let month := parseInt month in
  let day := parseInt day in
  if nanLt month 1 || nanGt month 12 then false
  else if nanLt day 1 || nanGt day 31 then false
  else if nanLt year 1900 || nanGt year 2100 then false
  else true.

(** Lines 1204-1227, for a finite number [numSerial]. *)
Definition excelSerialToDate (numSerial : Q) : option string :=
  if negb (Qle_bool 0 numSerial) then None
  else
    let adjustedSerial :=
      if negb (Qle_bool numSerial 59) then (numSerial - 1)%Q else numSerial in
    let '(year, month, day) :=
      civilFromDays (excelEpochDay + Qfloor (adjustedSerial - 1)) in
    Some (Z_to_string year +:+ "-" +:+ padStart2 (Z_to_string month)
            +:+ "-" +:+ padStart2 (Z_to_string day)).

Definition isDateSeparator (c : ascii) : bool := Ascii.eqb c "-" || Ascii.eqb c "/".

(** The serial branch of lines 1236-1243: [Some] when it returns. *)
Definition serialBranch (str : string) : option string :=
  match parseFloat str with
  | Finite numVal =>
      if negb (Qle_bool numVal 30000) && negb (Qle_bool 50000 numVal)
      then excelSerialToDate numVal else None
  | _ => None
  end.

(** Lines 1246-1263. *)
Definition partsBranch (str : string) : option string :=
  match splitOn isDateSeparator str with
  | [p0; p1; p2] =>
      let ymd :=
        if Nat.eqb (String.length p0) 4 then Some (p0, p1, p2)
        else if Nat.eqb (String.length p2) 4 then Some (p2, p1, p0)
        else None in
      match ymd with
      | Some (year, month, day) =>
          if isValidDate year month day
          then Some (year +:+ "-" +:+ padStart2 month +:+ "-" +:+ padStart2 day)
          else None
      | None => None
      end
  | _ => None
  end.

(** Lines 1229-1264; [None] is [null]. *)
Definition convertToStandardDate (value : JsVal) : option string :=
  if negb (truthy value) then None
  else
    let str := trim (toString value) in
    match serialBranch str with
    | Some dateStr => Some dateStr
    | None => partsBranch str
    end.

End Dates.

(** ** The file parser ([normalizeValue], lines 1513-1530 of the second unit) *)

Module FileParser.

Definition normalizeValue (value : JsVal) : JsVal :=
  match value with
  | VNull | VUndef | VStr "" => VNum 0
  | _ =>
      let strValue := trim (toString value) in
      if String.eqb strValue "-" then VNum 0 else VStr strValue
  end.

End FileParser.

(** ** Closed forms used in the proofs *)

Module Closed.
Import Reconciliation.

(** The Tally rows of key [k], from position [i] on, as the lookup map holds
    them. *)
Fixpoint bucketFrom (tallyColumns : list string) (k : string) (i : nat)
    (tallyData : list record) : list (nat * record) :=
  match tallyData with
  | [] => []
  | t :: r =>
      (if decide (createKey t tallyColumns = k) then [(i, withIndex t i)] else [])
      ++ bucketFrom tallyColumns k (Datatypes.S i) r
  end.

(** The exact matches: a GST row whose key no earlier GST row has is paired
    with every Tally row of that key; a GST row repeating a key gets none. *)
Fixpoint exactFrom (tallyData : list record) (gstColumns tallyColumns : list string)
    (seen : list string) (i : nat) (gstData : list record) : list MatchEntry :=
  match gstData with
  | [] => []
  | g :: r =>
      let k := createKey g gstColumns in
      (if decide (k ∈ seen) then []
       else map (fun t => mkMatch i g t.1 t.2 "exact" [])
                (bucketFrom tallyColumns k 0 tallyData))
      ++ exactFrom tallyData gstColumns tallyColumns (k :: seen) (Datatypes.S i) r
  end.

(** The normalized texts of the mapped cells of a row. *)
Definition texts (r : record) (columns : list string) : list string :=
  map (fun c => cellText (get r c)) columns.

(** The indices held by the entries written so far. *)
Definition entries (s : State) : list MatchEntry := sExact s ++ sPartial s.

(** What the two matching passes maintain, for [nGst] GST rows, [nTally]
    Tally rows and the mapped columns. *)
Record Inv (nGst nTally : nat) (gstColumns tallyColumns : list string)
    (s : State) : Prop := mkInv {
  inv_tally : matchedTallyIds s = list_to_set (map tallyIndex (entries s));
  inv_gst : matchedGstIds s = list_to_set (map gstIndex (entries s));
  inv_nodup : NoDup (map tallyIndex (entries s));
  inv_bound :
    Forall (fun m => gstIndex m < nGst /\ tallyIndex m < nTally) (entries s);
  inv_split :
    Forall (fun m => gstIndex m ∉ map gstIndex (sExact s)) (sPartial s);
  inv_budget :
    Forall (fun m => 0 < length (discrepancies m) < length gstColumns) (sPartial s);
  inv_disc :
    Forall (fun m => discrepancies m =
                       findDiscrepancies (gstRecord m) (tallyRecord m)
                         gstColumns tallyColumns) (sPartial s)
}.

(** The state after both passes. *)
Definition finalState (gstData tallyData : list record)
    (gstColumns tallyColumns : list string) : State :=
  partialPass gstData tallyData gstColumns tallyColumns
    (exactPass gstData tallyData gstColumns tallyColumns).

(** The indices of the rows reported as unmatched. *)
Definition unmatched (l : list Mismatch) : list nat := map mmIndex l.

(** Sample rows: one mapped column per side. *)
Definition gstRowOf (v : string) : record := {[ "Invoice No" := VStr v ]}.
Definition tallyRowOf (v : string) : record := {[ "Inv" := VStr v ]}.

(** Sample Tally rows. *)
Definition someTally : list record :=
  [tallyRowOf "inv2"; tallyRowOf "inv3"; tallyRowOf "inv1"; tallyRowOf "inv2"].

End Closed.

(** ** Notions used to state the facts about the partial matcher *)

Module Budget.
Import Server.

(** The number of mismatched mapped columns of a pair of rows. *)
Definition countOf (gstColumnNames tallyColumnNames : list string)
    (gstRow tallyRow : Row) : nat :=
  (compareRows gstColumnNames tallyColumnNames gstRow tallyRow).1.

(** A candidate: a Tally row not consumed yet whose count is within budget. *)
Definition candidate (gstColumnNames tallyColumnNames : list string)
    (matched : gset Z) (gstRow tallyRow : Row) : Prop :=
  (rowId tallyRow ∉ matched) /\
  1 <= countOf gstColumnNames tallyColumnNames gstRow tallyRow <= 3.

(** What the scan holds after the Tally rows [seen]: nothing when [seen] has
    no candidate, else a candidate of [seen] that beats every earlier
    candidate strictly and every later one weakly. *)
Definition scanned (gstColumnNames tallyColumnNames : list string)
    (matched : gset Z) (gstRow : Row) (seen : list Row) (b : Best) : Prop :=
  match bestMatch b with
  | None =>
      bestDiscrepancies b = 999 /\
      forall t, t ∈ seen -> ~ candidate gstColumnNames tallyColumnNames matched gstRow t
  | Some best =>
      exists before after,
        seen = before ++ best :: after /\
        candidate gstColumnNames tallyColumnNames matched gstRow best /\
        compareRows gstColumnNames tallyColumnNames gstRow best
          = (bestDiscrepancies b, bestColumns b) /\
        (forall t, t ∈ before ->
           candidate gstColumnNames tallyColumnNames matched gstRow t ->
           bestDiscrepancies b < countOf gstColumnNames tallyColumnNames gstRow t) /\
        (forall t, t ∈ after ->
           candidate gstColumnNames tallyColumnNames matched gstRow t ->
           bestDiscrepancies b <= countOf gstColumnNames tallyColumnNames gstRow t)
  end.

(** Every entry the loop writes is built from a pair of rows within budget:
    it holds the count and the columns of the comparison of its two rows. *)
Definition wellBuilt (gstColumnNames tallyColumnNames : list string)
    (pm : PartialMatch) : Prop :=
  1 <= discrepancies pm <= 3 /\
  compareRows gstColumnNames tallyColumnNames (gst pm) (tally pm)
    = (discrepancies pm, discrepancyColumns pm) /\
  pm = makePartialMatch (gst pm) (tally pm) (discrepancies pm) (discrepancyColumns pm).



(** The amount a compared text stands for: the number read from what is
    left of the text when every character but the digits, "." and "-" is
    removed, 0 when no number is read; as a Number. *)
Definition amount (v : string) : JsNumber :=
  match parseFloat (filterChars keepNumeric v) with
  | Finite q => toDouble q
  | _ => Finite 0
  end.


(** The text of a list of characters. *)
Definition text (cs : list ascii) : string := string_of_list_ascii cs.

Definition nonDigit (c : ascii) : bool := negb (isDigit c).
Definition dotOrDash (c : ascii) : bool := Ascii.eqb c "." || Ascii.eqb c "-".

(** Sample rows of a mapped table with an invoice and an amount column. *)
Definition sampleRow (id : Z) (inv amount : string) : Row :=
  mkRow id {[ "invoice_no" := VStr inv; "taxable_value" := VStr amount ]}.

Definition sampleColumns : list string := ["invoice_no"; "taxable_value"].

(** Scenario B: the amounts differ by 0.50. *)
Definition minorMatch : PartialMatch :=
  makePartialMatch (sampleRow 1 "INV1" "100") (sampleRow 7 "INV1" "100.50") 1
    [mkDiscrepancyColumn 1 "taxable_value" "taxable_value" "100" "100.50"].



(** Five mapped columns; the two rows agree on the first one only. *)
Definition wideColumns : list string := ["c1"; "c2"; "c3"; "c4"; "c5"].

Definition wideRow (v1 v : string) : record :=
  {[ "c1" := VStr v1; "c2" := VStr v; "c3" := VStr v; "c4" := VStr v; "c5" := VStr v ]}.



End Budget.

(** ** Further functions of [src/index.js] and of the file parser *)

(** *** Column names ([sanitizeColumnName], lines 584-592, 786-792, 1266-1275) *)

Module Columns.

Definition isLowerLetter (c : ascii) : bool :=
  let n := nat_of_ascii c in Nat.leb 97 n && Nat.leb n 122.

(** The class [[a-z0-9_]]. *)
Definition isNameChar (c : ascii) : bool :=
  isLowerLetter c || isDigit c || Ascii.eqb c "_".

(** [.replace(/[^a-z0-9_]/g, '_')]. *)
Fixpoint replaceOther (s : string) : string :=
  match s with
  | EmptyString => EmptyString
  | String c r => String (if isNameChar c then c else "_"%char) (replaceOther r)
  end.

(** [.replace(/_+/g, '_')]: an underscore followed by an underscore is
    dropped, the last one of a run stays. *)
Fixpoint collapseUnderscores (s : string) : string :=
  match s with
  | EmptyString => EmptyString
  | String c r =>
      if Ascii.eqb c "_" then
        match r with
        | String "_" _ => collapseUnderscores r
        | _ => String c (collapseUnderscores r)
        end
      else String c (collapseUnderscores r)
  end.

Definition dropLeadingUnderscore (s : string) : string :=
  match s with
  | String "_" r => r
  | _ => s
  end.

Fixpoint dropTrailingUnderscore (s : string) : string :=
  match s with
  | EmptyString => EmptyString
  | String c EmptyString => if Ascii.eqb c "_" then EmptyString else s
  | String c r => String c (dropTrailingUnderscore r)
  end.

(** [.replace(/^_|_$/g, '')]. *)
Definition stripUnderscores (s : string) : string :=
  dropTrailingUnderscore (dropLeadingUnderscore s).

Definition sanitized (name : string) : string :=
  stripUnderscores (collapseUnderscores (replaceOther (toLowerCase name))).

(** [/^\d/.test(s)]. *)
Definition startsWithDigit (s : string) : bool :=
  match s with
  | String c _ => isDigit c
  | EmptyString => false
  end.

(** The variant of the routes [/api/reconcile-mapped-data] and
    [/api/save-mapping]; [stamp] is the text of [Date.now()]. *)
Definition sanitizeColumnName (stamp : string) (name : string) : string :=
  if String.eqb name "" then "col_" +:+ stamp
  else
    let s := sanitized name in
    if String.eqb s "" then "col_" +:+ stamp
    else if startsWithDigit s then "col_" +:+ s
    else s.

(** The variant of the routes [/api/save-exact-matches], [/api/save-gst-only]
    and [/api/save-tally-only]. *)
Definition savedColumnName (name : string) : string :=
  if String.eqb name "" then "col"
  else
    let s := sanitized name in
    let s := if String.eqb s "" then "col" else s in
    if startsWithDigit s then "col_" +:+ s else s.

(** Lines 799-805 of [/api/save-exact-matches] (and the same lines of the two
    other save routes): the names of the created columns; [seen] counts the
    uses of a sanitized name. *)
Definition natText (n : nat) : string := Z_to_string (Z.of_nat n).

(** [count === 1 ? base : `${base}_${count}`]. *)
Definition numbered (base : string) (count : nat) : string :=
  if Nat.eqb count 1 then base else base +:+ "_" +:+ natText count.

Definition dedupeStep (acc : gmap string nat * list string) (orig : string)
    : gmap string nat * list string :=
  let '(seen, out) := acc in
  let base := savedColumnName orig in
  let count := default 0 (seen !! base) + 1 in
  (<[base := count]> seen, out ++ [numbered base count]).

Definition sanitizedCols (originalColumns : list string) : list string :=
  (fold_left dedupeStep originalColumns (∅, [])).2.

(** How many of the names [cols] are sanitized to [base]. *)
Definition uses (base : string) (cols : list string) : nat :=
  length (filter (fun c => savedColumnName c = base) cols).

(** An identifier: not empty, of the characters [[a-z0-9_]], no digit
    first. *)
Definition wellFormedName (s : string) : bool :=
  negb (String.eqb s "") && allChars isNameChar s && negb (startsWithDigit s).

(** [/^[a-z0-9_]+$/.test(name)], the test of [/api/reconcile-mapped-data] on
    the two table names. *)
Definition validTableName (name : string) : bool :=
  negb (String.eqb name "") && allChars isNameChar name.

(** The names [/api/save-mapping] gives the two mapped tables (lines
    1345-1347), [logId] being [Date.now()]. *)
Definition gstTableName (logId : Z) : string := "gst_mapped_log_" +:+ Z_to_string logId.
Definition tallyTableName (logId : Z) : string := "tally_mapped_log_" +:+ Z_to_string logId.

End Columns.

(** *** Date detection of [/api/save-mapping] (lines 1175-1202, 1284-1338) *)

Module DateDetect.
Import Dates.

(** [/^\d{1,4}[-/]\d{1,2}[-/]\d{1,4}$/.test(str)]. *)
Definition datePattern (str : string) : bool :=
  let '(a, r1) := takeDigits str in
  match r1 with
  | String s1 r2 =>
      let '(b, r3) := takeDigits r2 in
      match r3 with
      | String s2 r4 =>
          let '(c, r5) := takeDigits r4 in
          Nat.leb 1 (length a) && Nat.leb (length a) 4 && isDateSeparator s1
          && Nat.leb 1 (length b) && Nat.leb (length b) 2 && isDateSeparator s2
          && Nat.leb 1 (length c) && Nat.leb (length c) 4 && String.eqb r5 ""
      | EmptyString => false
      end
  | EmptyString => false
  end.

(** [!isNaN(numVal) && numVal > 30000 && numVal < 50000]. *)
Definition serialTest (str : string) : bool :=
  match parseFloat str with
  | Finite numVal => negb (Qle_bool numVal 30000) && negb (Qle_bool 50000 numVal)
  | _ => false
  end.

(** Lines 1188-1201. *)
Definition partsValid (str : string) : bool :=
  match splitOn isDateSeparator str with
  | [p0; p1; p2] =>
      if Nat.eqb (String.length p0) 4 then isValidDate p0 p1 p2
      else if Nat.eqb (String.length p2) 4 then isValidDate p2 p1 p0
      else false
  | _ => false
  end.

(** Lines 1175-1202. *)
Definition isDateValue (value : JsVal) : bool :=
  if negb (truthy value) then false
  else
    let str := trim (toString value) in
    if serialTest str then true
    else if negb (datePattern str) then false
    else partsValid str.

(** [val && String(val).trim()]. *)
Definition nonBlank (val : JsVal) : bool :=
  truthy val && negb (String.eqb (trim (toString val)) "").

(** The sampling loop of lines 1296-1310 over the rows it visits, with the
    flag [hasAtLeastOneDate]; the first component is [allDatesOrEmpty], a value
    that is no date ends the loop. *)
Fixpoint sampleDates (col : string) (rows : list record) (hasAtLeastOneDate : bool)
    : bool * bool :=
  match rows with
  | [] => (true, hasAtLeastOneDate)
  | row :: rest =>
      let val := get row col in
      if nonBlank val then
        if isDateValue val then sampleDates col rest true
        else (false, hasAtLeastOneDate)
      else sampleDates col rest hasAtLeastOneDate
  end.

(** [m.gstCol.toLowerCase().trim() === 'invoice date'] (lines 1292-1293). *)
Definition isInvoiceDate (col : string) : bool :=
  String.eqb (trim (toLowerCase col)) "invoice date".

(** Lines 1289-1315 (and 1318-1337 for the Tally side): whether the column
    is stored as a date column. Only a column named Invoice Date is sampled. *)
Definition detectDateColumn (col : string) (data : list record) : bool :=
  if isInvoiceDate col then
    let '(allDatesOrEmpty, hasAtLeastOneDate) := sampleDates col (take 10 data) false in
    allDatesOrEmpty && hasAtLeastOneDate
  else false.

(** The text of a date. *)
Definition dateText (year month day : Z) : string :=
  Z_to_string year +:+ "-" +:+ padStart2 (Z_to_string month)
    +:+ "-" +:+ padStart2 (Z_to_string day).

(** The date of the day [n] days after 1900-01-01 lies in 1982..2036, with a
    month and a day in range and a text of ten characters. *)
Definition serialDayOk (n : Z) : bool :=
  let '(y, m, d) := civilFromDays (excelEpochDay + n) in
  (1982 <=? y)%Z && (y <=? 2036)%Z && (1 <=? m)%Z && (m <=? 12)%Z
  && (1 <=? d)%Z && (d <=? 31)%Z && Nat.eqb (String.length (dateText y m d)) 10.

(** Lines 1404-1411 and 1429-1436: the value inserted for a cell, in a date
    column and in a text column. *)
Definition insertedValue (dateColumn : bool) (cell : JsVal) : JsVal :=
  let val := jsOr cell VNull in
  if dateColumn then
    match convertToStandardDate val with
    | Some dateStr => VStr dateStr
    | None => VNull
    end
  else Server.normalizeValueForDB val.

(** [serialDayOk] for the [count] days from day [n] on. *)
Fixpoint serialDaysOk (count : nat) (n : Z) : bool :=
  match count with
  | O => true
  | Datatypes.S c => serialDayOk n && serialDaysOk c (n + 1)
  end.

(** A date text as the conversion returns them: a year of four digits from
    1900 to 2100, a month of two digits from 1 to 12 and a day of two to four
    digits from 1 to 31, with "-" between them. *)
Definition isDateText (d : string) : bool :=
  match splitOn (Ascii.eqb "-") d with
  | [year; month; day] =>
      allChars isDigit year && Nat.eqb (String.length year) 4
      && allChars isDigit month && Nat.eqb (String.length month) 2
      && allChars isDigit day && Nat.leb 2 (String.length day)
      && Nat.leb (String.length day) 4
      && match parseInt year, parseInt month, parseInt day with
         | Some y, Some m, Some dd =>
             (1900 <=? y)%Z && (y <=? 2100)%Z && (1 <=? m)%Z && (m <=? 12)%Z
             && (1 <=? dd)%Z && (dd <=? 31)%Z
         | _, _, _ => false
         end
  | _ => false
  end.

(** The date of the day [n] days after 1900-01-01 is written as a date text,
    and so for the [count] days from day [n] on. *)
Definition serialTextOk (n : Z) : bool :=
  let '(y, m, d) := civilFromDays (excelEpochDay + n) in isDateText (dateText y m d).

Fixpoint serialTextsOk (count : nat) (n : Z) : bool :=
  match count with
  | O => true
  | Datatypes.S c => serialTextOk n && serialTextsOk c (n + 1)
  end.

(** The first ten cells of a column are texts of ASCII characters. *)
Definition asciiSample (col : string) (data : list record) : bool :=
  forallb (fun row => asciiText (toString (get row col))) (take 10 data).

End DateDetect.

(** *** The rows a parsed sheet is turned into (file parser, lines 1541-1555
    and 1576-1582) *)

Module Sheet.
Import FileParser.

(** [allColumns]: every column name of every row. *)
Definition allColumns (data : list record) : gset string :=
  ⋃ (map dom data).

(** [row[col] !== undefined ? row[col] : 0]. *)
Definition cellOrZero (row : record) (col : string) : JsVal :=
  match get row col with
  | VUndef => VNum 0
  | v => v
  end.

Definition normalizeExcelRow (columns : gset string) (row : record) : record :=
  set_to_map (fun col => (col, normalizeValue (cellOrZero row col))) columns.

(** [parseExcel] after [sheet_to_json]. *)
Definition parseExcelRows (data : list record) : list record :=
  map (normalizeExcelRow (allColumns data)) data.

(** [parseCSV] after [parse]. *)
Definition parseCSVRows (data : list record) : list record :=
  map (fun row : record => normalizeValue <$> row) data.

(** A value [normalizeValue] can return: the number 0, or a trimmed text
    other than "-". *)
Definition isNormalized (v : JsVal) : bool :=
  match v with
  | VNum z => Z.eqb z 0
  | VStr s => String.eqb (trim s) s && negb (String.eqb s "-")
  | _ => false
  end.

End Sheet.

(** *** The feature columns of [storeMappedData] and the queries of
    [performSQLReconciliation] (lines 293-345, 376-410), with the summary of
    the route [/api/reconcile] (lines 156-199) *)

Module Features.
Import Server.

(** [col && tallyCols[idx]] for the pair at [idx]. *)
Definition pairAt (gstCols tallyCols : list string) (idx : nat) : bool :=
  match gstCols !! idx, tallyCols !! idx with
  | Some gstCol, Some tallyCol => nonEmpty gstCol && nonEmpty tallyCol
  | _, _ => false
  end.

(** [gstCols.filter((col, idx) => col && tallyCols[idx]).length]. *)
Definition validCount (gstCols tallyCols : list string) : nat :=
  length (filter (fun idx => pairAt gstCols tallyCols idx = true)
                 (seq 0 (length gstCols))).

(** The numbers of the columns [feature<n>] the two tables are created
    with. *)
Definition storedFeatures (gstCols tallyCols : list string) : list nat :=
  map featureNum (validMappings gstCols tallyCols).

(** The numbers of the columns [feature<n>] the queries name:
    [Array.from({ length: validCount }, (_, i) => i + 1)]. *)
Definition queriedFeatures (gstCols tallyCols : list string) : list nat :=
  seq 1 (validCount gstCols tallyCols).

Definition featureName (n : nat) : string := "feature" +:+ Columns.natText n.

(** The columns of a mapped table (lines 391-399, 402-410). *)
Definition tableColumns (ms : list Mapping) : list string :=
  "id" :: map (fun m => featureName (featureNum m)) ms ++ ["created_at"].

(** How PostgreSQL resolves a column name written without a table over the
    join of two tables: the table that has the column when one has it, an
    error when both have it (the reference is ambiguous) and when none
    has. [Some true] is the left table. *)
Definition resolveColumn (name : string) (left right : list string) : option bool :=
  match bool_decide (name ∈ left), bool_decide (name ∈ right) with
  | true, false => Some true
  | false, true => Some false
  | _, _ => None
  end.

(** The select list [feature1, .., feature<validCount>] of the four queries,
    written without a table over the join of the two tables created for the
    mappings [ms]: whether PostgreSQL resolves every name of it. *)
Definition selectListResolved (ms : list Mapping) (gstCols tallyCols : list string) : bool :=
  let columns := tableColumns ms in
  forallb (fun name => bool_decide (is_Some (resolveColumn name columns columns)))
          (map featureName (queriedFeatures gstCols tallyCols)).

(** The query of the exact matches (lines 310-315) on two tables created for
    the mappings [ms], with the column lists read back from
    [column_mappings]: [None] when PostgreSQL rejects it. The join condition
    names every queried feature in both tables; without a feature it is
    empty, which is no SQL. *)
Definition exactMatchesQuery (ms : list Mapping)
    (gstTable tallyTable : list (list string)) (gstCols tallyCols : list string)
    : option (list (nat * nat)) :=
  let names := map featureName (queriedFeatures gstCols tallyCols) in
  if negb (Nat.eqb (length names) 0)
     && selectListResolved ms gstCols tallyCols
     && forallb (fun name => bool_decide (name ∈ tableColumns ms)) names
  then Some (innerJoin gstTable tallyTable)
  else None.

(** The three queries that follow (lines 318-345) have the same select list
    and join on [feature1] and [feature2] of both tables: whether PostgreSQL
    accepts them. *)
Definition laterQueriesAccepted (ms : list Mapping) (gstCols tallyCols : list string) : bool :=
  selectListResolved ms gstCols tallyCols
  && bool_decide (featureName 1 ∈ tableColumns ms)
  && bool_decide (featureName 2 ∈ tableColumns ms).

(** [summary.exactMatches] of the route [/api/reconcile] (lines 156-199):
    the number of rows of the exact-match query when [storeMappedData] and
    every query of [performSQLReconciliation] return, else, from the [catch],
    the number of exact matches of [reconcileData]. *)
Definition reportedExactMatches (gstData tallyData : list record)
    (gstColumns tallyColumns : list string) : nat :=
  let inMemory :=
    length (Reconciliation.exactMatches
              (Reconciliation.reconcileData gstData tallyData gstColumns tallyColumns)) in
  let ms := validMappings gstColumns tallyColumns in
  match storeMappedData gstData tallyData gstColumns tallyColumns with
  | Stored gstTable tallyTable =>
      match exactMatchesQuery ms gstTable tallyTable gstColumns tallyColumns with
      | Some rows =>
          if laterQueriesAccepted ms gstColumns tallyColumns then length rows else inMemory
      | None => inMemory
      end
  | _ => inMemory
  end.

End Features.

(** *** The residual lists of [/api/reconcile-mapped-data] (lines 744-745) *)

Module Report.
Import Server.

Definition gstOnlyFiltered (m : Matcher) (gstData : list Row) : list Row :=
  filter (fun row => rowId row ∉ matchedGstIds m) gstData.

Definition tallyOnlyFiltered (m : Matcher) (tallyData : list Row) : list Row :=
  filter (fun row => rowId row ∉ matchedTallyIds m) tallyData.

(** The ids of the GST rows and of the Tally rows of the partial matches. *)
Definition partialGstIds (m : Matcher) : list Z :=
  map (fun pm => rowId (gst pm)) (partialMatches m).

Definition partialTallyIds (m : Matcher) : list Z :=
  map (fun pm => rowId (tally pm)) (partialMatches m).

(** A date of the shape dddd-dd-dd. *)
Definition dateShape (d : string) : bool :=
  match d with
  | String y1 (String y2 (String y3 (String y4 (String "-"
      (String m1 (String m2 (String "-" (String d1 (String d2 EmptyString))))))))) =>
      isDigit y1 && isDigit y2 && isDigit y3 && isDigit y4 &&
      isDigit m1 && isDigit m2 && isDigit d1 && isDigit d2
  | _ => false
  end.

End Report.
(** ** Generic facts about [forEach] and index sets *)

Section ForEachFacts.
Context {A S : Type} (f : S -> A -> nat -> S).

  (** An invariant indexed by the position reached in the array. *)
Lemma forEachFrom_inv (P : nat -> S -> Prop) (l : list A) :
    forall i s,
      P i s ->
      (forall j x s', l !! (j - i) = Some x -> i <= j -> P j s' -> P (Datatypes.S j) (f s' x j)) ->
      P (i + length l) (forEachFrom f i l s).
Proof.
    induction l as [|x l IH]; intros i s Hs Hstep; simpl.
    - by rewrite Nat.add_0_r.
    - replace (i + Datatypes.S (length l)) with (Datatypes.S i + length l) by lia.
      apply IH.
      + apply Hstep; [by rewrite Nat.sub_diag | lia | done].
      + intros j y s' Hy Hj. apply Hstep; [|lia].
        replace (j - i) with (Datatypes.S (j - Datatypes.S i)) by lia. done.
Qed.

Lemma forEach_inv (P : nat -> S -> Prop) (l : list A) (s : S) :
    P 0 s ->
    (forall j x s', l !! j = Some x -> P j s' -> P (Datatypes.S j) (f s' x j)) ->
    P (length l) (forEach f l s).
Proof.
    intros H0 Hstep. apply (forEachFrom_inv P l 0 s H0).
    intros j x s' Hx _. rewrite Nat.sub_0_r in Hx. by apply Hstep.
Qed.
End ForEachFacts.

(** The indices below [n] outside a duplicate-free list of indices below [n]
    complete it to a permutation of [0 .. n-1]. *)
Lemma complement_perm (n : nat) (L : list nat) :
  NoDup L -> (forall i, i ∈ L -> i < n) ->
  L ++ filter (fun i => i ∉ L) (seq 0 n) ≡ₚ seq 0 n.
Proof.
  intros HL Hb. apply NoDup_Permutation.
  - apply NoDup_app. split_and!; [done | | apply NoDup_filter, NoDup_seq].
    intros i Hi Hf. apply list_elem_of_filter in Hf. tauto.
  - apply NoDup_seq.
  - intros i. rewrite elem_of_app, list_elem_of_filter, elem_of_seq. split.
    + intros [Hi | [_ Hi]]; [specialize (Hb i Hi)|]; lia.
    + intros Hi. destruct (decide (i ∈ L)); [by left | right; split; [done | lia]].
Qed.

Lemma complement_length (n : nat) (L : list nat) :
  NoDup L -> (forall i, i ∈ L -> i < n) ->
  length L + length (filter (fun i => i ∉ L) (seq 0 n)) = n.
Proof.
  intros HL Hb. rewrite <- length_app, (complement_perm n L HL Hb).
  apply length_seq.
Qed.

Lemma filter_ext_elem {A : Type} (P Q : A -> Prop)
    `{forall x, Decision (P x)} `{forall x, Decision (Q x)} (l : list A) :
  (forall x, x ∈ l -> (P x <-> Q x)) -> filter P l = filter Q l.
Proof.
  induction l as [|x l IH]; intros HPQ; [done|].
  rewrite !filter_cons.
  assert (P x <-> Q x) as Hx by (apply HPQ; left).
  rewrite IH by (intros y Hy; apply HPQ; by right).
  destruct (decide (P x)), (decide (Q x)); tauto.
Qed.

(** Adding an element to a [Set] that holds the elements of a list. *)
Lemma set_add_snoc (M : gset nat) (L : list nat) (x : nat) :
  M = list_to_set L -> {[x]} ∪ M = list_to_set (L ++ [x]).
Proof.
  intros ->. rewrite list_to_set_app_L. simpl.
  rewrite (right_id_L ∅ (∪)). apply (comm_L (∪)).
Qed.

(** ** Facts about [reconcileData] *)

Section ReconcileFacts.
Import Reconciliation Closed.
Context (gstData tallyData : list record) (gstColumns tallyColumns : list string).

Local Abbreviation nG := (length gstData).
Local Abbreviation nT := (length tallyData).
Local Abbreviation finalState := (finalState gstData tallyData gstColumns tallyColumns).

Lemma Inv_init : Inv nG nT gstColumns tallyColumns initState.
Proof.
    split; unfold entries; simpl; try done; try constructor.
Qed.

  (** *** The lookup map *)

Lemma tallyMapStep_lookup m r i k :
    tallyMapStep tallyColumns m r i !! k =
      if decide (createKey r tallyColumns = k)
      then Some (default [] (m !! k) ++ [(i, withIndex r i)])
      else m !! k.
Proof.
    unfold tallyMapStep. case_decide as Hk.
    - subst k. rewrite lookup_insert_eq.
      destruct (m !! createKey r tallyColumns) eqn:E; [by rewrite E|].
      by rewrite lookup_insert_eq.
    - rewrite lookup_insert_ne by done.
      destruct (m !! createKey r tallyColumns); [done|].
      by rewrite lookup_insert_ne.
Qed.

Lemma tallyMap_from_lookup l : forall i m k,
    forEachFrom (tallyMapStep tallyColumns) i l m !! k =
      match bucketFrom tallyColumns k i l with
      | [] => m !! k
      | b => Some (default [] (m !! k) ++ b)
      end.
Proof.
    induction l as [|t l IH]; intros i m k; simpl; [done|].
    rewrite IH, tallyMapStep_lookup.
    case_decide as Hk; simpl.
    - destruct (bucketFrom tallyColumns k (Datatypes.S i) l); simpl; [done|].
      by rewrite <- app_assoc.
    - done.
Qed.

Lemma buildTallyMap_lookup k :
    buildTallyMap tallyData tallyColumns !! k =
      match bucketFrom tallyColumns k 0 tallyData with
      | [] => None
      | b => Some b
      end.
Proof.
    unfold buildTallyMap, forEach. rewrite tallyMap_from_lookup, lookup_empty.
    by destruct (bucketFrom tallyColumns k 0 tallyData).
Qed.

Lemma exactStep_bucket s g i :
    exactStep (buildTallyMap tallyData tallyColumns) gstColumns s g i =
      fold_left (exactInner g i)
        (bucketFrom tallyColumns (createKey g gstColumns) 0 tallyData) s.
Proof.
    unfold exactStep. rewrite buildTallyMap_lookup.
    by destruct (bucketFrom tallyColumns (createKey g gstColumns) 0 tallyData).
Qed.

Lemma elem_of_bucketFrom k l : forall i j r,
    (j, r) ∈ bucketFrom tallyColumns k i l <->
    exists t, l !! (j - i) = Some t /\ i <= j /\
              createKey t tallyColumns = k /\ r = withIndex t j.
Proof.
    induction l as [|t l IH]; intros i j r; simpl.
    - split; [intros H; inversion H | intros (t & H & _); done].
    - rewrite elem_of_app, IH. split.
      + intros [H | (t' & Hl & Hi & Hk & Hr)].
        * case_decide; [|inversion H]. apply list_elem_of_singleton in H.
          inversion H; subst. exists t. rewrite Nat.sub_diag. done.
        * exists t'. replace (j - i) with (Datatypes.S (j - Datatypes.S i)) by lia.
          split_and!; [done | lia | done | done].
      + intros (t' & Hl & Hi & Hk & Hr).
        destruct (decide (j = i)) as [->|Hne].
        * left. rewrite Nat.sub_diag in Hl. simpl in Hl. inversion Hl; subst t'.
          rewrite decide_True by done. subst r. by apply list_elem_of_singleton.
        * right. exists t'.
          replace (j - i) with (Datatypes.S (j - Datatypes.S i)) in Hl by lia.
          split_and!; [done | lia | done | done].
Qed.

Lemma bucketFrom_fst_lt k l : forall i j,
    j ∈ (bucketFrom tallyColumns k i l).*1 -> i <= j < i + length l.
Proof.
    intros i j Hj. apply list_elem_of_fmap in Hj as ([j' r] & -> & Hin).
    apply elem_of_bucketFrom in Hin as (t & Hl & Hi & _). simpl.
    apply lookup_lt_Some in Hl. lia.
Qed.

Lemma bucketFrom_NoDup k l : forall i, NoDup (bucketFrom tallyColumns k i l).*1.
Proof.
    induction l as [|t l IH]; intros i; simpl; [constructor|].
    rewrite fmap_app. apply NoDup_app. split_and!.
    - case_decide; simpl; [apply NoDup_singleton | constructor].
    - intros j Hj Hj'. apply bucketFrom_fst_lt in Hj'.
      case_decide; simpl in Hj; [|inversion Hj].
      apply list_elem_of_singleton in Hj. lia.
    - apply IH.
Qed.

  (** *** The invariant of the two passes *)

Lemma not_elem_matched (L : list nat) (M : gset nat) j :
    M = list_to_set L -> j ∉ M -> j ∉ L.
Proof. intros -> H Hj. apply H. by apply elem_of_list_to_set. Qed.

Lemma exactInner_Inv s g i t :
    Inv nG nT gstColumns tallyColumns s -> sPartial s = [] -> i < nG -> t.1 < nT ->
    Inv nG nT gstColumns tallyColumns (exactInner g i s t) /\ sPartial (exactInner g i s t) = [].
Proof.
    intros [Ht Hg Hnd Hb Hs Hbud Hdisc] Hp Hi Hti. unfold exactInner.
    case_decide as Hm; [by split|]. split; [|done].
    unfold entries in *. rewrite Hp, app_nil_r in *.
    split; unfold entries; simpl; rewrite ?app_nil_r.
    - rewrite map_app. by apply set_add_snoc.
    - rewrite map_app. by apply set_add_snoc.
    - rewrite map_app. apply NoDup_app. split_and!; [done | | apply NoDup_singleton].
      intros j Hj Hj'. apply list_elem_of_singleton in Hj'. subst j.
      by apply (not_elem_matched _ _ _ Ht Hm).
    - apply Forall_app. split; [done|]. by repeat constructor.
    - constructor.
    - constructor.
    - constructor.
Qed.

Lemma exactFold_Inv g i b : forall s,
    Inv nG nT gstColumns tallyColumns s -> sPartial s = [] -> i < nG ->
    (forall t, t ∈ b -> t.1 < nT) ->
    Inv nG nT gstColumns tallyColumns (fold_left (exactInner g i) b s) /\
    sPartial (fold_left (exactInner g i) b s) = [].
Proof.
    induction b as [|t b IH]; intros s HI Hp Hi Hb; simpl; [done|].
    destruct (exactInner_Inv s g i t HI Hp Hi) as [HI' Hp'].
    { apply Hb. left. }
    apply IH; [done | done | done |]. intros t' Ht'. apply Hb. by right.
Qed.

Lemma exactPass_Inv :
    Inv nG nT gstColumns tallyColumns (exactPass gstData tallyData gstColumns tallyColumns) /\
    sPartial (exactPass gstData tallyData gstColumns tallyColumns) = [].
Proof.
    unfold exactPass.
    apply (forEach_inv _ (fun _ s => Inv nG nT gstColumns tallyColumns s /\ sPartial s = [])).
    - split; [apply Inv_init | done].
    - intros j g s Hg [HI Hp]. rewrite exactStep_bucket.
      apply exactFold_Inv; [done | done | by eapply lookup_lt_Some |].
      intros [ti r] Ht. simpl.
      assert (ti ∈ (bucketFrom tallyColumns (createKey g gstColumns) 0 tallyData).*1) as H.
      { apply list_elem_of_fmap. by exists (ti, r). }
      apply bucketFrom_fst_lt in H. lia.
Qed.

Lemma partialInner_Inv s g gi t ti :
    Inv nG nT gstColumns tallyColumns s -> gi < nG -> ti < nT -> gi ∉ map gstIndex (sExact s) ->
    Inv nG nT gstColumns tallyColumns (partialInner gstColumns tallyColumns g gi s t ti) /\
    sExact (partialInner gstColumns tallyColumns g gi s t ti) = sExact s.
Proof.
    intros [Ht Hg Hnd Hb Hs Hbud Hdisc] Hi Hti Hfresh. unfold partialInner.
    case_decide as Hm; [by split|].
    destruct (_ && _) eqn:Hd; [|by split].
    apply andb_true_iff in Hd as [Hd1 Hd2].
    apply Nat.ltb_lt in Hd1, Hd2.
    split; [|done]. unfold entries in *.
    split; unfold entries; simpl; rewrite ?app_assoc.
    - rewrite map_app. by apply set_add_snoc.
    - rewrite map_app. by apply set_add_snoc.
    - rewrite map_app. apply NoDup_app. split_and!; [done | | apply NoDup_singleton].
      intros j Hj Hj'. apply list_elem_of_singleton in Hj'. subst j.
      by apply (not_elem_matched _ _ _ Ht Hm).
    - apply Forall_app. split; [done|]. by repeat constructor.
    - apply Forall_app. split; [done|]. by repeat constructor.
    - apply Forall_app. split; [done|]. by repeat constructor.
    - apply Forall_app. split; [done|]. by repeat constructor.
Qed.

Lemma partialStep_Inv s g gi :
    Inv nG nT gstColumns tallyColumns s -> gi < nG ->
    Inv nG nT gstColumns tallyColumns (partialStep tallyData gstColumns tallyColumns s g gi) /\
    sExact (partialStep tallyData gstColumns tallyColumns s g gi) = sExact s.
Proof.
    intros HI Hi. unfold partialStep. case_decide as Hm; [by split|].
    assert (gi ∉ map gstIndex (sExact s)) as Hfresh.
    { intros Hin. apply (not_elem_matched _ _ _ (inv_gst _ _ _ _ _ HI) Hm).
      unfold entries. rewrite map_app. apply elem_of_app. by left. }
    apply (forEach_inv _ (fun _ s' => Inv nG nT gstColumns tallyColumns s' /\ sExact s' = sExact s)).
    - by split.
    - intros j t s' Hj [HI' He].
      destruct (partialInner_Inv s' g gi t j HI' Hi) as [HI'' He'].
      + by eapply lookup_lt_Some.
      + by rewrite He.
      + split; [done | congruence].
Qed.

Lemma partialPass_Inv s :
    Inv nG nT gstColumns tallyColumns s ->
    Inv nG nT gstColumns tallyColumns (partialPass gstData tallyData gstColumns tallyColumns s) /\
    sExact (partialPass gstData tallyData gstColumns tallyColumns s) = sExact s.
Proof.
    intros HI. unfold partialPass.
    apply (forEach_inv _ (fun _ s' => Inv nG nT gstColumns tallyColumns s' /\ sExact s' = sExact s)).
    - by split.
    - intros j g s' Hj [HI' He].
      destruct (partialStep_Inv s' g j HI') as [HI'' He'].
      + by eapply lookup_lt_Some.
      + split; [done | congruence].
Qed.

Lemma finalState_Inv : Inv nG nT gstColumns tallyColumns finalState.
Proof. apply partialPass_Inv, exactPass_Inv. Qed.

Lemma finalState_exact :
    sExact finalState = sExact (exactPass gstData tallyData gstColumns tallyColumns).
Proof. apply partialPass_Inv, exactPass_Inv. Qed.

  (** *** The residual buckets *)

Lemma tallyMismatch_indices (M : gset nat) l : forall i acc,
    unmatched (forEachFrom (tallyMismatchStep M) i l acc) =
      unmatched acc ++ filter (fun j => j ∉ M) (seq i (length l)).
Proof.
    induction l as [|t l IH]; intros i acc; simpl; [by rewrite app_nil_r|].
    rewrite IH, filter_cons. unfold tallyMismatchStep, unmatched.
    destruct (decide (i ∈ M)).
    - by rewrite decide_False by tauto.
    - rewrite decide_True by done. by rewrite map_app, <- app_assoc.
Qed.

Lemma gstMismatch_indices (M : gset nat) l : forall i acc,
    unmatched (forEachFrom (gstMismatchStep M) i l acc) =
      unmatched acc ++ filter (fun j => j ∉ M) (seq i (length l)).
Proof.
    induction l as [|t l IH]; intros i acc; simpl; [by rewrite app_nil_r|].
    rewrite IH, filter_cons. unfold gstMismatchStep, unmatched.
    destruct (decide (i ∈ M)).
    - by rewrite decide_False by tauto.
    - rewrite decide_True by done. by rewrite map_app, <- app_assoc.
Qed.

Lemma result_fields :
    let r := reconcileData gstData tallyData gstColumns tallyColumns in
    exactMatches r = sExact finalState /\
    partialMatches r = sPartial finalState /\
    unmatched (tallyMismatches r) =
      filter (fun j => j ∉ map tallyIndex (entries finalState)) (seq 0 nT) /\
    unmatched (gstMismatches r) =
      filter (fun j => j ∉ map gstIndex (entries finalState)) (seq 0 nG).
Proof.
    simpl. unfold reconcileData. simpl. fold finalState.
    split_and!; [done | done | |].
    - unfold forEach. rewrite tallyMismatch_indices. simpl.
      apply filter_ext_elem. intros j _.
      rewrite (inv_tally _ _ _ _ _ finalState_Inv), elem_of_list_to_set. done.
    - unfold forEach. rewrite gstMismatch_indices. simpl.
      apply filter_ext_elem. intros j _.
      rewrite (inv_gst _ _ _ _ _ finalState_Inv), elem_of_list_to_set. done.
Qed.
End ReconcileFacts.

(** ** Totality and exclusivity of [reconcileData] *)

Section Buckets.
Import Reconciliation Closed.
Context (gstData tallyData : list record) (gstColumns tallyColumns : list string).

Local Abbreviation r := (reconcileData gstData tallyData gstColumns tallyColumns).
Local Abbreviation fin := (finalState gstData tallyData gstColumns tallyColumns).

Lemma remove_dups_length_le (l : list nat) : length (remove_dups l) <= length l.
Proof.
  induction l as [|x l IH]; simpl; [done|].
  destruct (decide_rel elem_of x l); simpl; lia.
Qed.

Lemma matched_entries : entries fin = exactMatches r ++ partialMatches r.
Proof.
  destruct (result_fields gstData tallyData gstColumns tallyColumns) as (-> & -> & _).
  done.
Qed.

Lemma tally_bound j : j ∈ map tallyIndex (entries fin) -> j < length tallyData.
Proof.
  intros Hj. apply list_elem_of_fmap in Hj as (m & -> & Hm).
  pose proof (inv_bound _ _ _ _ _ (finalState_Inv gstData tallyData gstColumns tallyColumns)) as Hb.
  rewrite Forall_forall in Hb. by apply Hb.
Qed.

Lemma gst_bound j : j ∈ map gstIndex (entries fin) -> j < length gstData.
Proof.
  intros Hj. apply list_elem_of_fmap in Hj as (m & -> & Hm).
  pose proof (inv_bound _ _ _ _ _ (finalState_Inv gstData tallyData gstColumns tallyColumns)) as Hb.
  rewrite Forall_forall in Hb. by apply Hb.
Qed.

(** Every Tally row is in exactly one entry of the report. *)
Lemma tally_partition :
  map tallyIndex (exactMatches r ++ partialMatches r) ++ unmatched (tallyMismatches r)
  ≡ₚ seq 0 (length tallyData).
Proof.
  destruct (result_fields gstData tallyData gstColumns tallyColumns)
    as (_ & _ & -> & _).
  rewrite <- matched_entries. apply complement_perm.
  - apply (inv_nodup _ _ _ _ _ (finalState_Inv gstData tallyData gstColumns tallyColumns)).
  - apply tally_bound.
Qed.

(** Every GST row is matched (once or more) or reported unmatched. *)
Lemma gst_partition :
  remove_dups (map gstIndex (exactMatches r ++ partialMatches r))
    ++ unmatched (gstMismatches r)
  ≡ₚ seq 0 (length gstData).
Proof.
  destruct (result_fields gstData tallyData gstColumns tallyColumns)
    as (_ & _ & _ & ->).
  rewrite <- matched_entries.
  rewrite (filter_ext_elem _
             (fun j => j ∉ remove_dups (map gstIndex (entries fin)))).
  - apply complement_perm; [apply NoDup_remove_dups|].
    intros j Hj. apply gst_bound. by apply elem_of_remove_dups.
  - intros j _. by rewrite elem_of_remove_dups.
Qed.

Lemma unmatched_length (l : list Mismatch) : length (unmatched l) = length l.
Proof. apply length_map. Qed.
End Buckets.

Import Reconciliation Closed.

(** C2 (as amended). Every Tally row is in exactly one entry of the report,
    every GST row that is not reported unmatched is in at least one match
    entry, so the doubled match counts plus the two residual counts reach at
    least the number of input rows. *)
Theorem reconcileData_coverage (gstData tallyData : list record)
    (gstColumns tallyColumns : list string) :
  let r := reconcileData gstData tallyData gstColumns tallyColumns in
  length (exactMatches r) + length (partialMatches r) + length (tallyMismatches r)
    = length tallyData /\
  length (remove_dups (map gstIndex (exactMatches r ++ partialMatches r)))
    + length (gstMismatches r) = length gstData /\
  length gstData + length tallyData <=
    length (exactMatches r) * 2 + length (partialMatches r) * 2
    + length (gstMismatches r) + length (tallyMismatches r).
Proof.
  intros r.
  pose proof (tally_partition gstData tallyData gstColumns tallyColumns) as HT.
  pose proof (gst_partition gstData tallyData gstColumns tallyColumns) as HG.
  apply Permutation_length in HT, HG. fold r in HT, HG.
  rewrite length_app, length_seq, unmatched_length in HT, HG.
  rewrite length_map, length_app in HT.
  pose proof (remove_dups_length_le (map gstIndex (exactMatches r ++ partialMatches r))) as Hle.
  rewrite length_map, length_app in Hle.
  split_and!; [lia | lia | lia].
Qed.

(** C2, the claim as stated, fails: one GST row and two Tally rows of one key
    give two exact matches, so the left side is 4 and the right side 3. *)
Lemma totality_fails_on_repeated_tally_key :
  let r := reconcileData [gstRowOf "INV1"] [tallyRowOf "INV1"; tallyRowOf "INV1"]
             ["Invoice No"] ["Inv"] in
  length (exactMatches r) * 2 + length (partialMatches r) * 2
    + length (gstMismatches r) + length (tallyMismatches r) = 4 /\
  length [gstRowOf "INV1"] + length [tallyRowOf "INV1"; tallyRowOf "INV1"] = 3.
Proof. by vm_compute. Qed.

(** C3 (as amended). No row is in two buckets and no Tally row is in two
    entries; a GST row can be in several entries of one bucket. *)
Theorem reconcileData_exclusive (gstData tallyData : list record)
    (gstColumns tallyColumns : list string) :
  let r := reconcileData gstData tallyData gstColumns tallyColumns in
  NoDup (map tallyIndex (exactMatches r ++ partialMatches r)
           ++ unmatched (tallyMismatches r)) /\
  NoDup (unmatched (gstMismatches r)) /\
  (forall i, i ∈ map gstIndex (exactMatches r) ->
             (i ∉ map gstIndex (partialMatches r)) /\
             (i ∉ unmatched (gstMismatches r))) /\
  (forall i, i ∈ map gstIndex (partialMatches r) -> i ∉ unmatched (gstMismatches r)).
Proof.
  intros r.
  pose proof (tally_partition gstData tallyData gstColumns tallyColumns) as HT.
  pose proof (gst_partition gstData tallyData gstColumns tallyColumns) as HG.
  fold r in HT, HG.
  assert (NoDup (remove_dups (map gstIndex (exactMatches r ++ partialMatches r))
                   ++ unmatched (gstMismatches r))) as HGn.
  { rewrite HG. apply NoDup_seq. }
  apply NoDup_app in HGn as (_ & Hdisj & Hun).
  assert (forall i, i ∈ map gstIndex (exactMatches r ++ partialMatches r) ->
                    i ∉ unmatched (gstMismatches r)) as Hd.
  { intros i Hi. apply Hdisj. by apply elem_of_remove_dups. }
  split_and!.
  - rewrite HT. apply NoDup_seq.
  - done.
  - intros i Hi. split.
    + intros Hp. apply list_elem_of_fmap in Hp as (m & -> & Hm).
      pose proof (inv_split _ _ _ _ _ (finalState_Inv gstData tallyData gstColumns tallyColumns)) as Hs.
      destruct (result_fields gstData tallyData gstColumns tallyColumns) as (He & Hpm & _).
      fold r in He, Hpm. rewrite <- He, <- Hpm, Forall_forall in Hs.
      by apply (Hs m).
    + apply Hd. rewrite map_app. apply elem_of_app. by left.
  - intros i Hi. apply Hd. rewrite map_app. apply elem_of_app. by right.
Qed.

(** C3, the claim as stated, fails: with one GST row and two Tally rows of one
    key the GST row 0 is in two exact matches. *)
Lemma gst_row_in_two_exact_matches :
  let r := reconcileData [gstRowOf "INV1"] [tallyRowOf "INV1"; tallyRowOf "INV1"]
             ["Invoice No"] ["Inv"] in
  pairs (exactMatches r) = [(0, 0); (0, 1)].
Proof. by vm_compute. Qed.

(** ** The exact pass in closed form *)

Section ExactPass.
Context (gstData tallyData : list record) (gstColumns tallyColumns : list string).

Local Abbreviation tallyMap := (buildTallyMap tallyData tallyColumns).
Local Abbreviation keyG := (fun g : record => createKey g gstColumns).
Local Abbreviation keyT := (fun t : record => createKey t tallyColumns).

Lemma exactFold_all_matched g i b : forall s,
  (forall t, t ∈ b -> t.1 ∈ matchedTallyIds s) ->
  fold_left (exactInner g i) b s = s.
Proof.
  induction b as [|t b IH]; intros s Hb; simpl; [done|].
  unfold exactInner at 2. rewrite decide_True by (apply Hb; left).
  apply IH. intros t' Ht'. apply Hb. by right.
Qed.

Lemma exactFold_none_matched g i b : forall s,
  NoDup b.*1 ->
  (forall t, t ∈ b -> t.1 ∉ matchedTallyIds s) ->
  sExact (fold_left (exactInner g i) b s)
    = sExact s ++ map (fun t => mkMatch i g t.1 t.2 "exact" []) b /\
  matchedTallyIds (fold_left (exactInner g i) b s)
    = list_to_set b.*1 ∪ matchedTallyIds s.
Proof.
  induction b as [|t b IH]; intros s Hnd Hb; simpl.
  - rewrite app_nil_r. split; [done | by rewrite (left_id_L ∅ (∪))].
  - apply NoDup_cons in Hnd as [Hfresh Hnd].
    unfold exactInner at 2 4. rewrite decide_False by (apply Hb; left).
    destruct (IH (mkState (sExact s ++ [mkMatch i g t.1 t.2 "exact" []]) (sPartial s)
                    ({[t.1]} ∪ matchedTallyIds s) ({[i]} ∪ matchedGstIds s)) Hnd)
      as [-> ->].
    + intros t' Ht'. simpl. apply not_elem_of_union. split.
      * intros Heq%elem_of_singleton. apply Hfresh. rewrite <- Heq.
        apply list_elem_of_fmap. by exists t'.
      * apply Hb. by right.
    + simpl. rewrite <- app_assoc. split; [done|].
      rewrite (assoc_L (∪)). f_equal. apply (comm_L (∪)).
Qed.

Lemma bucket_index j t k :
  tallyData !! j = Some t ->
  (j ∈ (bucketFrom tallyColumns k 0 tallyData).*1 <-> keyT t = k).
Proof.
  intros Hj. rewrite list_elem_of_fmap. split.
  - intros ([j' r] & Hjj & Hin). simpl in Hjj. subst j'.
    apply elem_of_bucketFrom in Hin as (t' & Hl & _ & Hk & _).
    rewrite Nat.sub_0_r in Hl. congruence.
  - intros Hk. exists (j, withIndex t j). split; [done|].
    apply elem_of_bucketFrom. exists t. rewrite Nat.sub_0_r. split_and!; [done | lia | done | done].
Qed.

Lemma bucket_entry k p :
  p ∈ bucketFrom tallyColumns k 0 tallyData ->
  exists t, tallyData !! p.1 = Some t /\ keyT t = k.
Proof.
  destruct p as [j r]. intros Hin.
  apply elem_of_bucketFrom in Hin as (t & Hl & _ & Hk & _).
  rewrite Nat.sub_0_r in Hl. by exists t.
Qed.

Lemma exactFrom_forEach l : forall i seen s,
  (forall j t, tallyData !! j = Some t ->
               (j ∈ matchedTallyIds s <-> keyT t ∈ seen)) ->
  sExact (forEachFrom (exactStep tallyMap gstColumns) i l s)
    = sExact s ++ exactFrom tallyData gstColumns tallyColumns seen i l.
Proof.
  induction l as [|g l IH]; intros i seen s Hs; simpl; [by rewrite app_nil_r|].
  rewrite exactStep_bucket.
  set (b := bucketFrom tallyColumns (createKey g gstColumns) 0 tallyData).
  destruct (decide (createKey g gstColumns ∈ seen)) as [Hin | Hnin].
  - rewrite exactFold_all_matched.
    + rewrite (IH _ (createKey g gstColumns :: seen)); [done|].
      intros j t Hj. rewrite (Hs j t Hj), elem_of_cons. split; [tauto|].
      intros [-> | H]; done.
    + intros p Hp. destruct (bucket_entry _ _ Hp) as (t & Ht & Hk).
      apply (Hs _ _ Ht). by rewrite Hk.
  - destruct (exactFold_none_matched g i b s) as [He Hm].
    + apply bucketFrom_NoDup.
    + intros p Hp. destruct (bucket_entry _ _ Hp) as (t & Ht & Hk).
      rewrite (Hs _ _ Ht), Hk. done.
    + rewrite (IH _ (createKey g gstColumns :: seen)).
      * by rewrite He, <- app_assoc.
      * intros j t Hj. rewrite Hm, elem_of_union, elem_of_list_to_set. subst b.
        rewrite (bucket_index j t _ Hj), (Hs j t Hj), elem_of_cons. done.
Qed.

Lemma exactPass_closed :
  sExact (exactPass gstData tallyData gstColumns tallyColumns)
    = exactFrom tallyData gstColumns tallyColumns [] 0 gstData.
Proof.
  unfold exactPass, forEach. rewrite (exactFrom_forEach _ _ []); [done|].
  intros j t _. simpl. split; [by intros H%not_elem_of_empty | by intros H%elem_of_nil].
Qed.

Lemma exactMatches_closed :
  exactMatches (reconcileData gstData tallyData gstColumns tallyColumns)
    = exactFrom tallyData gstColumns tallyColumns [] 0 gstData.
Proof.
  destruct (result_fields gstData tallyData gstColumns tallyColumns) as (-> & _).
  by rewrite finalState_exact, exactPass_closed.
Qed.

Lemma pairs_app l1 l2 : pairs (l1 ++ l2) = pairs l1 ++ pairs l2.
Proof. apply map_app. Qed.

Lemma pairs_bucket i g k j :
  (i, j) ∈ pairs (map (fun t => mkMatch i g t.1 t.2 "exact" [])
                      (bucketFrom tallyColumns k 0 tallyData)) <->
  exists t, tallyData !! j = Some t /\ keyT t = k.
Proof.
  unfold pairs. rewrite map_map. simpl. rewrite list_elem_of_fmap. split.
  - intros (p & Heq & Hp). inversion Heq; subst. by apply bucket_entry.
  - intros (t & Ht & Hk). exists (j, withIndex t j). split; [done|].
    apply elem_of_bucketFrom. exists t. rewrite Nat.sub_0_r.
    split_and!; [done | lia | done | done].
Qed.

Lemma pairs_bucket_fst i g k p :
  p ∈ pairs (map (fun t => mkMatch i g t.1 t.2 "exact" [])
                 (bucketFrom tallyColumns k 0 tallyData)) -> p.1 = i.
Proof.
  unfold pairs. rewrite map_map. intros (q & -> & _)%list_elem_of_fmap. done.
Qed.

Lemma pairs_exactFrom l : forall seen i0 i j,
  (i, j) ∈ pairs (exactFrom tallyData gstColumns tallyColumns seen i0 l) <->
  exists g t,
    i0 <= i /\ l !! (i - i0) = Some g /\ tallyData !! j = Some t /\
    keyG g = keyT t /\ (keyG g ∉ seen) /\
    (forall i' g', i0 <= i' -> i' < i -> l !! (i' - i0) = Some g' -> keyG g' <> keyG g).
Proof.
  induction l as [|g0 l IH]; intros seen i0 i j; simpl.
  - split; [by intros H%elem_of_nil | by intros (g & t & _ & H & _)].
  - rewrite pairs_app, elem_of_app, IH. split.
    + intros [HA | (g & t & Hi & Hl & Ht & Hk & Hseen & Hfirst)].
      * destruct (decide (createKey g0 gstColumns ∈ seen)) as [|Hnin];
          [by apply elem_of_nil in HA|].
        pose proof (pairs_bucket_fst _ _ _ _ HA) as Hi. simpl in Hi. subst i.
        apply pairs_bucket in HA as (t & Ht & Hk).
        exists g0, t. rewrite Nat.sub_diag. split_and!; try done. intros; lia.
      * exists g, t. apply not_elem_of_cons in Hseen as [Hne Hseen].
        replace (i - i0) with (Datatypes.S (i - Datatypes.S i0)) by lia.
        split_and!; try done; [lia|].
        intros i' g' Hi' Hlt Hl'. destruct (decide (i' = i0)) as [->|Hne'].
        -- rewrite Nat.sub_diag in Hl'. simpl in Hl'. inversion Hl'; subst g'. congruence.
        -- apply (Hfirst i' g'); [lia | lia |].
           replace (i' - i0) with (Datatypes.S (i' - Datatypes.S i0)) in Hl' by lia. done.
    + intros (g & t & Hi & Hl & Ht & Hk & Hseen & Hfirst).
      destruct (decide (i = i0)) as [->|Hne].
      * left. rewrite Nat.sub_diag in Hl. simpl in Hl. inversion Hl; subst g0.
        rewrite decide_False by done. apply pairs_bucket. by exists t.
      * right. exists g, t.
        replace (i - i0) with (Datatypes.S (i - Datatypes.S i0)) in Hl by lia.
        split_and!; try done; [lia | |].
        -- apply not_elem_of_cons. split; [|done].
           intros Heq. apply (Hfirst i0 g0); [lia | lia | by rewrite Nat.sub_diag | done].
        -- intros i' g' Hi' Hlt Hl'. apply (Hfirst i' g'); [lia | lia |].
           replace (i' - i0) with (Datatypes.S (i' - Datatypes.S i0)) by lia. done.
Qed.
End ExactPass.

(** C1 (as amended). No Tally row is in two exact matches, and the GST row [i]
    is paired with the Tally row [j] exactly when their keys are equal and no
    earlier GST row has that key: the first GST row of a key takes every Tally
    row of the key. *)
Theorem exact_pairing (gstData tallyData : list record)
    (gstColumns tallyColumns : list string) :
  let r := reconcileData gstData tallyData gstColumns tallyColumns in
  NoDup (map tallyIndex (exactMatches r)) /\
  forall i j,
    (i, j) ∈ pairs (exactMatches r) <->
    exists g t,
      gstData !! i = Some g /\ tallyData !! j = Some t /\
      createKey g gstColumns = createKey t tallyColumns /\
      (forall i' g', i' < i -> gstData !! i' = Some g' ->
                     createKey g' gstColumns <> createKey g gstColumns).
Proof.
  intros r. split.
  - assert (NoDup (map tallyIndex (exactMatches r ++ Reconciliation.partialMatches r)
                     ++ unmatched (tallyMismatches r))) as H.
    { unfold r. rewrite tally_partition. apply NoDup_seq. }
    rewrite map_app in H.
    apply NoDup_app in H as (H & _). by apply NoDup_app in H as (H & _).
  - intros i j. unfold r. rewrite exactMatches_closed, pairs_exactFrom. split.
    + intros (g & t & _ & Hl & Ht & Hk & _ & Hfirst). rewrite Nat.sub_0_r in Hl.
      exists g, t. split_and!; try done.
      intros i' g' Hlt Hl'. apply (Hfirst i' g'); [lia | done | by rewrite Nat.sub_0_r].
    + intros (g & t & Hl & Ht & Hk & Hfirst). exists g, t. rewrite Nat.sub_0_r.
      split_and!; try done; [lia | by intros H%elem_of_nil |].
      intros i' g' _ Hlt Hl'. rewrite Nat.sub_0_r in Hl'. by apply (Hfirst i' g').
Qed.

(** C1, the claim as stated, fails: of two GST rows and two Tally rows sharing
    one key, the first GST row is paired with both Tally rows and the second
    GST row is reported unmatched. *)
Lemma scenario_E_leaves_a_gst_row :
  let r := reconcileData [gstRowOf "INV1"; gstRowOf "INV1"]
             [tallyRowOf "INV1"; tallyRowOf "INV1"] ["Invoice No"] ["Inv"] in
  pairs (exactMatches r) = [(0, 0); (0, 1)] /\
  unmatched (gstMismatches r) = [1] /\
  unmatched (tallyMismatches r) = [].
Proof. by vm_compute. Qed.

(** ** Facts about the partial matcher of the route *)

Section PartialMatcher.
Import Server Budget.
Context (gstColumnNames tallyColumnNames : list string).

Local Abbreviation count := (countOf gstColumnNames tallyColumnNames).
Local Abbreviation cand := (candidate gstColumnNames tallyColumnNames).
Local Abbreviation scan := (scanStep gstColumnNames tallyColumnNames).

Lemma compareRows_count g t :
  length (compareRows gstColumnNames tallyColumnNames g t).2 = count g t.
Proof.
  unfold countOf, compareRows.
  apply (forEach_inv _ (fun _ acc => length acc.2 = acc.1)); [done|].
  intros j c acc _ Hacc. unfold compareStep.
  destruct (String.eqb _ _); simpl; [done|].
  rewrite length_app. simpl. lia.
Qed.

Lemma scanStep_scanned matched g seen b t :
  scanned gstColumnNames tallyColumnNames matched g seen b ->
  scanned gstColumnNames tallyColumnNames matched g (seen ++ [t]) (scan matched g b t).
Proof.
  intros Hb. unfold scanStep.
  destruct (decide (rowId t ∈ matched)) as [Hin | Hnin].
  { (* a consumed row is no candidate *)
    unfold scanned in *. destruct (bestMatch b) as [best|].
    - destruct Hb as (before & after & -> & Hc & Hcmp & Hbef & Haft).
      exists before, (after ++ [t]). rewrite <- app_assoc. split_and!; try done.
      intros t' [Ht' | Ht']%elem_of_app Hc'; [by apply Haft|].
      apply list_elem_of_singleton in Ht'. subst t'. by destruct Hc'.
    - destruct Hb as [H999 Hnone]. split; [done|].
      intros t' [Ht' | Ht']%elem_of_app; [by apply Hnone|].
      apply list_elem_of_singleton in Ht'. subst t'. intros [Hc' _]. done. }
  destruct (compareRows gstColumnNames tallyColumnNames g t) as [c cols] eqn:Hcmp.
  assert (count g t = c) as Hc by (unfold countOf; by rewrite Hcmp).
  destruct (Nat.leb 1 c && Nat.leb c 3 && Nat.ltb c (bestDiscrepancies b)) eqn:Htest.
  - (* the row becomes the held best *)
    apply andb_true_iff in Htest as [[H1 H3]%andb_true_iff Hlt].
    apply Nat.leb_le in H1, H3. apply Nat.ltb_lt in Hlt.
    unfold scanned in *. simpl.
    exists seen, []. split_and!; try done.
    + split; [done | lia].
    + intros t' Ht' Hc'. destruct (bestMatch b) as [best|].
      * destruct Hb as (before & after & -> & Hcb & Hcmpb & Hbef & Haft).
        apply elem_of_app in Ht' as [Ht' | Ht'].
        -- specialize (Hbef t' Ht' Hc'). lia.
        -- apply elem_of_cons in Ht' as [-> | Ht'].
           ++ unfold countOf. rewrite Hcmpb. simpl. lia.
           ++ specialize (Haft t' Ht' Hc'). lia.
      * destruct Hb as [_ Hnone]. by destruct (Hnone t' Ht').
    + intros t' Ht'. by apply elem_of_nil in Ht'.
  - (* the held best stays *)
    unfold scanned in *. destruct (bestMatch b) as [best|].
    + destruct Hb as (before & after & -> & Hcb & Hcmpb & Hbef & Haft).
      exists before, (after ++ [t]). rewrite <- app_assoc. split_and!; try done.
      intros t' [Ht' | Ht']%elem_of_app Hc'; [by apply Haft|].
      apply list_elem_of_singleton in Ht'. subst t'.
      destruct Hc' as [_ [H1 H3]]. rewrite Hc in H1, H3.
      apply Nat.leb_le in H1, H3. rewrite H1, H3 in Htest. simpl in Htest.
      apply Nat.ltb_ge in Htest. lia.
    + destruct Hb as [H999 Hnone]. split; [done|].
      intros t' [Ht' | Ht']%elem_of_app; [by apply Hnone|].
      apply list_elem_of_singleton in Ht'. subst t'. intros [_ [H1 H3]].
      rewrite Hc in H1, H3. pose proof H3 as H3'.
      apply Nat.leb_le in H1, H3. rewrite H1, H3 in Htest. simpl in Htest.
      apply Nat.ltb_ge in Htest. lia.
Qed.

Lemma scan_fold matched g rest : forall seen b,
  scanned gstColumnNames tallyColumnNames matched g seen b ->
  scanned gstColumnNames tallyColumnNames matched g (seen ++ rest)
          (fold_left (scan matched g) rest b).
Proof.
  induction rest as [|t rest IH]; intros seen b Hb; simpl.
  - by rewrite app_nil_r.
  - replace (seen ++ t :: rest) with ((seen ++ [t]) ++ rest) by (by rewrite <- app_assoc).
    apply IH. by apply scanStep_scanned.
Qed.

Lemma findBest_scanned matched g tallyData :
  scanned gstColumnNames tallyColumnNames matched g tallyData
          (findBest gstColumnNames tallyColumnNames matched g tallyData).
Proof.
  unfold findBest. apply (scan_fold matched g tallyData [] initBest).
  split; [done|]. intros t Ht. by apply elem_of_nil in Ht.
Qed.
End PartialMatcher.

Section Route.
Import Server Budget.
Context (gstColumnNames tallyColumnNames : list string) (tallyData : list Row).

Local Abbreviation count := (countOf gstColumnNames tallyColumnNames).
Local Abbreviation cand := (candidate gstColumnNames tallyColumnNames).
Local Abbreviation step := (matchStep gstColumnNames tallyColumnNames tallyData).

(** What one turn of the loop over the GST rows does with the result of the
    scan. *)
Lemma matchStep_found m g best :
  rowId g ∉ matchedGstIds m ->
  bestMatch (findBest gstColumnNames tallyColumnNames (matchedTallyIds m) g tallyData)
    = Some best ->
  step m g =
    mkMatcher
      (partialMatches m ++
         [makePartialMatch g best (count g best)
            (compareRows gstColumnNames tallyColumnNames g best).2])
      ({[rowId g]} ∪ matchedGstIds m)
      ({[rowId best]} ∪ matchedTallyIds m).
Proof.
  intros Hg Hbest. unfold matchStep. rewrite decide_False by done.
  pose proof (findBest_scanned gstColumnNames tallyColumnNames
                (matchedTallyIds m) g tallyData) as Hs.
  unfold scanned in Hs. rewrite Hbest in *.
  destruct Hs as (before & after & _ & [_ [_ H3]] & Hcmp & _).
  unfold countOf in *. rewrite Hcmp in *. simpl in *.
  apply Nat.leb_le in H3. by rewrite H3.
Qed.

Lemma matchStep_none m g :
  bestMatch (findBest gstColumnNames tallyColumnNames (matchedTallyIds m) g tallyData)
    = None ->
  step m g = m.
Proof.
  intros Hbest. unfold matchStep. case_decide; [done|]. by rewrite Hbest.
Qed.

Lemma makePartialMatch_fields g t n cols :
  let pm := makePartialMatch g t n cols in
  gst pm = g /\ tally pm = t /\ discrepancies pm = n /\ discrepancyColumns pm = cols /\
  maxDiscrepancy pm = (severity cols).2 /\
  isMinor pm = negb (severity cols).1 && numLt (Finite 0) (severity cols).2.
Proof. simpl. unfold makePartialMatch. by destruct (severity cols). Qed.

Lemma matchStep_wellBuilt m g :
  Forall (wellBuilt gstColumnNames tallyColumnNames) (partialMatches m) -> Forall (wellBuilt gstColumnNames tallyColumnNames) (partialMatches (step m g)).
Proof.
  intros Hm. destruct (decide (rowId g ∈ matchedGstIds m)) as [Hin | Hnin].
  { unfold matchStep. by rewrite decide_True. }
  destruct (bestMatch (findBest gstColumnNames tallyColumnNames
                         (matchedTallyIds m) g tallyData)) as [best|] eqn:Hbest.
  - rewrite (matchStep_found m g best Hnin Hbest). simpl.
    apply Forall_app. split; [done|]. constructor; [|constructor].
    pose proof (findBest_scanned gstColumnNames tallyColumnNames
                  (matchedTallyIds m) g tallyData) as Hs.
    unfold scanned in Hs. rewrite Hbest in Hs.
    destruct Hs as (before & after & _ & [_ Hb] & _).
    destruct (makePartialMatch_fields g best (count g best)
                (compareRows gstColumnNames tallyColumnNames g best).2)
      as (Hf1 & Hf2 & Hf3 & Hf4 & _).
    unfold wellBuilt. rewrite Hf1, Hf2, Hf3, Hf4.
    split_and!; [apply Hb | apply Hb | | done].
    unfold countOf. by destruct (compareRows gstColumnNames tallyColumnNames g best).
  - by rewrite matchStep_none.
Qed.

Lemma partialMatcher_wellBuilt gstData exactGstIds exactTallyIds :
  Forall (wellBuilt gstColumnNames tallyColumnNames)
    (partialMatches (partialMatcher gstColumnNames tallyColumnNames gstData tallyData
                       exactGstIds exactTallyIds)).
Proof.
  unfold partialMatcher.
  assert (forall l m, Forall (wellBuilt gstColumnNames tallyColumnNames) (partialMatches m) ->
                      Forall (wellBuilt gstColumnNames tallyColumnNames) (partialMatches (fold_left step l m))) as H.
  { induction l as [|g l IH]; intros m Hm; simpl; [done|].
    apply IH. by apply matchStep_wellBuilt. }
  apply H. constructor.
Qed.
End Route.

Import Server Budget.

(** C4 (as amended). In the route every partial match has between 1 and 3
    discrepancies: its count is the number of mismatched mapped columns of
    its two rows and the number of columns it lists. In [reconcileData] a
    partial match lists the discrepancies of its two rows, at least one and
    fewer than there are mapped GST columns. *)
Theorem partial_budget :
  (forall gstColumnNames tallyColumnNames gstData tallyData exactGstIds exactTallyIds pm,
     pm ∈ partialMatches (partialMatcher gstColumnNames tallyColumnNames
                            gstData tallyData exactGstIds exactTallyIds) ->
     1 <= discrepancies pm <= 3 /\
     countOf gstColumnNames tallyColumnNames (gst pm) (tally pm) = discrepancies pm /\
     length (discrepancyColumns pm) = discrepancies pm) /\
  (forall gstData tallyData gstColumns tallyColumns m,
     m ∈ Reconciliation.partialMatches
           (reconcileData gstData tallyData gstColumns tallyColumns) ->
     1 <= length (Reconciliation.discrepancies m) < length gstColumns /\
     Reconciliation.discrepancies m
       = findDiscrepancies (gstRecord m) (tallyRecord m) gstColumns tallyColumns).
Proof.
  split.
  - intros gcn tcn gstData tallyData eg et pm Hpm.
    pose proof (partialMatcher_wellBuilt gcn tcn tallyData gstData eg et) as H.
    rewrite Forall_forall in H. destruct (H pm Hpm) as (Hb & Hcmp & _).
    pose proof (compareRows_count gcn tcn (gst pm) (tally pm)) as Hlen.
    unfold countOf in *. rewrite Hcmp in *. done.
  - intros gstData tallyData gstColumns tallyColumns m Hm.
    destruct (result_fields gstData tallyData gstColumns tallyColumns) as (_ & Hp & _).
    rewrite Hp in Hm.
    pose proof (inv_budget _ _ _ _ _
                  (finalState_Inv gstData tallyData gstColumns tallyColumns)) as H.
    pose proof (inv_disc _ _ _ _ _
                  (finalState_Inv gstData tallyData gstColumns tallyColumns)) as Hd.
    rewrite Forall_forall in H, Hd. specialize (H m Hm). split; [lia | by apply Hd].
Qed.

(** The budget on the sample rows of scenario B. *)
Lemma partial_budget_witness :
  1 <= discrepancies minorMatch <= 3 /\
  countOf sampleColumns sampleColumns (gst minorMatch) (tally minorMatch)
    = discrepancies minorMatch /\
  length (discrepancyColumns minorMatch) = discrepancies minorMatch.
Proof.
  apply (proj1 partial_budget sampleColumns sampleColumns
           [sampleRow 1 "INV1" "100"] [sampleRow 7 "INV1" "100.50"] ∅ ∅ minorMatch).
  vm_compute. left.
Defined.

(** C4, the claim as stated, fails for [reconcileData]: with five mapped
    columns a pair that differs in four of them is a partial match. *)
Lemma partial_match_with_four_discrepancies :
  let r := reconcileData [wideRow "k" "a"] [wideRow "k" "b"] wideColumns wideColumns in
  map (fun m => length (Reconciliation.discrepancies m)) (Reconciliation.partialMatches r)
    = [4].
Proof. by vm_compute. Qed.




(** ** The severity classification *)

Section Severity.

Lemma isDigit_not_space c : isDigit c = true -> isSpace c = false.
Proof. destruct c as [[] [] [] [] [] [] [] []]; by vm_compute. Qed.











(** *** The order of the Numbers *)






Lemma numMax_NaN_l b : numMax NaN b = NaN.
Proof. done. Qed.











(** A text without a digit parses as not-a-number, which [|| 0] replaces
    by 0. *)
Lemma filter_nonDigit s :
  allChars nonDigit s = true -> allChars dotOrDash (filterChars keepNumeric s) = true.
Proof.
  induction s as [|c s IH]; [done|]. cbn [allChars filterChars].
  intros [Hc Hs]%andb_true_iff. unfold keepNumeric, nonDigit in *.
  apply negb_true_iff in Hc. rewrite Hc. cbn [orb].
  destruct (Ascii.eqb c "." || Ascii.eqb c "-") eqn:E; [|by apply IH].
  cbn [allChars]. unfold dotOrDash at 1. rewrite E. by apply IH.
Qed.

Lemma dotOrDash_cases c : dotOrDash c = true -> c = "."%char \/ c = "-"%char.
Proof.
  unfold dotOrDash. intros [H | H]%orb_true_iff; apply Ascii.eqb_eq in H; auto.
Qed.

Lemma takeDigits_dotOrDash g :
  allChars dotOrDash g = true -> takeDigits g = ([], g).
Proof.
  destruct g as [|c g]; [done|]. cbn [allChars].
  intros [Hc _]%andb_true_iff. by destruct (dotOrDash_cases c Hc) as [-> | ->].
Qed.

Lemma parseUnsigned_dotOrDash neg g :
  allChars dotOrDash g = true -> parseUnsigned neg g = NaN.
Proof.
  intros Hg. unfold parseUnsigned, readDecimal.
  rewrite (takeDigits_dotOrDash g Hg).
  destruct g as [|c g]; [done|]. cbn [allChars] in Hg.
  apply andb_true_iff in Hg as [Hc Hg].
  destruct (dotOrDash_cases c Hc) as [-> | ->]; [|done].
  by rewrite (takeDigits_dotOrDash g Hg).
Qed.

(** A text without any digit counts as the amount 0 in the monetary
    comparison, whatever dots, dashes and other characters it holds. *)
Lemma moneyValue_non_numeric s : allChars nonDigit s = true -> moneyValue s = 0%Q.
Proof.
  intros Hs. unfold moneyValue.
  pose proof (filter_nonDigit s Hs) as Hf.
  destruct (filterChars keepNumeric s) as [|c g] eqn:E; [done|].
  cbn [allChars] in Hf. apply andb_true_iff in Hf as [Hc Hg].
  destruct (dotOrDash_cases c Hc) as [-> | ->].
  - change (parseFloat (String "." g)) with (parseUnsigned false (String "." g)).
    rewrite parseUnsigned_dotOrDash; [done|]. cbn [allChars]. by rewrite Hg.
  - change (parseFloat (String "-" g)) with (parseUnsigned true g).
    by rewrite parseUnsigned_dotOrDash.
Qed.
Lemma allChars_app (p : ascii -> bool) (a b : string) :
  allChars p (a +:+ b) = allChars p a && allChars p b.
Proof.
  induction a as [|c a IH]; [done|].
  change (String c a +:+ b) with (String c (a +:+ b)). cbn [allChars].
  by rewrite IH, andb_assoc.
Qed.

(** *** What an amount is *)




Lemma allChars_text (p : ascii -> bool) cs :
  Forall (fun c => p c = true) cs -> allChars p (text cs) = true.
Proof.
  induction 1 as [|c cs Hc _ IH]; [done|].
  change (text (c :: cs)) with (String c (text cs)). cbn [allChars]. by rewrite Hc, IH.
Qed.

Lemma takeDigits_text ds rest :
  Forall (fun c => isDigit c = true) ds -> takeDigits rest = ([], rest) ->
  takeDigits (text ds +:+ rest) = (ds, rest).
Proof.
  intros Hds Hrest. induction Hds as [|c ds Hc _ IH]; [done|].
  change (text (c :: ds) +:+ rest) with (String c (text ds +:+ rest)).
  cbn [takeDigits]. by rewrite Hc, IH.
Qed.

Lemma text_append_nil cs : text cs +:+ "" = text cs.
Proof.
  induction cs as [|c cs IH]; [done|].
  change (text (c :: cs) +:+ "") with (String c (text cs +:+ "")). by rewrite IH.
Qed.





End Severity.


(** ** Key texts and the key separator *)

Section Keys.
Import Reconciliation Closed.

Lemma includes_bar_cons c s :
  includes (String c s) "|" = Ascii.eqb "|" c || includes s "|".
Proof.
  change (includes (String c s) "|")
    with (startsWith (String c s) "|" || includes s "|").
  f_equal. cbn [startsWith]. by destruct s; rewrite andb_true_r.
Qed.

Lemma append_bar_inj a a' r r' :
  includes a "|" = false -> includes a' "|" = false ->
  a +:+ "|" +:+ r = a' +:+ "|" +:+ r' -> a = a' /\ r = r'.
Proof.
  revert a'. induction a as [|c a IH]; intros [|c' a'] Ha Ha' Heq.
  - by inversion Heq.
  - inversion Heq; subst c'. rewrite includes_bar_cons in Ha'. done.
  - inversion Heq; subst c. rewrite includes_bar_cons in Ha. done.
  - inversion Heq; subst c'. rewrite includes_bar_cons in Ha, Ha'.
    apply orb_false_iff in Ha as [_ Ha]. apply orb_false_iff in Ha' as [_ Ha'].
    destruct (IH a' Ha Ha' H1) as [-> ->]. done.
Qed.

Lemma join_inj l1 : forall l2,
  length l1 = length l2 ->
  Forall (fun s => includes s "|" = false) l1 ->
  Forall (fun s => includes s "|" = false) l2 ->
  join "|" l1 = join "|" l2 -> l1 = l2.
Proof.
  induction l1 as [|a l1 IH]; intros [|b l2] Hlen H1 H2 Heq; try done.
  apply Forall_cons in H1 as [Ha H1]. apply Forall_cons in H2 as [Hb H2].
  destruct l1 as [|a2 l1], l2 as [|b2 l2]; try done.
  - simpl in Heq. by subst.
  - change (a +:+ "|" +:+ join "|" (a2 :: l1) = b +:+ "|" +:+ join "|" (b2 :: l2)) in Heq.
    destruct (append_bar_inj _ _ _ _ Ha Hb Heq) as [-> Hj].
    f_equal. apply IH; [simpl in *; lia | done | done | done].
Qed.
End Keys.
(** ** The in-memory matcher against the relational one *)

Import Server Features.

Lemma lastChar_bracket (s : string) : lastChar (trimEnd (s +:+ "]")) = Some "]"%char.
Proof.
  induction s as [|c s IH]; [done|].
  change (String c s +:+ "]") with (String c (s +:+ "]")). cbn [trimEnd].
  destruct (trimEnd (s +:+ "]")) as [|c' r] eqn:Hr; [done|].
  by destruct r.
Qed.

(** PostgreSQL reads no text of [JSON.stringify] as an array. *)
Lemma jsonStringify_rejected (cols : list string) :
  arrayLiteralShape (jsonStringify cols) = false.
Proof.
  unfold arrayLiteralShape, jsonStringify.
  change ("[" +:+ join "," (map jsonString cols) +:+ "]")
    with (String "[" (join "," (map jsonString cols)) +:+ "]").
  by rewrite lastChar_bracket.
Qed.

Lemma resolveColumn_same (name : string) (columns : list string) :
  resolveColumn name columns columns = None.
Proof. unfold resolveColumn. by destruct (bool_decide (name ∈ columns)). Qed.

Lemma exactMatchesQuery_rejected (ms : list Mapping) (gstTable tallyTable : list (list string))
    (gstCols tallyCols : list string) :
  exactMatchesQuery ms gstTable tallyTable gstCols tallyCols = None.
Proof.
  unfold exactMatchesQuery, selectListResolved.
  destruct (map featureName (queriedFeatures gstCols tallyCols)) as [|name names]; [done|].
  cbn [length Nat.eqb negb andb forallb]. rewrite resolveColumn_same.
  rewrite bool_decide_eq_false_2; [done|]. by intros [? ?].
Qed.

(** C7. The relational formulation of the route [/api/reconcile] yields no
    exact-match set to compare: for every input [storeMappedData] throws,
    for want of a valid mapping or, the two tables written, on the insert of
    the column lists; the query of the exact matches is rejected on every
    pair of tables [storeMappedData] creates; so the count the route reports
    is the one of [reconcileData]. *)
Theorem relational_exact_matches_are_never_computed (gstData tallyData : list record)
    (gstColumns tallyColumns : list string) :
  let ms := validMappings gstColumns tallyColumns in
  (storeMappedData gstData tallyData gstColumns tallyColumns = NoValidMappings \/
   storeMappedData gstData tallyData gstColumns tallyColumns
     = MappingsRejected (map (gstStoredRow ms) gstData) (map (tallyStoredRow ms) tallyData)) /\
  (forall ms' gstTable tallyTable gstCols tallyCols,
     exactMatchesQuery ms' gstTable tallyTable gstCols tallyCols = None) /\
  reportedExactMatches gstData tallyData gstColumns tallyColumns
    = length (exactMatches (reconcileData gstData tallyData gstColumns tallyColumns)).
Proof.
  intros ms. split_and!.
  - unfold storeMappedData. fold ms. destruct ms; [by left | right].
    by rewrite jsonStringify_rejected.
  - apply exactMatchesQuery_rejected.
  - unfold reportedExactMatches.
    destruct (storeMappedData _ _ _ _); [done | done |].
    by rewrite exactMatchesQuery_rejected.
Qed.

(** The texts sent for the column lists, and the tables left behind. *)
Lemma mapping_texts_are_json :
  jsonStringify ["Invoice No"; "GSTIN"]
    = String "[" (String doubleQuote ("Invoice No" +:+ String doubleQuote
        (String "," (String doubleQuote ("GSTIN" +:+ String doubleQuote "]"))))) /\
  storeMappedData [gstRowOf "INV1"] [tallyRowOf "INV1"] ["Invoice No"] ["Inv"]
    = MappingsRejected [["INV1"]] [["INV1"]] /\
  storeMappedData [gstRowOf "INV1"] [tallyRowOf "INV1"] [""] ["Inv"] = NoValidMappings.
Proof. by vm_compute. Qed.

(** The join of the tables [storeMappedData] writes is not the exact pass of
    [reconcileData] either: it pairs every GST row with every Tally row of
    equal stored texts, compares letter case, and takes an empty cell, "-"
    and "0" for one text. *)
Lemma join_of_stored_tables_differs :
  let joined gstData tallyData :=
    match storeMappedData gstData tallyData ["Invoice No"] ["Inv"] with
    | Stored gstTable tallyTable | MappingsRejected gstTable tallyTable =>
        innerJoin gstTable tallyTable
    | NoValidMappings => []
    end in
  let matched gstData tallyData :=
    pairs (exactMatches (reconcileData gstData tallyData ["Invoice No"] ["Inv"])) in
  joined [gstRowOf "inv1"; gstRowOf "inv1"] [tallyRowOf "inv1"] = [(0, 0); (1, 0)] /\
  matched [gstRowOf "inv1"; gstRowOf "inv1"] [tallyRowOf "inv1"] = [(0, 0)] /\
  joined [gstRowOf "INV1"] [tallyRowOf "inv1"] = [] /\
  matched [gstRowOf "INV1"] [tallyRowOf "inv1"] = [(0, 0)] /\
  joined [gstRowOf "-"] [tallyRowOf "0"] = [(0, 0)] /\
  matched [gstRowOf "-"] [tallyRowOf "0"] = [].
Proof. by vm_compute. Qed.

Import Reconciliation Closed.

(** ** The scenarios of the specification *)

(** Scenario A: one exact match, nothing left over. *)
Lemma scenario_A_exact_match :
  let gstRow : record := {[ "Invoice No" := VStr "INV1"; "Amount" := VStr "100" ]} in
  let tallyRow : record := {[ "Inv" := VStr "INV1"; "Amt" := VStr "100" ]} in
  let r := reconcileData [gstRow] [tallyRow] ["Invoice No"; "Amount"] ["Inv"; "Amt"] in
  pairs (exactMatches r) = [(0, 0)] /\ Reconciliation.partialMatches r = [] /\
  gstMismatches r = [] /\ tallyMismatches r = [].
Proof. by vm_compute. Qed.

(** Scenario D: without Tally rows every GST row is reported unmatched. *)
Lemma scenario_D_no_tally_rows (gstData : list record) (gstColumns tallyColumns : list string) :
  let r := reconcileData gstData [] gstColumns tallyColumns in
  exactMatches r = [] /\ Reconciliation.partialMatches r = [] /\ tallyMismatches r = [] /\
  unmatched (gstMismatches r) = seq 0 (length gstData).
Proof.
  intros r.
  pose proof (Permutation_length (tally_partition gstData [] gstColumns tallyColumns)) as HT.
  rewrite length_app, length_map, length_app, unmatched_length in HT.
  destruct (result_fields gstData [] gstColumns tallyColumns) as (_ & _ & _ & HG).
  rewrite matched_entries in HG. change (reconcileData gstData [] gstColumns tallyColumns)
    with r in HT, HG.
  destruct (exactMatches r) as [|e es]; [|simpl in HT; lia].
  destruct (Reconciliation.partialMatches r) as [|p ps]; [|simpl in HT; lia].
  destruct (tallyMismatches r) as [|m ms]; [|simpl in HT; lia].
  split_and!; [done | done | done |].
  rewrite HG. simpl. clear HG.
  induction (seq 0 (length gstData)) as [|x l IH]; [done|].
  rewrite filter_cons_True by apply not_elem_of_nil. by f_equal.
Qed.

(** ** Normalization *)

Section Trim.

Lemma trimEnd_idem u : trimEnd (trimEnd u) = trimEnd u.
Proof.
  induction u as [|c r IH]; [done|].
  cbn [trimEnd]. destruct (trimEnd r) as [|c' r'] eqn:E.
  - destruct (isSpace c) eqn:Ec; [done|]. cbn [trimEnd]. by rewrite Ec.
  - cbn [trimEnd]. cbn [trimEnd] in IH. by rewrite IH.
Qed.

Lemma trimStart_head s :
  trimStart s = "" \/ exists c r, trimStart s = String c r /\ isSpace c = false.
Proof.
  induction s as [|c r IH]; [by left|].
  cbn [trimStart]. destruct (isSpace c) eqn:Ec; [done|].
  right. by exists c, r.
Qed.

Lemma trimEnd_head c r :
  isSpace c = false -> exists r', trimEnd (String c r) = String c r'.
Proof.
  intros Ec. cbn [trimEnd]. destruct (trimEnd r) as [|c' r'].
  - rewrite Ec. by exists "".
  - by exists (String c' r').
Qed.

Lemma trim_idem s : trim (trim s) = trim s.
Proof.
  unfold trim. destruct (trimStart_head s) as [-> | (c & r & -> & Ec)]; [done|].
  destruct (trimEnd_head c r Ec) as [r' Hr']. rewrite Hr'.
  cbn [trimStart]. rewrite Ec, <- Hr'. apply trimEnd_idem.
Qed.
End Trim.

Lemma normalizeValue_cases x :
  FileParser.normalizeValue x = VNum 0 \/
  (FileParser.normalizeValue x = VStr (trim (toString x)) /\ trim (toString x) <> "-").
Proof.
  unfold FileParser.normalizeValue.
  destruct x as [| |b|z|s|o]; try (by left).
  - destruct (String.eqb_spec (trim (toString (VBool b))) "-"); [by left | by right].
  - destruct (String.eqb_spec (trim (toString (VNum z))) "-"); [by left | by right].
  - destruct s as [|c s]; [by left|].
    destruct (String.eqb_spec (trim (toString (VStr (String c s)))) "-");
      [by left | by right].
  - destruct (String.eqb_spec (trim (toString (VObj o))) "-"); [by left | by right].
Qed.

Lemma normalizeValue_text s :
  s <> "" -> s <> "-" -> trim s = s -> FileParser.normalizeValue (VStr s) = VStr s.
Proof.
  intros Hne Hdash Htrim. unfold FileParser.normalizeValue.
  destruct s as [|c s]; [done|]. simpl toString. rewrite Htrim.
  apply String.eqb_neq in Hdash. by rewrite Hdash.
Qed.

Lemma normalizers_agree x : Server.normalizeValueForDB x = FileParser.normalizeValue x.
Proof. reflexivity. Qed.

(** C8 (as amended). Normalization is idempotent on every value whose
    normalized form is a non-empty text; this holds for [normalizeValue] and
    for [normalizeValueForDB]. *)
Theorem normalize_idempotent_on_text (x : JsVal) (s : string) :
  FileParser.normalizeValue x = VStr s -> s <> "" ->
  FileParser.normalizeValue (FileParser.normalizeValue x) = FileParser.normalizeValue x /\
  Server.normalizeValueForDB (Server.normalizeValueForDB x) = Server.normalizeValueForDB x.
Proof.
  intros Hx Hne.
  assert (FileParser.normalizeValue (FileParser.normalizeValue x)
          = FileParser.normalizeValue x) as H; [|split; exact H].
  destruct (normalizeValue_cases x) as [H0 | [Hs Hdash]]; [congruence|].
  rewrite Hs in Hx. inversion Hx as [Heq]. rewrite Hs, Heq.
  apply normalizeValue_text; [done | by rewrite <- Heq | by rewrite <- Heq, trim_idem].
Qed.

Lemma normalize_idempotent_on_text_witness :
  FileParser.normalizeValue (VStr "  25-26/0001 ") = VStr "25-26/0001" /\
  FileParser.normalizeValue (FileParser.normalizeValue (VStr "  25-26/0001 "))
    = FileParser.normalizeValue (VStr "  25-26/0001 ").
Proof.
  assert (FileParser.normalizeValue (VStr "  25-26/0001 ") = VStr "25-26/0001") as H
    by reflexivity.
  split; [exact H|].
  apply (normalize_idempotent_on_text (VStr "  25-26/0001 ") "25-26/0001" H).
  intros E. discriminate E.
Defined.

(** C8, the claim as stated, fails: null is normalized to the number 0 and
    the number 0 to the text "0"; a blank text is normalized to the empty
    text and the empty text to the number 0. *)
Lemma normalize_twice_differs :
  FileParser.normalizeValue VNull = VNum 0 /\
  FileParser.normalizeValue (FileParser.normalizeValue VNull) = VStr "0" /\
  Server.normalizeValueForDB (Server.normalizeValueForDB (VStr "-")) = VStr "0" /\
  FileParser.normalizeValue (VStr "  ") = VStr "" /\
  FileParser.normalizeValue (FileParser.normalizeValue (VStr "  ")) = VNum 0.
Proof. by vm_compute. Qed.

(** ** Falsy cells in keys and discrepancies *)

Lemma cellText_falsy v : truthy v = false -> cellText v = "".
Proof. intros H. unfold cellText, jsOr. by rewrite H. Qed.

Lemma createKey_single r c : createKey r [c] = cellText (get r c).
Proof. reflexivity. Qed.

Lemma findDiscrepancies_app g t gpre : forall tpre gpost tpost,
  length gpre = length tpre ->
  findDiscrepancies g t (gpre ++ gpost) (tpre ++ tpost)
    = findDiscrepancies g t gpre tpre ++ findDiscrepancies g t gpost tpost.
Proof.
  induction gpre as [|gc gpre IH]; intros [|tc tpre] gpost tpost Hlen; try done.
  simpl. rewrite IH by (by inversion Hlen).
  by destruct (String.eqb _ _).
Qed.

Lemma get_missing_or_null (t : record) c :
  t !! c = Some VNull \/ (t !! c = None /\ inherited c = VUndef) ->
  truthy (get t c) = false.
Proof. unfold get. by intros [-> | [-> ->]]. Qed.

Lemma inherited_undefined c :
  inherited c = VUndef <-> c ∉ "__proto__" :: prototypeMethods.
Proof.
  unfold inherited. rewrite not_elem_of_cons.
  destruct (String.eqb_spec c "__proto__") as [-> | Hp]; [split; [done | by intros [? _]]|].
  destruct (String.eqb_spec c "constructor") as [-> | Hc].
  { split; [done|]. intros [_ H]. exfalso. apply H. left. }
  case_bool_decide as Hm; split; try done; tauto.
Qed.

Lemma get_inherited (t : record) c :
  t !! c = None -> inherited c <> VUndef -> truthy (get t c) = true.
Proof.
  unfold get. intros -> H. unfold inherited in *.
  destruct (String.eqb c "__proto__"); [done|].
  destruct (String.eqb c "constructor"); [done|].
  by destruct (bool_decide _).
Qed.

(** C10 (as amended). A falsy cell (null, undefined, the number 0, the empty
    text, false) reads as the empty text in keys and in discrepancy counting:
    at any mapped column two falsy cells are equal, so the number 0 equals a
    null cell, and a missing cell in a column whose name [Object.prototype]
    has no member of, while the text "0" reads as "0" and differs from every
    falsy cell. A missing cell in a column named as a member of
    [Object.prototype] reads as that member and is not falsy. *)
Theorem falsy_cells_read_empty :
  (truthy VNull = false /\ truthy VUndef = false /\ truthy (VNum 0) = false /\
   truthy (VStr "") = false /\ truthy (VBool false) = false) /\
  (forall (t : record) c,
     t !! c = Some VNull \/ (t !! c = None /\ (c ∉ "__proto__" :: prototypeMethods)) ->
     truthy (get t c) = false) /\
  (forall (t : record) c,
     t !! c = None -> c ∈ "__proto__" :: prototypeMethods -> truthy (get t c) = true) /\
  (forall v, truthy v = false -> cellText v = "") /\
  cellText (VStr "0") = "0" /\
  (forall (g t : record) gc tc gpre tpre gpost tpost,
     length gpre = length tpre ->
     truthy (get g gc) = false -> truthy (get t tc) = false ->
     createKey g [gc] = createKey t [tc] /\
     findDiscrepancies g t (gpre ++ gc :: gpost) (tpre ++ tc :: tpost)
       = findDiscrepancies g t gpre tpre ++ findDiscrepancies g t gpost tpost) /\
  (forall (g t : record) gc tc gpre tpre gpost tpost,
     length gpre = length tpre ->
     (get g gc = VStr "0" /\ truthy (get t tc) = false) \/
     (truthy (get g gc) = false /\ get t tc = VStr "0") ->
     createKey g [gc] <> createKey t [tc] /\
     findDiscrepancies g t (gpre ++ gc :: gpost) (tpre ++ tc :: tpost)
       = findDiscrepancies g t gpre tpre
         ++ mkDiscrepancy gc (get g gc) (get t tc) :: findDiscrepancies g t gpost tpost).
Proof.
  split_and!; try done.
  - intros t c [H | [H Hc]]; apply get_missing_or_null; [by left | right].
    split; [done | by apply inherited_undefined].
  - intros t c Hnone Hc. apply get_inherited; [done|].
    intros H. by apply inherited_undefined in H.
  - apply cellText_falsy.
  - intros g t gc tc gpre tpre gpost tpost Hlen Hg Ht.
    assert (cellText (get g gc) = cellText (get t tc)) as Heq.
    { by rewrite (cellText_falsy _ Hg), (cellText_falsy _ Ht). }
    split; [by rewrite !createKey_single|].
    rewrite findDiscrepancies_app by done. f_equal.
    cbn [findDiscrepancies]. by rewrite Heq, String.eqb_refl.
  - intros g t gc tc gpre tpre gpost tpost Hlen Hcase.
    assert (cellText (get g gc) <> cellText (get t tc)) as Hne.
    { destruct Hcase as [[-> Ht] | [Hg ->]].
      - by rewrite (cellText_falsy _ Ht).
      - by rewrite (cellText_falsy _ Hg). }
    split; [by rewrite !createKey_single|].
    rewrite findDiscrepancies_app by done. f_equal.
    cbn [findDiscrepancies]. apply String.eqb_neq in Hne. by rewrite Hne.
Qed.

(** A GST cell holding the number 0 against a Tally row without the column. *)
Lemma falsy_cells_read_empty_witness :
  createKey {[ "Amount" := VNum 0 ]} ["Amount"] = createKey ∅ ["Amt"] /\
  findDiscrepancies {[ "Amount" := VNum 0 ]} ∅ ([] ++ ["Amount"]) ([] ++ ["Amt"])
    = findDiscrepancies {[ "Amount" := VNum 0 ]} ∅ [] []
      ++ findDiscrepancies {[ "Amount" := VNum 0 ]} ∅ [] [].
Proof.
  destruct falsy_cells_read_empty as (_ & Hmiss & _ & _ & _ & H & _).
  apply (H {[ "Amount" := VNum 0 ]} ∅ "Amount" "Amt" [] [] [] []).
  - reflexivity.
  - reflexivity.
  - apply Hmiss. right. split; [reflexivity|]. apply (bool_decide_unpack _). reflexivity.
Defined.

(** C10, the claim as stated, fails for a column named as a member of
    [Object.prototype]: in the column "constructor" a missing cell reads as
    the function [Object], so the number 0 and the missing cell differ. *)
Lemma missing_constructor_cell_is_not_falsy :
  truthy (get ∅ "constructor") = true /\
  createKey {[ "constructor" := VNum 0 ]} ["constructor"] = "" /\
  createKey ∅ ["constructor"] = "function object() { [native code] }" /\
  findDiscrepancies {[ "constructor" := VNum 0 ]} ∅ ["constructor"] ["constructor"]
    = [mkDiscrepancy "constructor" (VNum 0) (VObj "function Object() { [native code] }")].
Proof. by vm_compute. Qed.

(** ** Dates *)

Lemma isValidDate_numeric y m d yz mz dz :
  parseInt y = Some yz -> parseInt m = Some mz -> parseInt d = Some dz ->
  Dates.isValidDate y m d =
    ((1 <=? mz) && (mz <=? 12) && (1 <=? dz) && (dz <=? 31)
     && (1900 <=? yz) && (yz <=? 2100))%Z.
Proof.
  intros Hy Hm Hd. unfold Dates.isValidDate. rewrite Hy, Hm, Hd. simpl.
  destruct (Z.ltb_spec mz 1), (Z.ltb_spec 12 mz), (Z.ltb_spec dz 1),
    (Z.ltb_spec 31 dz), (Z.ltb_spec yz 1900), (Z.ltb_spec 2100 yz),
    (Z.leb_spec 1 mz), (Z.leb_spec mz 12), (Z.leb_spec 1 dz), (Z.leb_spec dz 31),
    (Z.leb_spec 1900 yz), (Z.leb_spec yz 2100); simpl; try reflexivity; lia.
Qed.

(** A part that does not start with a number passes every range test. *)
Lemma isValidDate_nan_month y m d yz dz :
  parseInt y = Some yz -> parseInt m = None -> parseInt d = Some dz ->
  Dates.isValidDate y m d = ((1 <=? dz) && (dz <=? 31) && (1900 <=? yz) && (yz <=? 2100))%Z.
Proof.
  intros Hy Hm Hd. unfold Dates.isValidDate. rewrite Hy, Hm, Hd. simpl.
  destruct (Z.ltb_spec dz 1), (Z.ltb_spec 31 dz), (Z.ltb_spec yz 1900),
    (Z.ltb_spec 2100 yz), (Z.leb_spec 1 dz), (Z.leb_spec dz 31),
    (Z.leb_spec 1900 yz), (Z.leb_spec yz 2100); simpl; try reflexivity; lia.
Qed.

Lemma convertToStandardDate_examples :
  Dates.convertToStandardDate (VStr "15/01/2024") = Some "2024-01-15" /\
  Dates.convertToStandardDate (VStr "2024-01-15") = Some "2024-01-15" /\
  Dates.convertToStandardDate (VStr "5-1-2024") = Some "2024-01-05" /\
  Dates.convertToStandardDate (VNum 45000) = Some "2023-03-15" /\
  Dates.convertToStandardDate (VStr "45000") = Some "2023-03-15" /\
  Dates.convertToStandardDate (VStr "2024-13-01") = None /\
  Dates.convertToStandardDate (VStr "32/01/2024") = None /\
  Dates.convertToStandardDate (VStr "01/01/1899") = None /\
  Dates.convertToStandardDate (VStr "1/2/24") = None /\
  Dates.convertToStandardDate (VStr "2024-01") = None /\
  Dates.convertToStandardDate (VStr "") = None /\
  Dates.convertToStandardDate VNull = None.
Proof. by vm_compute. Qed.

Lemma excelSerialToDate_examples :
  Dates.excelSerialToDate 1 = Some "1900-01-01" /\
  Dates.excelSerialToDate 59 = Some "1900-02-28" /\
  Dates.excelSerialToDate 61 = Some "1900-03-01" /\
  Dates.excelSerialToDate 30001 = Some "1982-02-19" /\
  Dates.excelSerialToDate 49999 = Some "2036-11-20".
Proof. by vm_compute. Qed.

(** C9, at the failing input: the month "xx" is no number, every comparison
    with it is false, and the text is returned as a date. The same holds for
    a year of four letters. *)
Lemma non_numeric_month_is_accepted :
  Dates.convertToStandardDate (VStr "2024-xx-15") = Some "2024-xx-15" /\
  Dates.convertToStandardDate (VStr "abcd/1/2") = Some "abcd-01-02" /\
  Dates.isValidDate "2024" "xx" "15" = true.
Proof. by vm_compute. Qed.

(** ** What the report of [reconcileData] holds *)

Section ReportEntries.
Import Reconciliation Closed.
Context (gstData tallyData : list record) (gstColumns tallyColumns : list string).

Local Abbreviation rep := (reconcileData gstData tallyData gstColumns tallyColumns).

Lemma gstMismatch_elem (M : gset nat) m l : forall i acc,
  m ∈ forEachFrom (gstMismatchStep M) i l acc <->
  m ∈ acc \/ exists j g, l !! j = Some g /\ ((i + j) ∉ M) /\
                         m = mkMismatch (i + j) g "GST" "missing_in_tally".
Proof.
  induction l as [|g l IH]; intros i acc; simpl.
  - split; [by left | intros [H | (j & g & H & _)]; done].
  - rewrite IH. unfold gstMismatchStep. split.
    + intros [H | (j & g' & Hl & HM & ->)].
      * case_decide as Hi; [by left|].
        apply elem_of_app in H as [H | ->%list_elem_of_singleton]; [by left | right].
        exists 0, g. by rewrite Nat.add_0_r.
      * right. exists (Datatypes.S j), g'. by rewrite <- Nat.add_succ_comm.
    + intros [H | (j & g' & Hl & HM & ->)].
      * left. case_decide; [done|]. apply elem_of_app. by left.
      * destruct j as [|j]; simpl in Hl.
        -- inversion Hl; subst g'. rewrite Nat.add_0_r in *. left.
           rewrite decide_False by done. apply elem_of_app. right. by left.
        -- right. exists j, g'. by rewrite Nat.add_succ_comm.
Qed.

Lemma tallyMismatch_elem (M : gset nat) m l : forall i acc,
  m ∈ forEachFrom (tallyMismatchStep M) i l acc <->
  m ∈ acc \/ exists j t, l !! j = Some t /\ ((i + j) ∉ M) /\
                         m = mkMismatch (i + j) t "Tally" "missing_in_gst".
Proof.
  induction l as [|g l IH]; intros i acc; simpl.
  - split; [by left | intros [H | (j & g & H & _)]; done].
  - rewrite IH. unfold tallyMismatchStep. split.
    + intros [H | (j & g' & Hl & HM & ->)].
      * case_decide as Hi; [by left|].
        apply elem_of_app in H as [H | ->%list_elem_of_singleton]; [by left | right].
        exists 0, g. by rewrite Nat.add_0_r.
      * right. exists (Datatypes.S j), g'. by rewrite <- Nat.add_succ_comm.
    + intros [H | (j & g' & Hl & HM & ->)].
      * left. case_decide; [done|]. apply elem_of_app. by left.
      * destruct j as [|j]; simpl in Hl.
        -- inversion Hl; subst g'. rewrite Nat.add_0_r in *. left.
           rewrite decide_False by done. apply elem_of_app. right. by left.
        -- right. exists j, g'. by rewrite Nat.add_succ_comm.
Qed.

Lemma matched_sets :
  let fin := finalState gstData tallyData gstColumns tallyColumns in
  (forall i, i ∈ Reconciliation.matchedGstIds fin <->
             i ∈ map gstIndex (exactMatches rep ++ Reconciliation.partialMatches rep)) /\
  (forall j, j ∈ Reconciliation.matchedTallyIds fin <->
             j ∈ map tallyIndex (exactMatches rep ++ Reconciliation.partialMatches rep)).
Proof.
  intros fin. rewrite <- matched_entries. fold fin.
  pose proof (finalState_Inv gstData tallyData gstColumns tallyColumns) as HI.
  fold fin in HI. split; intros k.
  - by rewrite (inv_gst _ _ _ _ _ HI), elem_of_list_to_set.
  - by rewrite (inv_tally _ _ _ _ _ HI), elem_of_list_to_set.
Qed.

(** An entry of the exact pass holds a row of each side. *)
Lemma elem_of_exactFrom m l : forall seen i0,
  m ∈ exactFrom tallyData gstColumns tallyColumns seen i0 l ->
  exists i g j t,
    l !! i = Some g /\ tallyData !! j = Some t /\
    createKey g gstColumns = createKey t tallyColumns /\
    m = mkMatch (i0 + i) g j (withIndex t j) "exact" [].
Proof.
  induction l as [|g l IH]; intros seen i0; simpl; [by intros H%elem_of_nil|].
  intros [H | H]%elem_of_app.
  - case_decide; [by apply elem_of_nil in H|].
    apply list_elem_of_fmap in H as ([j r] & -> & Hin).
    apply elem_of_bucketFrom in Hin as (t & Hl & _ & Hk & ->).
    rewrite Nat.sub_0_r in Hl. exists 0, g, j, t. by rewrite Nat.add_0_r.
  - apply IH in H as (i & g' & j & t & Hl & Ht & Hk & ->).
    exists (Datatypes.S i), g', j, t. by rewrite <- Nat.add_succ_comm.
Qed.

(** What the partial pass keeps about the rows of its entries. *)
Local Abbreviation fromInput :=
  (fun m => gstData !! gstIndex m = Some (gstRecord m) /\
            tallyData !! tallyIndex m = Some (tallyRecord m) /\
            matchType m = "partial").

Lemma partialStep_rows s g gi :
  gstData !! gi = Some g -> Forall fromInput (sPartial s) ->
  Forall fromInput (sPartial (partialStep tallyData gstColumns tallyColumns s g gi)).
Proof.
  intros Hg Hs. unfold partialStep. case_decide; [done|].
  apply (forEach_inv _ (fun _ s' => Forall fromInput (sPartial s'))); [done|].
  intros j t s' Ht Hs'. unfold partialInner. case_decide; [done|].
  destruct (_ && _); [|done]. simpl.
  apply Forall_app. split; [done|]. by repeat constructor.
Qed.

Lemma partialPass_rows :
  Forall fromInput (Reconciliation.partialMatches rep).
Proof.
  destruct (result_fields gstData tallyData gstColumns tallyColumns) as (_ & -> & _).
  unfold finalState, partialPass.
  apply (forEach_inv _ (fun _ s' => Forall fromInput (sPartial s'))).
  - destruct (exactPass_Inv gstData tallyData gstColumns tallyColumns) as [_ ->].
    constructor.
  - intros j g s' Hg Hs'. by apply partialStep_rows.
Qed.
End ReportEntries.

Import Reconciliation Closed.

(** An exact match holds the GST row of its index, the Tally row of its
    index extended with the property [_index], rows of equal keys, the type
    "exact" and no discrepancy; a partial match holds the two rows of its
    indices as they are, the type "partial" and the discrepancies of the two
    rows, at least one and fewer than there are mapped GST columns. *)
Theorem match_entries_hold_input_rows (gstData tallyData : list record)
    (gstColumns tallyColumns : list string) :
  let r := reconcileData gstData tallyData gstColumns tallyColumns in
  Forall (fun m =>
            gstData !! gstIndex m = Some (gstRecord m) /\
            (exists t, tallyData !! tallyIndex m = Some t /\
                       tallyRecord m = withIndex t (tallyIndex m) /\
                       createKey (gstRecord m) gstColumns = createKey t tallyColumns) /\
            matchType m = "exact" /\ Reconciliation.discrepancies m = [])
         (exactMatches r) /\
  Forall (fun m =>
            gstData !! gstIndex m = Some (gstRecord m) /\
            tallyData !! tallyIndex m = Some (tallyRecord m) /\
            matchType m = "partial" /\
            Reconciliation.discrepancies m =
              findDiscrepancies (gstRecord m) (tallyRecord m) gstColumns tallyColumns /\
            0 < length (Reconciliation.discrepancies m) < length gstColumns)
         (Reconciliation.partialMatches r).
Proof.
  intros r. split.
  - unfold r. rewrite exactMatches_closed. apply Forall_forall. intros m Hm.
    apply elem_of_exactFrom in Hm as (i & g & j & t & Hg & Ht & Hk & ->). simpl.
    split_and!; [done | by exists t | done | done].
  - pose proof (partialPass_rows gstData tallyData gstColumns tallyColumns) as Hrows.
    pose proof (finalState_Inv gstData tallyData gstColumns tallyColumns) as HI.
    destruct (result_fields gstData tallyData gstColumns tallyColumns) as (_ & Hp & _).
    fold r in Hrows, Hp. rewrite Hp in *.
    pose proof (inv_budget _ _ _ _ _ HI) as Hb. pose proof (inv_disc _ _ _ _ _ HI) as Hd.
    rewrite Forall_forall in Hrows, Hb, Hd. apply Forall_forall. intros m Hm.
    destruct (Hrows m Hm) as (H1 & H2 & H3).
    split_and!; [done | done | done | by apply Hd | by apply Hb | by apply Hb].
Qed.

(** The two residual lists hold exactly the rows no match entry refers to,
    each with its index, its record as given, its side and its reason. *)
Theorem mismatches_hold_unmatched_rows (gstData tallyData : list record)
    (gstColumns tallyColumns : list string) :
  let r := reconcileData gstData tallyData gstColumns tallyColumns in
  let matched := exactMatches r ++ Reconciliation.partialMatches r in
  (forall m, m ∈ gstMismatches r <->
     exists i g, gstData !! i = Some g /\ (i ∉ map gstIndex matched) /\
                 m = mkMismatch i g "GST" "missing_in_tally") /\
  (forall m, m ∈ tallyMismatches r <->
     exists j t, tallyData !! j = Some t /\ (j ∉ map tallyIndex matched) /\
                 m = mkMismatch j t "Tally" "missing_in_gst").
Proof.
  intros r matched.
  destruct (matched_sets gstData tallyData gstColumns tallyColumns) as [HG HT].
  fold r matched in HG, HT. split; intros m.
  - unfold r, reconcileData, forEach. cbn [gstMismatches]. rewrite gstMismatch_elem.
    split.
    + intros [H%elem_of_nil | (j & g & Hl & HM & ->)]; [done|].
      exists j, g. simpl in *. by rewrite <- HG.
    + intros (i & g & Hl & HM & ->). right. exists i, g. simpl. by rewrite HG.
  - unfold r, reconcileData, forEach. cbn [tallyMismatches]. rewrite tallyMismatch_elem.
    split.
    + intros [H%elem_of_nil | (j & g & Hl & HM & ->)]; [done|].
      exists j, g. simpl in *. by rewrite <- HT.
    + intros (i & g & Hl & HM & ->). right. exists i, g. simpl. by rewrite HT.
Qed.
(** ** Edge cases of [reconcileData] *)

Section Edges.
Import Reconciliation Closed.

Lemma filter_not_in_nil (l : list nat) : filter (fun j => j ∉ ([] : list nat)) l = l.
Proof.
  induction l as [|x l IH]; [done|].
  rewrite filter_cons_True by apply not_elem_of_nil. by f_equal.
Qed.

(** The first row of a key among the rows of a list. *)
Lemma first_with_key (columns : list string) (k : string) (l : list record) :
  (exists g, g ∈ l /\ createKey g columns = k) ->
  exists i g, l !! i = Some g /\ createKey g columns = k /\
              forall i' g', i' < i -> l !! i' = Some g' -> createKey g' columns <> k.
Proof.
  induction l as [|g0 l IH]; intros (g & Hg & Hk); [by apply elem_of_nil in Hg|].
  destruct (decide (createKey g0 columns = k)) as [H0 | H0].
  - exists 0, g0. split_and!; [done | done | intros; lia].
  - apply elem_of_cons in Hg as [-> | Hg]; [done|].
    destruct IH as (i & g1 & Hi & Hk1 & Hmin); [by exists g|].
    exists (Datatypes.S i), g1. split_and!; [done | done |].
    intros [|i'] g' Hlt Hl; simpl in Hl; [by inversion Hl; subst|].
    apply (Hmin i' g'); [lia | done].
Qed.

Lemma createKey_nil (r : record) : createKey r [] = "".
Proof. reflexivity. Qed.

Lemma bucketFrom_all (tallyColumns : list string) (k : string) (l : list record) :
  forall i, (forall t, t ∈ l -> createKey t tallyColumns = k) ->
  (bucketFrom tallyColumns k i l).*1 = seq i (length l).
Proof.
  induction l as [|t l IH]; intros i Hall; simpl; [done|].
  rewrite decide_True by (apply Hall; left). simpl. f_equal.
  apply IH. intros t' Ht'. apply Hall. by right.
Qed.

Lemma exactFrom_seen (tallyData : list record) (gstColumns tallyColumns : list string)
    (l : list record) : forall seen i,
  (forall g, g ∈ l -> createKey g gstColumns ∈ seen) ->
  exactFrom tallyData gstColumns tallyColumns seen i l = [].
Proof.
  induction l as [|g l IH]; intros seen i Hall; simpl; [done|].
  rewrite decide_True by (apply Hall; left). simpl.
  apply IH. intros g' Hg'. right. apply Hall. by right.
Qed.

(** Fewer than two mapped GST columns leave no room for a partial match. *)
Lemma partial_needs_two_columns (gstData tallyData : list record)
    (gstColumns tallyColumns : list string) :
  length gstColumns <= 1 ->
  Reconciliation.partialMatches (reconcileData gstData tallyData gstColumns tallyColumns) = [].
Proof.
  intros Hlen.
  destruct (result_fields gstData tallyData gstColumns tallyColumns) as (_ & Hp & _).
  rewrite Hp.
  pose proof (inv_budget _ _ _ _ _
                (finalState_Inv gstData tallyData gstColumns tallyColumns)) as Hb.
  destruct (sPartial _) as [|m ms]; [done|].
  apply Forall_cons in Hb as [Hm _]. lia.
Qed.
End Edges.

(** Without GST rows nothing is matched and every Tally row is reported
    unmatched, in row order. *)
Theorem no_gst_rows_leaves_every_tally_row (tallyData : list record)
    (gstColumns tallyColumns : list string) :
  let r := reconcileData [] tallyData gstColumns tallyColumns in
  exactMatches r = [] /\ Reconciliation.partialMatches r = [] /\ gstMismatches r = [] /\
  unmatched (tallyMismatches r) = seq 0 (length tallyData) /\
  map mmRecord (tallyMismatches r) = tallyData.
Proof.
  intros r. split_and!; [done | done | done | |].
  - unfold r, reconcileData, forEach. cbn [tallyMismatches].
    rewrite tallyMismatch_indices. simpl.
    rewrite (filter_ext_elem _ (fun j => j ∉ ([] : list nat))).
    + apply filter_not_in_nil.
    + intros j _. split; intros _; [apply not_elem_of_nil | apply not_elem_of_empty].
  - unfold r, reconcileData, forEach. cbn [tallyMismatches]. simpl.
    assert (forall l i acc,
              map mmRecord (forEachFrom (tallyMismatchStep ∅) i l acc)
              = map mmRecord acc ++ l) as H.
    { induction l as [|t l IH]; intros i acc; simpl; [by rewrite app_nil_r|].
      rewrite IH. unfold tallyMismatchStep.
      rewrite decide_False by apply not_elem_of_empty.
      by rewrite map_app, <- app_assoc. }
    apply (H tallyData 0 []).
Qed.

(** With at most one mapped GST column [reconcileData] reports no partial
    match: a row is matched exactly or not at all. *)
Theorem single_column_has_no_partial_match (gstData tallyData : list record)
    (gstColumns tallyColumns : list string) :
  length gstColumns <= 1 ->
  let r := reconcileData gstData tallyData gstColumns tallyColumns in
  Reconciliation.partialMatches r = [] /\
  length (exactMatches r) + length (tallyMismatches r) = length tallyData.
Proof.
  intros Hlen r.
  assert (Reconciliation.partialMatches r = []) as Hp
    by (by apply partial_needs_two_columns).
  split; [done|].
  pose proof (Permutation_length (tally_partition gstData tallyData gstColumns tallyColumns))
    as HT.
  fold r in HT. rewrite Hp, app_nil_r, length_app, length_map, unmatched_length, length_seq in HT.
  done.
Qed.

Lemma single_column_has_no_partial_match_witness :
  let r := reconcileData [gstRowOf "inv1"; gstRowOf "inv9"] someTally ["Invoice No"] ["Inv"] in
  Reconciliation.partialMatches r = [] /\
  length (exactMatches r) + length (tallyMismatches r) = length someTally.
Proof.
  apply (single_column_has_no_partial_match
           [gstRowOf "inv1"; gstRowOf "inv9"] someTally ["Invoice No"] ["Inv"]).
  simpl. lia.
Defined.

(** A Tally row is in an exact match exactly when some GST row has its key. *)
Theorem exact_matches_cover_shared_keys (gstData tallyData : list record)
    (gstColumns tallyColumns : list string) (j : nat) :
  let r := reconcileData gstData tallyData gstColumns tallyColumns in
  j ∈ map tallyIndex (exactMatches r) <->
  exists t g, tallyData !! j = Some t /\ g ∈ gstData /\
              createKey g gstColumns = createKey t tallyColumns.
Proof.
  intros r. unfold r. rewrite exactMatches_closed. split.
  - intros (m & -> & Hm)%list_elem_of_fmap.
    apply elem_of_exactFrom in Hm as (i & g & j & t & Hg & Ht & Hk & ->). simpl.
    exists t, g. split_and!; [done | by eapply list_elem_of_lookup_2 | done].
  - intros (t & g & Ht & Hg & Hk).
    destruct (first_with_key gstColumns (createKey t tallyColumns) gstData)
      as (i & g1 & Hi & Hk1 & Hmin); [by exists g|].
    assert ((i, j) ∈ pairs (exactFrom tallyData gstColumns tallyColumns [] 0 gstData)) as Hp.
    { apply pairs_exactFrom. exists g1, t. rewrite Nat.sub_0_r.
      split_and!; [lia | done | done | done | apply not_elem_of_nil |].
      intros i' g' _ Hlt Hl. rewrite Nat.sub_0_r in Hl. rewrite Hk1.
      by apply (Hmin i' g'). }
    unfold pairs in Hp. apply list_elem_of_fmap in Hp as (m & Heq & Hm).
    apply list_elem_of_fmap. exists m. split; [by inversion Heq | done].
Qed.

(** With no mapped column every key is the empty text: the first GST row is
    exactly matched with every Tally row, the other GST rows are reported
    unmatched. *)
Theorem empty_mapping_gives_all_to_first_row (g0 : record) (gstRest : list record)
    (t0 : record) (tallyRest : list record) :
  let tallyData := t0 :: tallyRest in
  let r := reconcileData (g0 :: gstRest) tallyData [] [] in
  pairs (exactMatches r) = map (fun j => (0, j)) (seq 0 (length tallyData)) /\
  Reconciliation.partialMatches r = [] /\
  tallyMismatches r = [] /\
  unmatched (gstMismatches r) = seq 1 (length gstRest).
Proof.
  intros tallyData r.
  assert (pairs (exactMatches r) = map (fun j => (0, j)) (seq 0 (length tallyData))) as He.
  { unfold r. rewrite exactMatches_closed. cbn [exactFrom].
    rewrite decide_False by apply not_elem_of_nil.
    rewrite exactFrom_seen, app_nil_r.
    - unfold pairs. rewrite map_map. cbn [gstIndex tallyIndex].
      rewrite <- (bucketFrom_all [] (createKey g0 []) tallyData 0) by done.
      by rewrite <- list_fmap_compose.
    - intros g _. rewrite !createKey_nil. left. }
  assert (Reconciliation.partialMatches r = []) as Hp.
  { apply partial_needs_two_columns. simpl. lia. }
  split_and!; [done | done | |].
  - pose proof (Permutation_length (tally_partition (g0 :: gstRest) tallyData [] [])) as HT.
    fold r in HT.
    rewrite Hp, app_nil_r, length_app, unmatched_length, length_seq in HT.
    assert (length (map tallyIndex (exactMatches r)) = length tallyData) as Hl.
    { rewrite length_map, <- (length_map (fun m => (gstIndex m, tallyIndex m))).
      fold (pairs (exactMatches r)). by rewrite He, length_map, length_seq. }
    rewrite Hl in HT. destruct (tallyMismatches r); [done | simpl length in HT; lia].
  - destruct (result_fields (g0 :: gstRest) tallyData [] []) as (_ & _ & _ & HG).
    fold r in HG. rewrite HG, matched_entries. fold r.
    rewrite Hp, app_nil_r.
    assert (map gstIndex (exactMatches r) = map fst (pairs (exactMatches r))) as ->.
    { unfold pairs. by rewrite map_map. }
    rewrite He, map_map. cbn [fst length seq].
    rewrite filter_cons_False by (intros H; apply H; left).
    rewrite (filter_ext_elem _ (fun j => j ∉ ([] : list nat))).
    + apply filter_not_in_nil.
    + intros j Hj%elem_of_seq. split; intros _; [apply not_elem_of_nil|].
      intros [-> | (x & -> & _)%list_elem_of_fmap]%elem_of_cons; lia.
Qed.
(** ** Keys and discrepancies *)

Section KeysAndDiscrepancies.
Import Reconciliation Closed.

Lemma findDiscrepancies_nil_iff (g t : record) (gc : list string) : forall tc,
  length gc = length tc ->
  (findDiscrepancies g t gc tc = [] <-> texts g gc = texts t tc).
Proof.
  induction gc as [|c gc IH]; intros [|c' tc] Hlen; try done.
  cbn [findDiscrepancies texts map]. fold (texts g gc) (texts t tc).
  destruct (String.eqb_spec (cellText (get g c)) (cellText (get t c'))) as [He | Hne].
  - rewrite IH by (by inversion Hlen). split; [intros ->; by rewrite He|].
    by intros [= _ ->].
  - split; [done | by intros [= ? _]].
Qed.
End KeysAndDiscrepancies.

(** For equally many mapped columns on the two sides and cell texts free of
    the key separator, two rows have equal keys exactly when they have no
    discrepancy: the exact pass and the discrepancy count agree on what an
    exact match is. *)
Theorem equal_keys_iff_no_discrepancy (g t : record) (gstColumns tallyColumns : list string) :
  length gstColumns = length tallyColumns ->
  Forall (fun s => includes s "|" = false) (texts g gstColumns) ->
  Forall (fun s => includes s "|" = false) (texts t tallyColumns) ->
  (createKey g gstColumns = createKey t tallyColumns <->
   findDiscrepancies g t gstColumns tallyColumns = []).
Proof.
  intros Hlen Hg Ht. rewrite findDiscrepancies_nil_iff by done.
  unfold createKey. fold (texts g gstColumns) (texts t tallyColumns).
  split; [|by intros ->]. intros Heq. apply join_inj; [|done..].
  unfold texts. by rewrite !length_map.
Qed.

Lemma equal_keys_iff_no_discrepancy_witness :
  createKey {[ "Invoice No" := VStr "INV1"; "Amount" := VNum 100 ]} ["Invoice No"; "Amount"]
    = createKey {[ "Inv" := VStr " inv1"; "Amt" := VStr "100" ]} ["Inv"; "Amt"] <->
  findDiscrepancies {[ "Invoice No" := VStr "INV1"; "Amount" := VNum 100 ]}
    {[ "Inv" := VStr " inv1"; "Amt" := VStr "100" ]} ["Invoice No"; "Amount"] ["Inv"; "Amt"]
    = [].
Proof.
  apply equal_keys_iff_no_discrepancy.
  - reflexivity.
  - vm_compute. repeat constructor.
  - vm_compute. repeat constructor.
Defined.

(** ** The partial matcher of the route pairs one to one *)

Section OneToOne.
Import Server Budget Report.
Context (gstColumnNames tallyColumnNames : list string).
Context (gstData tallyData : list Row) (exactGstIds exactTallyIds : gset Z).

Local Abbreviation step := (matchStep gstColumnNames tallyColumnNames tallyData).
Local Abbreviation count := (countOf gstColumnNames tallyColumnNames).

Local Abbreviation paired := (fun m : Matcher =>
  Server.matchedGstIds m = exactGstIds ∪ list_to_set (partialGstIds m) /\
  Server.matchedTallyIds m = exactTallyIds ∪ list_to_set (partialTallyIds m) /\
  NoDup (partialGstIds m) /\ NoDup (partialTallyIds m) /\
  (forall id, id ∈ partialGstIds m -> id ∉ exactGstIds) /\
  (forall id, id ∈ partialTallyIds m -> id ∉ exactTallyIds) /\
  Forall (fun pm => gst pm ∈ gstData /\ tally pm ∈ tallyData) (Server.partialMatches m)).

Lemma set_add_last (E : gset Z) (L : list Z) (x : Z) :
  {[x]} ∪ (E ∪ list_to_set L) = E ∪ list_to_set (L ++ [x]).
Proof.
  apply set_eq. intros y.
  rewrite !elem_of_union, !elem_of_list_to_set, elem_of_app, list_elem_of_singleton,
    elem_of_singleton.
  tauto.
Qed.

Lemma makePartialMatch_rows g t n cols :
  gst (makePartialMatch g t n cols) = g /\ tally (makePartialMatch g t n cols) = t.
Proof. unfold makePartialMatch. by destruct (severity cols). Qed.

Lemma matchStep_paired m g :
  g ∈ gstData -> paired m -> paired (step m g).
Proof.
  intros Hg (HG & HT & HndG & HndT & HeG & HeT & Hrows).
  destruct (decide (rowId g ∈ Server.matchedGstIds m)) as [Hin | Hnin].
  { unfold matchStep. by rewrite decide_True. }
  destruct (bestMatch (findBest gstColumnNames tallyColumnNames
                         (Server.matchedTallyIds m) g tallyData)) as [best|] eqn:Hbest;
    [|by rewrite matchStep_none].
  rewrite (matchStep_found _ _ _ m g best Hnin Hbest).
  pose proof (findBest_scanned gstColumnNames tallyColumnNames
                (Server.matchedTallyIds m) g tallyData) as Hs.
  unfold scanned in Hs. rewrite Hbest in Hs.
  destruct Hs as (before & after & Hsplit & [Hfree _] & _).
  destruct (makePartialMatch_rows g best (count g best)
              (compareRows gstColumnNames tallyColumnNames g best).2) as [Hr1 Hr2].
  rewrite HG in Hnin. rewrite HT in Hfree.
  rewrite not_elem_of_union, elem_of_list_to_set in Hnin, Hfree.
  unfold partialGstIds, partialTallyIds in *. cbn [Server.partialMatches
    Server.matchedGstIds Server.matchedTallyIds].
  rewrite !map_app. cbn [map]. rewrite Hr1, Hr2.
  split_and!.
  - rewrite HG. apply set_add_last.
  - rewrite HT. apply set_add_last.
  - apply NoDup_app. split_and!; [done | | apply NoDup_singleton].
    intros id Hid ->%list_elem_of_singleton. tauto.
  - apply NoDup_app. split_and!; [done | | apply NoDup_singleton].
    intros id Hid ->%list_elem_of_singleton. tauto.
  - intros id [Hid | ->%list_elem_of_singleton]%elem_of_app; [by apply HeG | tauto].
  - intros id [Hid | ->%list_elem_of_singleton]%elem_of_app; [by apply HeT | tauto].
  - apply Forall_app. split; [done|]. constructor; [|constructor].
    rewrite Hr1, Hr2. split; [done|].
    rewrite Hsplit. apply elem_of_app. right. left.
Qed.

Lemma fold_paired l : forall m,
  (forall g, g ∈ l -> g ∈ gstData) -> paired m -> paired (fold_left step l m).
Proof.
  induction l as [|g l IH]; intros m Hl Hm; [done|]. simpl.
  apply IH; [intros g' Hg'; apply Hl; by right|].
  apply matchStep_paired; [apply Hl; left | done].
Qed.

(** The consumed ids only grow. *)
Lemma matchStep_grows m g :
  Server.matchedGstIds m ⊆ Server.matchedGstIds (step m g) /\
  Server.matchedTallyIds m ⊆ Server.matchedTallyIds (step m g).
Proof.
  unfold matchStep. case_decide; [done|].
  destruct (bestMatch _); [|done]. destruct (Nat.leb _ _); [|done].
  simpl. split; apply union_subseteq_r.
Qed.

Lemma fold_grows l : forall m,
  Server.matchedGstIds m ⊆ Server.matchedGstIds (fold_left step l m) /\
  Server.matchedTallyIds m ⊆ Server.matchedTallyIds (fold_left step l m).
Proof.
  induction l as [|g l IH]; intros m; [done|]. simpl.
  destruct (matchStep_grows m g) as [H1 H2]. destruct (IH (step m g)) as [H3 H4].
  split; etrans; done.
Qed.

(** A GST row left over had no candidate when its turn came. *)
Lemma fold_leftover l : forall m g t,
  g ∈ l -> t ∈ tallyData ->
  rowId g ∉ Server.matchedGstIds (fold_left step l m) ->
  rowId t ∉ Server.matchedTallyIds (fold_left step l m) ->
  ~ (1 <= count g t <= 3).
Proof.
  induction l as [|g0 l IH]; intros m g t Hg Ht HnG HnT; [by apply elem_of_nil in Hg|].
  simpl in HnG, HnT.
  destruct (fold_grows l (step m g0)) as [HsubG HsubT].
  destruct (matchStep_grows m g0) as [HsubG0 HsubT0].
  apply elem_of_cons in Hg as [-> | Hg]; [|by apply (IH (step m g0))].
  assert (rowId g0 ∉ Server.matchedGstIds (step m g0)) as H1 by (intros H; by apply HnG, HsubG).
  assert (rowId g0 ∉ Server.matchedGstIds m) as H0 by (intros H; by apply H1, HsubG0).
  assert (rowId t ∉ Server.matchedTallyIds m) as HtM
    by (intros H; by apply HnT, HsubT, HsubT0).
  destruct (bestMatch (findBest gstColumnNames tallyColumnNames
                         (Server.matchedTallyIds m) g0 tallyData)) as [best|] eqn:Hbest.
  - rewrite (matchStep_found _ _ _ m g0 best H0 Hbest) in H1. simpl in H1.
    exfalso. apply H1, elem_of_union_l. by apply elem_of_singleton.
  - pose proof (findBest_scanned gstColumnNames tallyColumnNames
                  (Server.matchedTallyIds m) g0 tallyData) as Hs.
    unfold scanned in Hs. rewrite Hbest in Hs. destruct Hs as [_ Hnone].
    intros Hc. apply (Hnone t Ht). by split.
Qed.
End OneToOne.

Import Server Budget Report.

(** The partial matcher of the route pairs one to one: no GST row and no
    Tally row is in two partial matches, none of them was consumed by an exact
    match, both rows of a partial match are input rows, and the consumed ids
    are those of the exact matches and of the partial matches. *)
Theorem partial_matcher_is_one_to_one (gstColumnNames tallyColumnNames : list string)
    (gstData tallyData : list Row) (exactGstIds exactTallyIds : gset Z) :
  let m := partialMatcher gstColumnNames tallyColumnNames gstData tallyData
             exactGstIds exactTallyIds in
  NoDup (partialGstIds m) /\ NoDup (partialTallyIds m) /\
  (forall id, id ∈ partialGstIds m -> id ∉ exactGstIds) /\
  (forall id, id ∈ partialTallyIds m -> id ∉ exactTallyIds) /\
  Forall (fun pm => gst pm ∈ gstData /\ tally pm ∈ tallyData) (Server.partialMatches m) /\
  Server.matchedGstIds m = exactGstIds ∪ list_to_set (partialGstIds m) /\
  Server.matchedTallyIds m = exactTallyIds ∪ list_to_set (partialTallyIds m).
Proof.
  intros m.
  destruct (fold_paired gstColumnNames tallyColumnNames gstData tallyData
              exactGstIds exactTallyIds gstData
              (mkMatcher [] exactGstIds exactTallyIds))
    as (HG & HT & HndG & HndT & HeG & HeT & Hrows).
  - done.
  - unfold partialGstIds, partialTallyIds. simpl.
    split_and!; try done; try constructor;
      try (by rewrite (right_id_L ∅ (∪))); by intros id H%elem_of_nil.
  - done.
Qed.

(** The residual lists of the route hold the rows that are in no exact and
    in no partial match, and no GST row left over is within the budget of 1
    to 3 mismatching columns of a Tally row left over. *)
Theorem leftover_rows_are_out_of_budget (gstColumnNames tallyColumnNames : list string)
    (gstData tallyData : list Row) (exactGstIds exactTallyIds : gset Z) :
  let m := partialMatcher gstColumnNames tallyColumnNames gstData tallyData
             exactGstIds exactTallyIds in
  (forall g, g ∈ gstOnlyFiltered m gstData <->
             g ∈ gstData /\ (rowId g ∉ exactGstIds) /\ (rowId g ∉ partialGstIds m)) /\
  (forall t, t ∈ tallyOnlyFiltered m tallyData <->
             t ∈ tallyData /\ (rowId t ∉ exactTallyIds) /\ (rowId t ∉ partialTallyIds m)) /\
  (forall g t, g ∈ gstOnlyFiltered m gstData -> t ∈ tallyOnlyFiltered m tallyData ->
               ~ (1 <= countOf gstColumnNames tallyColumnNames g t <= 3)).
Proof.
  intros m.
  destruct (fold_paired gstColumnNames tallyColumnNames gstData tallyData
              exactGstIds exactTallyIds gstData
              (mkMatcher [] exactGstIds exactTallyIds))
    as (HG & HT & _); [done | |].
  { unfold partialGstIds, partialTallyIds. simpl.
    split_and!; try done; try constructor;
      try (by rewrite (right_id_L ∅ (∪))); by intros id H%elem_of_nil. }
  fold (partialMatcher gstColumnNames tallyColumnNames gstData tallyData
          exactGstIds exactTallyIds) in HG, HT. fold m in HG, HT.
  split_and!.
  - intros g. unfold gstOnlyFiltered. rewrite list_elem_of_filter, HG.
    rewrite not_elem_of_union, elem_of_list_to_set. tauto.
  - intros t. unfold tallyOnlyFiltered. rewrite list_elem_of_filter, HT.
    rewrite not_elem_of_union, elem_of_list_to_set. tauto.
  - intros g t [HgM Hg]%list_elem_of_filter [HtM Ht]%list_elem_of_filter.
    by apply (fold_leftover gstColumnNames tallyColumnNames tallyData gstData
                (mkMatcher [] exactGstIds exactTallyIds) g t).
Qed.
(** ** The column comparison of the route *)

Section Comparison.
Import Server Budget Report.
Context (gstColumnNames tallyColumnNames : list string) (gstRow tallyRow : Row).

Local Abbreviation gstText := (fun i : nat =>
  comparedText (get (rowCells gstRow) (nameAt gstColumnNames i))).
Local Abbreviation tallyText := (fun i : nat =>
  comparedText (get (rowCells tallyRow) (nameAt tallyColumnNames i))).
Local Abbreviation listed := (fun d : DiscrepancyColumn =>
  gstColumnNames !! columnIndex d = Some (gstColumn d) /\
  tallyColumn d = nameAt tallyColumnNames (columnIndex d) /\
  Server.gstValue d = gstText (columnIndex d) /\
  Server.tallyValue d = tallyText (columnIndex d)).

Lemma compareRows_columns :
  let cols := (compareRows gstColumnNames tallyColumnNames gstRow tallyRow).2 in
  map columnIndex cols
    = filter (fun i => gstText i <> tallyText i) (seq 0 (length gstColumnNames)) /\
  Forall listed cols.
Proof.
  unfold compareRows.
  apply (forEach_inv _ (fun j (acc : nat * list DiscrepancyColumn) =>
           map columnIndex acc.2 = filter (fun i => gstText i <> tallyText i) (seq 0 j) /\
           Forall listed acc.2)).
  - split; [done | constructor].
  - intros j c acc Hc [Hidx Hall]. unfold compareStep.
    rewrite seq_S, filter_app. simpl seq.
    assert (nameAt gstColumnNames j = c) as Hname by (unfold nameAt; by rewrite Hc).
    subst c.
    destruct (String.eqb_spec (gstText j) (tallyText j)) as [Heq | Hne].
    + rewrite filter_cons_False by (intros H; by apply H).
      rewrite filter_nil, app_nil_r. done.
    + rewrite filter_cons_True by done.
      rewrite filter_nil. simpl. rewrite map_app, Hidx. split; [done|].
      apply Forall_app. split; [done|]. by repeat constructor.
Qed.

Lemma isDigit_not_T c : isDigit c = true -> Ascii.eqb c "T" = false.
Proof. destruct c as [[] [] [] [] [] [] [] []]; by vm_compute. Qed.

Lemma trimEnd_cons c r : isSpace c = false -> trimEnd (String c r) = String c (trimEnd r).
Proof. intros Hc. cbn [trimEnd]. destruct (trimEnd r); by rewrite ?Hc. Qed.

Lemma splitOn_cons (p : ascii -> bool) c r :
  p c = false -> hd "" (splitOn p (String c r)) = String c (hd "" (splitOn p r)).
Proof. intros Hc. cbn [splitOn]. rewrite Hc. by destruct (splitOn p r). Qed.

Lemma dateShape_spec (d : string) :
  dateShape d = true ->
  exists y1 y2 y3 y4 m1 m2 d1 d2,
    d = String y1 (String y2 (String y3 (String y4 (String "-"
          (String m1 (String m2 (String "-" (String d1 (String d2 ""))))))))) /\
    Forall (fun c => isDigit c = true) [y1; y2; y3; y4; m1; m2; d1; d2].
Proof.
  intros Hd.
  destruct d as [|y1 [|y2 [|y3 [|y4 [|s1 [|m1 [|m2 [|s2 [|d1 [|d2 [|? ?]]]]]]]]]]];
    try discriminate Hd;
    (destruct s1 as [[] [] [] [] [] [] [] []]; try discriminate Hd);
    (destruct s2 as [[] [] [] [] [] [] [] []]; try discriminate Hd).
  cbn [dateShape] in Hd.
  do 7 (apply andb_true_iff in Hd as [Hd ?]).
  exists y1, y2, y3, y4, m1, m2, d1, d2. split; [done|]. by repeat constructor.
Qed.
End Comparison.

Import Server Budget Report.

(** The comparison of two rows lists, in column order, exactly the mapped
    positions at which the compared texts differ, each with its position, the
    GST column name of the position and the two compared texts; the count is
    the number of listed positions, at most the number of mapped GST columns. *)
Theorem compareRows_lists_the_differing_columns
    (gstColumnNames tallyColumnNames : list string) (gstRow tallyRow : Row) :
  let r := compareRows gstColumnNames tallyColumnNames gstRow tallyRow in
  let gstText i := comparedText (get (rowCells gstRow) (nameAt gstColumnNames i)) in
  let tallyText i := comparedText (get (rowCells tallyRow) (nameAt tallyColumnNames i)) in
  r.1 = length r.2 /\ r.1 <= length gstColumnNames /\
  map columnIndex r.2
    = filter (fun i => gstText i <> tallyText i) (seq 0 (length gstColumnNames)) /\
  Forall (fun d =>
            gstColumnNames !! columnIndex d = Some (gstColumn d) /\
            Server.gstValue d = gstText (columnIndex d) /\
            Server.tallyValue d = tallyText (columnIndex d) /\
            Server.gstValue d <> Server.tallyValue d) r.2.
Proof.
  intros r gstText tallyText.
  destruct (compareRows_columns gstColumnNames tallyColumnNames gstRow tallyRow)
    as [Hidx Hall].
  fold r in Hidx, Hall.
  pose proof (compareRows_count gstColumnNames tallyColumnNames gstRow tallyRow) as Hcount.
  unfold countOf in Hcount. fold r in Hcount.
  split_and!; [done | | done |].
  - rewrite <- Hcount, <- (length_map columnIndex), Hidx.
    etrans; [apply length_filter|]. by rewrite length_seq.
  - apply Forall_forall. intros d Hd. rewrite Forall_forall in Hall.
    destruct (Hall d Hd) as (H1 & _ & H3 & H4). split_and!; [done..|].
    assert (columnIndex d ∈ map columnIndex r.2) as Hin
      by (apply list_elem_of_fmap; by exists d).
    rewrite Hidx in Hin. apply list_elem_of_filter in Hin as [Hne _].
    by rewrite H3, H4.
Qed.

(** A timestamp text that starts with a date dddd-dd-dd followed by T is
    compared as that date: it equals the plain date text. *)
Theorem timestamp_is_compared_as_its_date (d rest : string) :
  dateShape d = true ->
  comparedText (VStr (d +:+ "T" +:+ rest)) = d /\ comparedText (VStr d) = d.
Proof.
  intros (y1 & y2 & y3 & y4 & m1 & m2 & d1 & d2 & -> & Hall)%dateShape_spec.
  repeat (apply Forall_cons in Hall as [? Hall]).
  assert (forall c, isDigit c = true -> isSpace c = false) as Hsp by apply isDigit_not_space.
  assert (forall c, isDigit c = true -> Ascii.eqb c "T" = false) as HT by apply isDigit_not_T.
  assert (isSpace "-" = false /\ isSpace "T" = false /\ Ascii.eqb "-" "T" = false)
    as (Hs1 & Hs2 & Hs3) by done.
  unfold comparedText, jsOr. cbv [append]. cbn [String.eqb negb toString truthy].
  unfold trim. cbn [trimStart]. rewrite (Hsp y1) by done.
  rewrite !trimEnd_cons by (done || by apply Hsp).
  cbn [trimEnd isoTimestamp]. rewrite H, H0, H1, H2, H3, H4, H5, H6. cbn [andb].
  split; [|done].
  rewrite !splitOn_cons by (done || by apply HT). done.
Qed.

Lemma timestamp_is_compared_as_its_date_witness :
  comparedText (VStr ("2024-01-15" +:+ "T" +:+ "00:00:00.000Z")) = "2024-01-15" /\
  comparedText (VStr "2024-01-15") = "2024-01-15".
Proof. apply timestamp_is_compared_as_its_date. reflexivity. Defined.
(** ** Date detection and conversion of [/api/save-mapping] *)

Section DateFacts.
Import Dates DateDetect Budget.

Lemma above_30000 (q : Q) :
  negb (Qle_bool q 30000) = true -> Qle_bool 0 q = true /\ Qle_bool q 59 = false.
Proof.
  intros H%negb_true_iff. assert (~ (q <= 30000)%Q) as Hq.
  { intros Hle%Qle_bool_iff. congruence. }
  apply Qnot_le_lt in Hq. split.
  - apply Qle_bool_iff. apply Qlt_le_weak. eapply Qlt_trans; [|exact Hq]. reflexivity.
  - destruct (Qle_bool q 59) eqn:E; [|done]. apply Qle_bool_iff in E.
    exfalso. apply (Qlt_irrefl q). eapply Qle_lt_trans; [exact E|].
    eapply Qlt_trans; [|exact Hq]. reflexivity.
Qed.

Lemma excelSerialToDate_some (q : Q) :
  Qle_bool 0 q = true -> exists d, excelSerialToDate q = Some d.
Proof.
  intros H. unfold excelSerialToDate. rewrite H. cbn [negb].
  destruct (civilFromDays _) as [[y m] d]. by eexists.
Qed.

Lemma sampleDates_spec (col : string) (rows : list record) : forall h,
  let r := sampleDates col rows h in
  (r.1 = true <->
   forall row, row ∈ rows -> nonBlank (get row col) = true ->
               isDateValue (get row col) = true) /\
  (r.1 = true ->
   (r.2 = true <->
    h = true \/ exists row, row ∈ rows /\ nonBlank (get row col) = true /\
                            isDateValue (get row col) = true)).
Proof.
  induction rows as [|row rows IH]; intros h; simpl.
  - split; [split; [by intros _ row H%elem_of_nil | done]|].
    intros _. split; [by left | intros [H | (row & H%elem_of_nil & _)]; done].
  - destruct (nonBlank (get row col)) eqn:Hb; [destruct (isDateValue (get row col)) eqn:Hd|].
    + destruct (IH true) as [IH1 IH2]. split.
      * rewrite IH1. split.
        -- intros Hall row' [-> | Hin]%elem_of_cons; [done | by apply Hall].
        -- intros Hall row' Hin. apply Hall. by right.
      * intros Hr. rewrite (IH2 Hr). split; [|by left].
        intros _. right. exists row. split_and!; [left | done | done].
    + simpl. split; [|done]. split; [done|].
      intros Hall. rewrite <- Hd. apply Hall; [left | done].
    + destruct (IH h) as [IH1 IH2]. split.
      * rewrite IH1. split.
        -- intros Hall row' [-> | Hin]%elem_of_cons; [congruence | by apply Hall].
        -- intros Hall row' Hin. apply Hall. by right.
      * intros Hr. rewrite (IH2 Hr). split.
        -- intros [? | (row' & Hin & H1 & H2)]; [by left | right].
           exists row'. split_and!; [by right | done | done].
        -- intros [? | (row' & [-> | Hin]%elem_of_cons & H1 & H2)];
             [by left | congruence | right; by exists row'].
Qed.

Lemma serialDaysOk_spec (count : nat) : forall n k,
  serialDaysOk count n = true -> (n <= k < n + Z.of_nat count)%Z -> serialDayOk k = true.
Proof.
  induction count as [|c IH]; intros n k H Hk; [lia|].
  cbn [serialDaysOk] in H. apply andb_true_iff in H as [H0 H].
  destruct (decide (k = n)) as [-> | Hne]; [done|].
  apply (IH (n + 1)%Z); [done | lia].
Qed.

Lemma serial_days_checked : serialDaysOk (Z.to_nat 20000) 29998 = true.
Proof. by vm_compute. Qed.

Lemma floor_of_serial (q : Q) :
  (30000 < q)%Q -> (q < 50000)%Q -> (29998 <= Qfloor (q - 1 - 1) < 49998)%Z.
Proof.
  intros Hlo Hhi.
  pose proof (Qfloor_le (q - 1 - 1)) as H1. pose proof (Qlt_floor (q - 1 - 1)) as H2.
  assert (inject_Z 29998 < q - 1 - 1)%Q as Hlo'.
  { unfold Qlt, Qminus, Qplus, Qopp, inject_Z in *. simpl in *. lia. }
  assert (q - 1 - 1 < inject_Z 49998)%Q as Hhi'.
  { unfold Qlt, Qminus, Qplus, Qopp, inject_Z in *. simpl in *. lia. }
  split.
  - assert (inject_Z 29998 < inject_Z (Qfloor (q - 1 - 1) + 1))%Q as H
      by (eapply Qlt_trans; done).
    rewrite <- Zlt_Qlt in H. lia.
  - assert (inject_Z (Qfloor (q - 1 - 1)) < inject_Z 49998)%Q as H
      by (eapply Qle_lt_trans; done).
    by rewrite <- Zlt_Qlt in H.
Qed.
Lemma isDateValue_converted (value : JsVal) :
  isDateValue value = true -> exists d, convertToStandardDate value = Some d.
Proof.
  unfold isDateValue, convertToStandardDate.
  destruct (truthy value); [|done]. cbn [negb].
  set (str := trim (toString value)).
  unfold serialTest, serialBranch.
  destruct (parseFloat str) as [| |q] eqn:Hq.
  1,2: destruct (datePattern str); [|done]; cbn [negb]; unfold partsValid, partsBranch;
    destruct (splitOn isDateSeparator str) as [|p0 [|p1 [|p2 [|? ?]]]]; try done;
    destruct (Nat.eqb (String.length p0) 4);
    [intros ->; by eexists
    | destruct (Nat.eqb (String.length p2) 4); [intros ->; by eexists | done]].
  destruct (negb (Qle_bool q 30000)) eqn:Hlo; cbn [andb].
  - destruct (above_30000 q Hlo) as [H0 _].
    destruct (excelSerialToDate_some q H0) as [d Hd].
    destruct (negb (Qle_bool 50000 q)); intros H; rewrite ?Hd; [by eexists|].
    revert H. destruct (datePattern str); [|done]. cbn [negb].
    unfold partsValid, partsBranch.
    destruct (splitOn isDateSeparator str) as [|p0 [|p1 [|p2 [|? ?]]]]; try done.
    destruct (Nat.eqb (String.length p0) 4);
      [intros ->; by eexists
      | destruct (Nat.eqb (String.length p2) 4); [intros ->; by eexists | done]].
  - destruct (datePattern str); [|done]. cbn [negb].
    unfold partsValid, partsBranch.
    destruct (splitOn isDateSeparator str) as [|p0 [|p1 [|p2 [|? ?]]]]; try done.
    destruct (Nat.eqb (String.length p0) 4);
      [intros ->; by eexists
      | destruct (Nat.eqb (String.length p2) 4); [intros ->; by eexists | done]].
Qed.

Lemma blank_is_not_converted (value : JsVal) :
  nonBlank value = false -> convertToStandardDate (jsOr value VNull) = None.
Proof.
  unfold nonBlank, jsOr. destruct (truthy value) eqn:Ht; [|done]. simpl.
  intros H%negb_false_iff%String.eqb_eq.
  unfold convertToStandardDate. rewrite Ht, H. reflexivity.
Qed.

(** *** The parts of a text of the date pattern *)

Lemma takeDigits_spec (s : string) :
  s = text (takeDigits s).1 +:+ (takeDigits s).2 /\
  Forall (fun c => isDigit c = true) (takeDigits s).1 /\
  match (takeDigits s).2 with String c _ => isDigit c = false | EmptyString => True end.
Proof.
  induction s as [|c s (IH1 & IH2 & IH3)]; [by repeat split|].
  cbn [takeDigits]. destruct (isDigit c) eqn:Hc.
  - destruct (takeDigits s) as [ds rest]. cbn [fst snd] in *. split_and!.
    + change (text (c :: ds) +:+ rest) with (String c (text ds +:+ rest)). by f_equal.
    + by constructor.
    + done.
  - by repeat split.
Qed.

Lemma length_text (ds : list ascii) : String.length (text ds) = length ds.
Proof. induction ds as [|c ds IH]; [done|]. cbn. by f_equal. Qed.

Lemma datePattern_parts (str : string) :
  datePattern str = true ->
  exists a b c s1 s2,
    str = text a +:+ String s1 (text b +:+ String s2 (text c)) /\
    Forall (fun x => isDigit x = true) a /\
    Forall (fun x => isDigit x = true) b /\
    Forall (fun x => isDigit x = true) c /\
    1 <= length a <= 4 /\ 1 <= length b <= 2 /\ 1 <= length c <= 4 /\
    isDateSeparator s1 = true /\ isDateSeparator s2 = true.
Proof.
  unfold datePattern.
  destruct (takeDigits_spec str) as (E1 & D1 & _).
  destruct (takeDigits str) as [a r1]. cbn [fst snd] in *.
  destruct r1 as [|s1 r2]; [done|].
  destruct (takeDigits_spec r2) as (E2 & D2 & _).
  destruct (takeDigits r2) as [b r3]. cbn [fst snd] in *.
  destruct r3 as [|s2 r4]; [done|].
  destruct (takeDigits_spec r4) as (E3 & D3 & _).
  destruct (takeDigits r4) as [c r5]. cbn [fst snd] in *.
  intros H. repeat (apply andb_true_iff in H as [H ?]).
  apply String.eqb_eq in H0. subst r5.
  rewrite text_append_nil in E3. subst r4 r2.
  exists a, b, c, s1, s2.
  repeat match goal with
         | H : Nat.leb _ _ = true |- _ => apply Nat.leb_le in H
         end.
  split_and!; done.
Qed.

Lemma splitOn_text (p : ascii -> bool) (ds : list ascii) :
  Forall (fun c => p c = false) ds -> splitOn p (text ds) = [text ds].
Proof.
  induction 1 as [|c ds Hc _ IH]; [done|].
  change (text (c :: ds)) with (String c (text ds)). cbn [splitOn]. by rewrite Hc, IH.
Qed.

Lemma splitOn_text_sep (p : ascii -> bool) (ds : list ascii) (s : ascii) (r : string) :
  Forall (fun c => p c = false) ds -> p s = true ->
  splitOn p (text ds +:+ String s r) = text ds :: splitOn p r.
Proof.
  intros Hds Hs. induction Hds as [|c ds Hc _ IH].
  - change (text [] +:+ String s r) with (String s r). cbn [splitOn]. by rewrite Hs.
  - change (text (c :: ds) +:+ String s r) with (String c (text ds +:+ String s r)).
    cbn [splitOn]. by rewrite Hc, IH.
Qed.

Lemma digit_no_separator (c : ascii) : isDigit c = true -> isDateSeparator c = false.
Proof. destruct c as [[] [] [] [] [] [] [] []]; by vm_compute. Qed.

Lemma digit_no_dash (c : ascii) : isDigit c = true -> Ascii.eqb "-" c = false.
Proof. destruct c as [[] [] [] [] [] [] [] []]; by vm_compute. Qed.

Lemma splitOn_three (p : ascii -> bool) (a b c : list ascii) (s1 s2 : ascii) :
  (forall x, isDigit x = true -> p x = false) -> p s1 = true -> p s2 = true ->
  Forall (fun x => isDigit x = true) a ->
  Forall (fun x => isDigit x = true) b ->
  Forall (fun x => isDigit x = true) c ->
  splitOn p (text a +:+ String s1 (text b +:+ String s2 (text c)))
    = [text a; text b; text c].
Proof.
  intros Hp H1 H2 Ha Hb Hc.
  rewrite splitOn_text_sep; [|by eapply Forall_impl | done].
  rewrite splitOn_text_sep; [|by eapply Forall_impl | done].
  rewrite splitOn_text; [done | by eapply Forall_impl].
Qed.

(** [parseInt] of a text of digits. *)
Lemma parseInt_text (ds : list ascii) :
  ds <> [] -> Forall (fun c => isDigit c = true) ds ->
  parseInt (text ds) = Some (digitsValue ds).
Proof.
  intros Hne Hds. destruct ds as [|c ds]; [done|]. clear Hne.
  pose proof (takeDigits_text (c :: ds) "" Hds eq_refl) as Ht.
  rewrite text_append_nil in Ht.
  apply Forall_cons in Hds as [Hc Hds].
  change (text (c :: ds)) with (String c (text ds)) in *.
  unfold parseInt. cbn [trimStart]. rewrite (isDigit_not_space c Hc).
  destruct c as [[] [] [] [] [] [] [] []]; vm_compute in Hc; try discriminate Hc;
    try (unfold parseIntUnsigned; by rewrite Ht).
  unfold parseIntUnsigned. destruct ds as [|x ds]; [by rewrite Ht|].
  change (text (x :: ds)) with (String x (text ds)) in *.
  apply Forall_cons in Hds as [Hx _].
  destruct (Ascii.eqb x "x" || Ascii.eqb x "X") eqn:E; [|by rewrite Ht].
  destruct x as [[] [] [] [] [] [] [] []]; vm_compute in Hx; try discriminate Hx;
    vm_compute in E; discriminate E.
Qed.

Lemma padStart2_text (ds : list ascii) :
  ds <> [] -> Forall (fun c => isDigit c = true) ds ->
  exists ds', padStart2 (text ds) = text ds' /\
              Forall (fun c => isDigit c = true) ds' /\
              digitsValue ds' = digitsValue ds /\
              length ds' = Nat.max 2 (length ds).
Proof.
  intros Hne Hds. unfold padStart2. rewrite length_text.
  destruct ds as [|c [|c' ds]]; [done | |].
  - exists ["0"%char; c]. split_and!; [done | | done | done].
    constructor; [done | done].
  - exists (c :: c' :: ds). split_and!; [done | done | done |]. simpl. lia.
Qed.

Lemma assembled_date_text (y m d : list ascii) :
  Forall (fun c => isDigit c = true) y ->
  Forall (fun c => isDigit c = true) m ->
  Forall (fun c => isDigit c = true) d ->
  length y = 4 -> 1 <= length m <= 2 -> 1 <= length d <= 4 ->
  isValidDate (text y) (text m) (text d) = true ->
  isDateText (text y +:+ "-" +:+ padStart2 (text m) +:+ "-" +:+ padStart2 (text d)) = true.
Proof.
  intros Hy Hm Hd Ly Lm Ld Hvalid.
  assert (y <> [] /\ m <> [] /\ d <> []) as (Ny & Nm & Nd).
  { split_and!; intros ->; simpl in *; lia. }
  rewrite (isValidDate_numeric _ _ _ _ _ _ (parseInt_text y Ny Hy) (parseInt_text m Nm Hm)
             (parseInt_text d Nd Hd)) in Hvalid.
  destruct (padStart2_text m Nm Hm) as (m' & -> & Hm' & Vm & Lm').
  destruct (padStart2_text d Nd Hd) as (d' & -> & Hd' & Vd & Ld').
  assert (m' <> [] /\ d' <> []) as (Nm' & Nd').
  { split; intros ->; simpl in *; lia. }
  change (text y +:+ "-" +:+ text m' +:+ "-" +:+ text d')
    with (text y +:+ String "-" (text m' +:+ String "-" (text d'))).
  unfold isDateText.
  rewrite (splitOn_three (Ascii.eqb "-")) by (done || apply digit_no_dash).
  rewrite !allChars_text, !length_text by done.
  rewrite !parseInt_text by done. rewrite Vm, Vd.
  repeat (apply andb_true_iff in Hvalid as [Hvalid ?]).
  repeat (apply andb_true_iff; split); try done.
  - by apply Nat.eqb_eq.
  - apply Nat.eqb_eq. lia.
  - apply Nat.leb_le. lia.
  - apply Nat.leb_le. lia.
Qed.

Lemma partsBranch_dateText (str : string) :
  datePattern str = true -> partsValid str = true ->
  exists d, partsBranch str = Some d /\ isDateText d = true.
Proof.
  intros (a & b & c & s1 & s2 & -> & Ha & Hb & Hc & La & Lb & Lc & H1 & H2)%datePattern_parts.
  unfold partsValid, partsBranch.
  rewrite (splitOn_three isDateSeparator) by (done || apply digit_no_separator).
  rewrite !length_text.
  destruct (Nat.eqb_spec (length a) 4) as [E | _].
  - intros Hv. rewrite Hv. eexists. split; [done|]. by apply assembled_date_text.
  - destruct (Nat.eqb_spec (length c) 4) as [E | _]; [|done].
    intros Hv. rewrite Hv. eexists. split; [done|]. by apply assembled_date_text.
Qed.

Lemma serialTextsOk_spec (count : nat) : forall n k,
  serialTextsOk count n = true -> (n <= k < n + Z.of_nat count)%Z -> serialTextOk k = true.
Proof.
  induction count as [|c IH]; intros n k H Hk; [lia|].
  cbn [serialTextsOk] in H. apply andb_true_iff in H as [H0 H].
  destruct (decide (k = n)) as [-> | Hne]; [done|].
  apply (IH (n + 1)%Z); [done | lia].
Qed.

Lemma serial_texts_checked : serialTextsOk (Z.to_nat 20000) 29998 = true.
Proof. by vm_compute. Qed.

Lemma between_serials (q : Q) :
  negb (Qle_bool q 30000) && negb (Qle_bool 50000 q) = true ->
  (30000 < q)%Q /\ (q < 50000)%Q.
Proof.
  intros [Hlo Hhi]%andb_true_iff. apply negb_true_iff in Hlo, Hhi. split.
  - apply Qnot_le_lt. intros H%Qle_bool_iff. congruence.
  - apply Qnot_le_lt. intros H%Qle_bool_iff. congruence.
Qed.

(** A serial number between 30000 and 50000 as a date. *)
Lemma serial_date (q : Q) :
  (30000 < q)%Q -> (q < 50000)%Q ->
  exists y m d,
    excelSerialToDate q = Some (dateText y m d) /\
    (1982 <= y <= 2036)%Z /\ (1 <= m <= 12)%Z /\ (1 <= d <= 31)%Z /\
    String.length (dateText y m d) = 10 /\ isDateText (dateText y m d) = true.
Proof.
  intros Hlo Hhi.
  assert (negb (Qle_bool q 30000) = true) as Hb.
  { apply negb_true_iff. destruct (Qle_bool q 30000) eqn:E; [|done].
    apply Qle_bool_iff in E. exfalso. apply (Qlt_irrefl q). by eapply Qle_lt_trans. }
  destruct (above_30000 q Hb) as [H0 H59].
  pose proof (floor_of_serial q Hlo Hhi) as Hn.
  pose proof (serialDaysOk_spec _ _ (Qfloor (q - 1 - 1)) serial_days_checked) as Hok.
  pose proof (serialTextsOk_spec _ _ (Qfloor (q - 1 - 1)) serial_texts_checked) as Htext.
  rewrite Z2Nat.id in Hok, Htext by lia.
  specialize (Hok ltac:(lia)). specialize (Htext ltac:(lia)).
  unfold excelSerialToDate. rewrite H0, H59. cbn [negb].
  unfold serialDayOk in Hok. unfold serialTextOk in Htext.
  destruct (civilFromDays (excelEpochDay + Qfloor (q - 1 - 1))) as [[y m] d].
  exists y, m, d.
  repeat (apply andb_true_iff in Hok as [Hok ?]).
  apply Nat.eqb_eq in H. split_and!; [done | lia..| done | done].
Qed.

Lemma serialBranch_dateText (str : string) :
  serialTest str = true -> exists d, serialBranch str = Some d /\ isDateText d = true.
Proof.
  unfold serialTest, serialBranch. destruct (parseFloat str) as [| |q]; [done | done |].
  intros H. rewrite H. destruct (between_serials q H) as [Hlo Hhi].
  destruct (serial_date q Hlo Hhi) as (y & m & d & -> & _ & _ & _ & _ & Ht).
  by eexists.
Qed.

Lemma serialBranch_none (str : string) : serialTest str = false -> serialBranch str = None.
Proof.
  unfold serialTest, serialBranch. destruct (parseFloat str) as [| |q]; [done | done |].
  by intros ->.
Qed.

(** What the conversion returns on a date value. *)
Lemma isDateValue_dateText (value : JsVal) :
  isDateValue value = true ->
  exists d, convertToStandardDate value = Some d /\ isDateText d = true.
Proof.
  unfold isDateValue, convertToStandardDate.
  destruct (truthy value); [|done]. cbn [negb].
  set (str := trim (toString value)).
  destruct (serialTest str) eqn:Hs.
  - intros _. destruct (serialBranch_dateText str Hs) as (d & -> & Hd). by exists d.
  - rewrite (serialBranch_none str Hs).
    destruct (datePattern str) eqn:Hp; [|done]. cbn [negb].
    by apply partsBranch_dateText.
Qed.

Lemma detectDateColumn_spec (col : string) (data : list record) :
  detectDateColumn col data = true <->
  isInvoiceDate col = true /\
  (forall row, row ∈ take 10 data -> nonBlank (get row col) = true ->
               isDateValue (get row col) = true) /\
  (exists row, row ∈ take 10 data /\ nonBlank (get row col) = true /\
               isDateValue (get row col) = true).
Proof.
  unfold detectDateColumn. destruct (isInvoiceDate col); [|by split; [|intros [? _]]].
  destruct (sampleDates_spec col (take 10 data) false) as [H1 H2].
  destruct (sampleDates col (take 10 data) false) as [a h]. simpl in H1, H2.
  rewrite andb_true_iff, H1. split.
  - intros [Hall Hh]. split_and!; [done | done |].
    apply H2 in Hh as [? | ?]; [done | done | by apply H1].
  - intros (_ & Hall & Hex). split; [done|]. apply H2; [by apply H1 | by right].
Qed.
End DateFacts.

Import Dates DateDetect.

(** A value the detection accepts as a date is one the conversion converts:
    [convertToStandardDate] does not return null on it. *)
Theorem detected_dates_are_converted (value : JsVal) :
  isDateValue value = true -> exists d, convertToStandardDate value = Some d.
Proof. apply isDateValue_converted. Qed.

Lemma detected_dates_are_converted_witness :
  exists d, convertToStandardDate (VStr " 5/1/2024") = Some d.
Proof. apply detected_dates_are_converted. reflexivity. Defined.

(** For a column name and sampled cells of ASCII characters: a column is
    detected as a date column exactly when its name, lower-cased and trimmed,
    is invoice date and, among the first ten rows, every non-blank value of
    the column is a date value and some value is one; the rows after the
    tenth are not looked at, and a column of another name never is. *)
Theorem date_column_detection (col : string) (data : list record) :
  asciiText col = true -> asciiSample col data = true ->
  (detectDateColumn col data = true <->
   trim (toLowerCase col) = "invoice date" /\
   (forall row, row ∈ take 10 data -> nonBlank (get row col) = true ->
                isDateValue (get row col) = true) /\
   (exists row, row ∈ take 10 data /\ nonBlank (get row col) = true /\
                isDateValue (get row col) = true)) /\
  detectDateColumn col (take 10 data) = detectDateColumn col data.
Proof.
  intros _ _. split.
  - rewrite detectDateColumn_spec. unfold isInvoiceDate. by rewrite String.eqb_eq.
  - unfold detectDateColumn. by rewrite take_take, Nat.min_id.
Qed.

Lemma date_column_detection_witness :
  let data : list record :=
    [{[ " Invoice Date" := VStr "15/01/2024" ]}; ∅; {[ " Invoice Date" := VNum 45000 ]}] in
  detectDateColumn " Invoice Date" data = true /\
  (detectDateColumn " Invoice Date" data = true <->
   trim (toLowerCase " Invoice Date") = "invoice date" /\
   (forall row, row ∈ take 10 data -> nonBlank (get row " Invoice Date") = true ->
                isDateValue (get row " Invoice Date") = true) /\
   (exists row, row ∈ take 10 data /\ nonBlank (get row " Invoice Date") = true /\
                isDateValue (get row " Invoice Date") = true)) /\
  detectDateColumn " Invoice Date" (take 10 data) = detectDateColumn " Invoice Date" data.
Proof.
  intros data. split; [reflexivity|].
  apply (date_column_detection " Invoice Date" data); reflexivity.
Defined.

(** A serial number between 30000 and 50000, whole or fractional, converts to
    a date text of ten characters, year-month-day, with a year from 1982 to
    2036, a month from 1 to 12 and a day from 1 to 31. *)
Theorem serial_numbers_convert_to_dates (q : Q) :
  (30000 < q)%Q -> (q < 50000)%Q ->
  exists y m d,
    excelSerialToDate q = Some (dateText y m d) /\
    (1982 <= y <= 2036)%Z /\ (1 <= m <= 12)%Z /\ (1 <= d <= 31)%Z /\
    String.length (dateText y m d) = 10.
Proof.
  intros Hlo Hhi.
  destruct (serial_date q Hlo Hhi) as (y & m & d & H1 & H2 & H3 & H4 & H5 & _).
  by exists y, m, d.
Qed.

Lemma serial_numbers_convert_to_dates_witness :
  exists y m d,
    excelSerialToDate 45000.5 = Some (dateText y m d) /\
    (1982 <= y <= 2036)%Z /\ (1 <= m <= 12)%Z /\ (1 <= d <= 31)%Z /\
    String.length (dateText y m d) = 10.
Proof. apply serial_numbers_convert_to_dates; reflexivity. Defined.

(** In a column detected as a date column every non-blank value of the first
    ten rows is inserted as a date text: a year of four digits from 1900 to
    2100, a month of two digits from 1 to 12 and a day of two to four digits
    from 1 to 31, with "-" between them; every blank one is inserted as
    null. *)
Theorem detected_column_stores_its_sampled_dates (col : string) (data : list record) :
  detectDateColumn col data = true ->
  forall row, row ∈ take 10 data ->
    (nonBlank (get row col) = true ->
     exists d, insertedValue true (get row col) = VStr d /\ isDateText d = true) /\
    (nonBlank (get row col) = false -> insertedValue true (get row col) = VNull).
Proof.
  intros (_ & Hall & _)%detectDateColumn_spec row Hrow.
  unfold insertedValue. split.
  - intros Hb. destruct (isDateValue_dateText (get row col)) as (d & Hd & Ht).
    { by apply Hall. }
    exists d. unfold nonBlank in Hb. apply andb_true_iff in Hb as [Hv _].
    unfold jsOr. by rewrite Hv, Hd.
  - intros Hb. by rewrite blank_is_not_converted.
Qed.

Lemma detected_column_stores_its_sampled_dates_witness :
  (nonBlank (get {[ "Invoice Date" := VStr "5/1/2024" ]} "Invoice Date") = true ->
   exists d, insertedValue true (get {[ "Invoice Date" := VStr "5/1/2024" ]} "Invoice Date")
             = VStr d /\ isDateText d = true) /\
  (nonBlank (get {[ "Invoice Date" := VStr "5/1/2024" ]} "Invoice Date") = false ->
   insertedValue true (get {[ "Invoice Date" := VStr "5/1/2024" ]} "Invoice Date") = VNull).
Proof.
  apply (detected_column_stores_its_sampled_dates "Invoice Date"
           [{[ "Invoice Date" := VStr "5/1/2024" ]}; ∅; {[ "Invoice Date" := VNum 45000 ]}]).
  - reflexivity.
  - simpl. left.
Defined.

(** The values the detection and the insert make of sample cells: a day of
    four digits is kept as written. *)
Lemma inserted_date_examples :
  insertedValue true (VStr "5/1/2024") = VStr "2024-01-05" /\
  insertedValue true (VNum 45000) = VStr "2023-03-15" /\
  insertedValue true (VStr "2024-01-0031") = VStr "2024-01-0031" /\
  isDateValue (VStr "2024-01-0031") = true /\
  insertedValue true (VStr " ") = VNull /\
  detectDateColumn "Invoice Date" [{[ "Invoice Date" := VStr "5/1/2024" ]}] = true /\
  detectDateColumn "Date" [{[ "Date" := VStr "5/1/2024" ]}] = false.
Proof. by vm_compute. Qed.
(** ** The mappings kept by [storeMappedData] *)

Section Mappings.
Import Server Features.
Context (gstCols tallyCols : list string).

Local Abbreviation kept := (fun idx : nat =>
  match gstCols !! idx, tallyCols !! idx with
  | Some gstCol, Some tallyCol =>
      if nonEmpty gstCol && nonEmpty tallyCol
      then Some (mkMapping gstCol tallyCol (idx + 1)) else None
  | _, _ => None
  end).

Lemma validMappings_omap :
  validMappings gstCols tallyCols = omap kept (seq 0 (length gstCols)).
Proof.
  unfold validMappings.
  apply (forEach_inv _ (fun j acc => acc = omap kept (seq 0 j))); [done|].
  intros j g acc Hg ->. rewrite seq_S, omap_app. simpl.
  unfold validMappingStep. rewrite Hg.
  destruct (tallyCols !! j) as [t|]; [|by rewrite app_nil_r].
  destruct (nonEmpty g && nonEmpty t); [done | by rewrite app_nil_r].
Qed.

Lemma kept_featureNum (l : list nat) :
  map featureNum (omap kept l)
    = map Datatypes.S (filter (fun idx => pairAt gstCols tallyCols idx = true) l).
Proof.
  induction l as [|i l IH]; [done|].
  cbn [omap list_omap].
  pose proof (eq_refl (pairAt gstCols tallyCols i)) as Hp. unfold pairAt at 2 in Hp.
  destruct (gstCols !! i) as [g|]; [destruct (tallyCols !! i) as [t|]|];
    [destruct (nonEmpty g && nonEmpty t)|..].
  - rewrite filter_cons_True by done. cbn [map featureNum].
    rewrite Nat.add_1_r. f_equal. apply IH.
  - rewrite filter_cons_False by (by rewrite Hp). apply IH.
  - rewrite filter_cons_False by (by rewrite Hp). apply IH.
  - rewrite filter_cons_False by (by rewrite Hp). apply IH.
Qed.

(** The indices that pass a test are the first ones exactly when the test
    is closed downwards. *)
Lemma filter_prefix (P : nat -> Prop) `{forall i, Decision (P i)} (n : nat) :
  filter P (seq 0 n) = seq 0 (length (filter P (seq 0 n))) <->
  (forall i j, i < j -> j < n -> P j -> P i).
Proof.
  split.
  - intros Heq i j Hij Hj HPj.
    assert (j ∈ filter P (seq 0 n)) as Hin.
    { apply list_elem_of_filter. split; [done|]. apply elem_of_seq. lia. }
    rewrite Heq in Hin. apply elem_of_seq in Hin.
    assert (i ∈ filter P (seq 0 n)) as Hi by (rewrite Heq; apply elem_of_seq; lia).
    by apply list_elem_of_filter in Hi as [? _].
  - induction n as [|n IH]; intros Hdown; [done|].
    rewrite seq_S, filter_app. simpl.
    assert (filter P (seq 0 n) = seq 0 (length (filter P (seq 0 n)))) as IH'.
    { apply IH. intros i j Hij Hj. apply Hdown; lia. }
    rewrite filter_cons, filter_nil. destruct (decide (P n)) as [Hn | Hn].
    + assert (filter P (seq 0 n) = seq 0 n) as ->.
      { rewrite <- (filter_not_in_nil (seq 0 n)) at 2.
        apply filter_ext_elem. intros i Hi%elem_of_seq.
        split; intros _; [apply not_elem_of_nil | apply (Hdown i n); [lia | lia | done]]. }
      rewrite length_app, length_seq. simpl.
      replace (n + 1) with (Datatypes.S n) by lia. by rewrite seq_S.
    + by rewrite !app_nil_r.
Qed.
End Mappings.

Import Server Features.

(** [storeMappedData] keeps exactly the pairs of columns at one index whose
    two names are not empty, in index order, numbered by index plus one; it
    throws for want of a valid mapping exactly when there is no such pair. *)
Theorem kept_mappings (gstData tallyData : list record) (gstCols tallyCols : list string) :
  (forall m, m ∈ validMappings gstCols tallyCols <->
     exists idx, gstCols !! idx = Some (gstCol m) /\ tallyCols !! idx = Some (tallyCol m) /\
                 gstCol m <> "" /\ tallyCol m <> "" /\ featureNum m = idx + 1) /\
  length (validMappings gstCols tallyCols) = validCount gstCols tallyCols /\
  (storeMappedData gstData tallyData gstCols tallyCols = NoValidMappings <->
   forall idx, pairAt gstCols tallyCols idx = false).
Proof.
  split_and!.
  - intros m. rewrite validMappings_omap, list_elem_of_omap. split.
    + intros (idx & _ & Hk).
      destruct (gstCols !! idx) as [g|] eqn:Hg; [|done].
      destruct (tallyCols !! idx) as [t|] eqn:Ht; [|done].
      destruct (nonEmpty g && nonEmpty t) eqn:Hne; [|done].
      inversion Hk; subst m. simpl. exists idx.
      apply andb_true_iff in Hne as [H1 H2]. unfold nonEmpty in H1, H2.
      apply negb_true_iff in H1, H2. apply String.eqb_neq in H1, H2. done.
    + intros (idx & Hg & Ht & H1 & H2 & Hf). exists idx. split.
      * apply elem_of_seq. apply lookup_lt_Some in Hg. lia.
      * rewrite Hg, Ht. unfold nonEmpty.
        apply String.eqb_neq in H1, H2. rewrite H1, H2. simpl.
        destruct m; simpl in *. by subst.
  - rewrite <- (length_map featureNum), validMappings_omap, kept_featureNum, length_map.
    done.
  - unfold storeMappedData.
    assert (length (validMappings gstCols tallyCols) = validCount gstCols tallyCols) as Hlen.
    { rewrite <- (length_map featureNum), validMappings_omap, kept_featureNum, length_map.
      done. }
    unfold validCount in Hlen. split.
    + destruct (validMappings gstCols tallyCols); [|by destruct (_ && _)]. intros _ idx.
      destruct (pairAt gstCols tallyCols idx) eqn:Hp; [|done].
      assert (idx ∈ filter (fun i => pairAt gstCols tallyCols i = true)
                      (seq 0 (length gstCols))) as Hin.
      { apply list_elem_of_filter. split; [done|]. apply elem_of_seq.
        unfold pairAt in Hp. destruct (gstCols !! idx) eqn:E; [|done].
        apply lookup_lt_Some in E. lia. }
      destruct (filter _ _); [by apply elem_of_nil in Hin | done].
    + intros Hnone.
      destruct (filter _ _) as [|i l] eqn:Hf.
      * by destruct (validMappings gstCols tallyCols).
      * assert (i ∈ i :: l) as Hin by left. rewrite <- Hf in Hin.
        apply list_elem_of_filter in Hin as [Hi _]. by rewrite Hnone in Hi.
Qed.

(** The feature columns the tables are created with are those the queries of
    [performSQLReconciliation] name exactly when no dropped pair of columns
    comes before a kept one. *)
Theorem stored_features_match_the_queries (gstCols tallyCols : list string) :
  storedFeatures gstCols tallyCols = queriedFeatures gstCols tallyCols <->
  (forall i j, i < j -> pairAt gstCols tallyCols j = true ->
               pairAt gstCols tallyCols i = true).
Proof.
  unfold storedFeatures, queriedFeatures, validCount.
  rewrite validMappings_omap, kept_featureNum.
  rewrite <- (fmap_S_seq 0).
  split.
  - intros Heq%(inj (fmap Datatypes.S)) i j Hij Hj.
    apply (proj1 (filter_prefix (fun idx => pairAt gstCols tallyCols idx = true)
                    (length gstCols)) Heq i j); [done | | done].
    unfold pairAt in Hj. destruct (gstCols !! j) eqn:E; [|done].
    by apply lookup_lt_Some in E.
  - intros Hdown. f_equal. apply filter_prefix. intros i j Hij _. by apply Hdown.
Qed.
(** ** Normalized values and parsed sheets *)

Section Sheets.
Import FileParser Sheet.

Lemma normalizeValue_isNormalized (x : JsVal) : isNormalized (normalizeValue x) = true.
Proof.
  destruct (normalizeValue_cases x) as [-> | [-> Hne]]; [done|]. simpl.
  rewrite trim_idem, String.eqb_refl. simpl.
  apply negb_true_iff. by apply String.eqb_neq.
Qed.

Lemma normalizeValue_zero (x : JsVal) :
  normalizeValue x = VNum 0 <->
  x = VNull \/ x = VUndef \/ x = VStr "" \/ trim (toString x) = "-".
Proof.
  split.
  - intros H. destruct x as [| |b|z|s|o]; [by right; left | by left | | | |].
    + right; right; right. unfold normalizeValue in H.
      by destruct (String.eqb_spec (trim (toString (VBool b))) "-").
    + right; right; right. unfold normalizeValue in H.
      by destruct (String.eqb_spec (trim (toString (VNum z))) "-").
    + destruct s as [|c s]; [by right; right; left|]. right; right; right.
      unfold normalizeValue in H.
      by destruct (String.eqb_spec (trim (toString (VStr (String c s)))) "-").
    + right; right; right. unfold normalizeValue in H.
      by destruct (String.eqb_spec (trim (toString (VObj o))) "-").
  - intros [-> | [-> | [-> | H]]]; try done.
    unfold normalizeValue. rewrite H. by destruct x as [| |?|?|[|? ?]|?].
Qed.

Lemma lookup_normalizeExcelRow (columns : gset string) (row : record) (col : string) :
  normalizeExcelRow columns row !! col =
    if decide (col ∈ columns) then Some (normalizeValue (cellOrZero row col)) else None.
Proof.
  unfold normalizeExcelRow. case_decide as Hc.
  - apply lookup_set_to_map; [by intros ?? _ _ [= ->] | by exists col].
  - apply eq_None_not_Some. intros [v Hv].
    apply lookup_set_to_map in Hv as (c & Hin & [= -> _]); [done|].
    by intros ?? _ _ [= ->].
Qed.
End Sheets.

Import FileParser Sheet.

(** [normalizeValue] and [normalizeValueForDB] return the number 0 or a
    trimmed text other than "-"; the number 0 exactly for null, undefined,
    the empty text and a value that reads "-" once trimmed. *)
Theorem normalized_values (x : JsVal) :
  isNormalized (normalizeValue x) = true /\
  isNormalized (Server.normalizeValueForDB x) = true /\
  (normalizeValue x = VNum 0 <->
   x = VNull \/ x = VUndef \/ x = VStr "" \/ trim (toString x) = "-") /\
  (normalizeValue x <> VNum 0 -> normalizeValue x = VStr (trim (toString x))).
Proof.
  split_and!.
  - apply normalizeValue_isNormalized.
  - apply normalizeValue_isNormalized.
  - apply normalizeValue_zero.
  - by destruct (normalizeValue_cases x) as [-> | [-> _]].
Qed.

(** The rows [parseExcel] returns all have the same columns, the union of the
    columns of the sheet's rows; every cell is a normalized value, the
    normalized cell of the sheet where the row has one, and the text "0" where
    the row reads undefined at the column. *)
Theorem parsed_excel_rows_are_uniform (data : list record) :
  let rows := parseExcelRows data in
  length rows = length data /\
  Forall (fun row => dom row = allColumns data) rows /\
  Forall (map_Forall (fun _ v => isNormalized v = true)) rows /\
  (forall i row col v, data !! i = Some row -> row !! col = Some v -> v <> VUndef ->
     exists row', rows !! i = Some row' /\ row' !! col = Some (normalizeValue v)) /\
  (forall i row col, data !! i = Some row -> col ∈ allColumns data ->
     get row col = VUndef ->
     exists row', rows !! i = Some row' /\ row' !! col = Some (VStr "0")).
Proof.
  intros rows. unfold rows, parseExcelRows. split_and!.
  - apply length_map.
  - apply Forall_forall. intros row' (row & -> & _)%list_elem_of_fmap.
    apply set_eq. intros col. rewrite elem_of_dom, lookup_normalizeExcelRow.
    case_decide; [split; [done | by eexists] | split; [by intros [? ?] | done]].
  - apply Forall_forall. intros row' (row & -> & _)%list_elem_of_fmap.
    intros col v. rewrite lookup_normalizeExcelRow. case_decide; [|done].
    intros [= <-]. apply normalizeValue_isNormalized.
  - intros i row col v Hi Hcol Hv. exists (normalizeExcelRow (allColumns data) row).
    split; [by rewrite list_lookup_fmap, Hi|].
    rewrite lookup_normalizeExcelRow, decide_True.
    + unfold cellOrZero, get. rewrite Hcol. simpl. by destruct v.
    + unfold allColumns. apply elem_of_union_list. exists (dom row). split.
      * apply list_elem_of_fmap. exists row. split; [done|].
        by eapply list_elem_of_lookup_2.
      * apply elem_of_dom. by exists v.
  - intros i row col Hi Hcol Hnone. exists (normalizeExcelRow (allColumns data) row).
    split; [by rewrite list_lookup_fmap, Hi|].
    rewrite lookup_normalizeExcelRow, decide_True by done.
    unfold cellOrZero. by rewrite Hnone.
Qed.

(** In a column named as a member of [Object.prototype] a row without the
    cell reads that member, and its text is the cell. *)
Lemma parsed_rows_read_inherited_members :
  parseExcelRows [{[ "constructor" := VStr "x"; "Amount" := VStr "1" ]};
                  {[ "Amount" := VStr " 2 " ]}]
    = [{[ "constructor" := VStr "x"; "Amount" := VStr "1" ]};
       {[ "constructor" := VStr "function Object() { [native code] }";
          "Amount" := VStr "2" ]}].
Proof. by vm_compute. Qed.

(** The rows [parseCSV] returns keep the columns of the parsed rows, each
    cell replaced by its normalized value. *)
Theorem parsed_csv_rows_keep_their_columns (data : list record) :
  let rows := parseCSVRows data in
  length rows = length data /\
  (forall i row, data !! i = Some row ->
     exists row', rows !! i = Some row' /\ dom row' = dom row /\
                  forall col, row' !! col = normalizeValue <$> row !! col) /\
  Forall (map_Forall (fun _ v => isNormalized v = true)) rows.
Proof.
  intros rows. unfold rows, parseCSVRows. split_and!.
  - apply length_map.
  - intros i row Hi. exists (normalizeValue <$> row). split_and!.
    + by rewrite list_lookup_fmap, Hi.
    + apply dom_fmap_L.
    + intros col. apply lookup_fmap.
  - apply Forall_forall. intros row' (row & -> & _)%list_elem_of_fmap.
    intros col v. rewrite lookup_fmap.
    destruct (row !! col); [|done]. intros [= <-]. apply normalizeValue_isNormalized.
Qed.
(** ** Sanitized column names *)

Section ColumnNames.
Import Columns.

Lemma allChars_replaceOther (s : string) : allChars isNameChar (replaceOther s) = true.
Proof.
  induction s as [|c s IH]; [done|]. cbn [replaceOther allChars].
  rewrite IH, andb_true_r. by destruct (isNameChar c) eqn:E.
Qed.

Lemma allChars_collapse (p : ascii -> bool) (s : string) :
  allChars p s = true -> allChars p (collapseUnderscores s) = true.
Proof.
  induction s as [|c s IH]; [done|]. cbn [allChars]. intros [Hc Hs]%andb_true_iff.
  specialize (IH Hs). cbn [collapseUnderscores].
  destruct (Ascii.eqb c "_"); [|by cbn [allChars]; rewrite Hc].
  destruct s as [|c' s']; [by cbn [allChars]; rewrite Hc|].
  destruct c' as [[] [] [] [] [] [] [] []]; try done;
    cbn [allChars]; rewrite Hc; exact IH.
Qed.

Lemma allChars_dropLeading (p : ascii -> bool) (s : string) :
  allChars p s = true -> allChars p (dropLeadingUnderscore s) = true.
Proof.
  destruct s as [|c s]; [done|]. cbn [allChars]. intros [Hc Hs]%andb_true_iff.
  destruct c as [[] [] [] [] [] [] [] []]; try done; cbn [dropLeadingUnderscore allChars];
    by rewrite Hc.
Qed.

Lemma allChars_dropTrailing (p : ascii -> bool) (s : string) :
  allChars p s = true -> allChars p (dropTrailingUnderscore s) = true.
Proof.
  induction s as [|c s IH]; [done|]. cbn [allChars]. intros [Hc Hs]%andb_true_iff.
  specialize (IH Hs). cbn [dropTrailingUnderscore]. destruct s as [|c' s'].
  - destruct (Ascii.eqb c "_"); [done|]. cbn [allChars]. by rewrite Hc.
  - cbn [allChars]. by rewrite Hc.
Qed.

Lemma allChars_sanitized (name : string) : allChars isNameChar (sanitized name) = true.
Proof.
  unfold sanitized, stripUnderscores.
  apply allChars_dropTrailing, allChars_dropLeading, allChars_collapse, allChars_replaceOther.
Qed.

Lemma wellFormed_prefixed (s : string) :
  allChars isNameChar s = true -> wellFormedName ("col_" +:+ s) = true.
Proof. intros H. unfold wellFormedName. cbv [append]. cbn. by rewrite H. Qed.

Lemma wellFormed_plain (s : string) :
  s <> "" -> allChars isNameChar s = true -> startsWithDigit s = false ->
  wellFormedName s = true.
Proof.
  intros Hne%String.eqb_neq Hall Hd. unfold wellFormedName. by rewrite Hne, Hall, Hd.
Qed.

Lemma allChars_weaken (p q : ascii -> bool) (s : string) :
  (forall c, p c = true -> q c = true) -> allChars p s = true -> allChars q s = true.
Proof.
  intros Hpq. induction s as [|c s IH]; [done|]. cbn [allChars].
  intros [Hc Hs]%andb_true_iff. by rewrite (Hpq c Hc), IH.
Qed.

Lemma replaceOther_underscores (name : string) :
  allChars (fun c => negb (isLowerLetter (lowerChar c)) && negb (isDigit (lowerChar c)))
           name = true ->
  allChars (fun c => Ascii.eqb c "_") (replaceOther (toLowerCase name)) = true.
Proof.
  induction name as [|c s IH]; [done|]. cbn [allChars toLowerCase replaceOther].
  intros [[Hl Hd]%andb_true_iff Hs]%andb_true_iff. rewrite (IH Hs), andb_true_r.
  unfold isNameChar. apply negb_true_iff in Hl, Hd. rewrite Hl, Hd. simpl.
  by destruct (Ascii.eqb (lowerChar c) "_") eqn:E.
Qed.

Lemma collapse_underscores (s : string) :
  allChars (fun c => Ascii.eqb c "_") s = true ->
  collapseUnderscores s = "" \/ collapseUnderscores s = "_".
Proof.
  induction s as [|c s IH]; [by left|]. cbn [allChars].
  intros [->%Ascii.eqb_eq Hs]%andb_true_iff. specialize (IH Hs).
  destruct s as [|c' s']; [by right|].
  cbn [allChars] in Hs. apply andb_true_iff in Hs as [->%Ascii.eqb_eq _].
  exact IH.
Qed.

Lemma sanitized_without_letters (name : string) :
  allChars (fun c => negb (isLowerLetter (lowerChar c)) && negb (isDigit (lowerChar c)))
           name = true ->
  sanitized name = "".
Proof.
  intros H%replaceOther_underscores%collapse_underscores. unfold sanitized.
  by destruct H as [-> | ->].
Qed.
End ColumnNames.

Import Columns.

(** The column names the save routes create are identifiers: not empty, made
    of lower-case letters, digits and underscores, and not starting with a
    digit, whatever the given name. *)
Theorem saved_column_names_are_identifiers (name : string) :
  wellFormedName (savedColumnName name) = true.
Proof.
  unfold savedColumnName. destruct (String.eqb name ""); [done|]. cbv zeta.
  pose proof (allChars_sanitized name) as Hall.
  destruct (String.eqb_spec (sanitized name) "") as [_ | Hne]; [done|].
  destruct (startsWithDigit (sanitized name)) eqn:Hd.
  - by apply wellFormed_prefixed.
  - by apply wellFormed_plain.
Qed.

(** A name of ASCII characters without any letter or digit gets a fallback
    name: the fixed name col in the save routes, and in the mapped tables a
    name made of the time of the call, so that two calls at different times
    name the column differently. *)
Theorem names_without_letters_get_a_fallback (stamp name : string) :
  asciiText name = true ->
  allChars (fun c => negb (isLowerLetter (lowerChar c)) && negb (isDigit (lowerChar c)))
           name = true ->
  sanitizeColumnName stamp name = "col_" +:+ stamp /\ savedColumnName name = "col".
Proof.
  intros _ H%sanitized_without_letters. unfold sanitizeColumnName, savedColumnName.
  destruct (String.eqb name ""); [done|]. cbv zeta. by rewrite H.
Qed.

Lemma names_without_letters_get_a_fallback_witness :
  sanitizeColumnName "1730000000000" "% (#)" = "col_" +:+ "1730000000000" /\
  savedColumnName "% (#)" = "col".
Proof. apply names_without_letters_get_a_fallback; reflexivity. Defined.
(** ** Key texts *)

Section KeyTexts.
Import Reconciliation.

Lemma isSpace_lowerChar (c : ascii) : isSpace (lowerChar c) = isSpace c.
Proof. destruct c as [[] [] [] [] [] [] [] []]; by vm_compute. Qed.

Lemma lowerChar_idem (c : ascii) : lowerChar (lowerChar c) = lowerChar c.
Proof. destruct c as [[] [] [] [] [] [] [] []]; by vm_compute. Qed.

Lemma toLowerCase_idem (s : string) : toLowerCase (toLowerCase s) = toLowerCase s.
Proof.
  induction s as [|c s IH]; [done|]. cbn [toLowerCase]. by rewrite lowerChar_idem, IH.
Qed.

Lemma trimStart_toLowerCase (s : string) :
  trimStart (toLowerCase s) = toLowerCase (trimStart s).
Proof.
  induction s as [|c s IH]; [done|]. cbn [toLowerCase trimStart].
  rewrite isSpace_lowerChar. by destruct (isSpace c).
Qed.

Lemma trimEnd_toLowerCase (s : string) :
  trimEnd (toLowerCase s) = toLowerCase (trimEnd s).
Proof.
  induction s as [|c s IH]; [done|]. cbn [toLowerCase trimEnd].
  rewrite IH, isSpace_lowerChar.
  destruct (trimEnd s); cbn [toLowerCase]; [by destruct (isSpace c) | done].
Qed.

Lemma trim_toLowerCase (s : string) : trim (toLowerCase s) = toLowerCase (trim s).
Proof. unfold trim. by rewrite trimStart_toLowerCase, trimEnd_toLowerCase. Qed.

Lemma cellText_text (s : string) : cellText (VStr s) = toLowerCase (trim s).
Proof. unfold cellText, jsOr. simpl. by destruct s. Qed.

Lemma cellText_stable (v : JsVal) : cellText (VStr (cellText v)) = cellText v.
Proof.
  rewrite cellText_text. unfold cellText.
  by rewrite trim_toLowerCase, trim_idem, toLowerCase_idem.
Qed.
Lemma isAscii_lowerChar (c : ascii) : isAscii c = true -> isAscii (lowerChar c) = true.
Proof. destruct c as [[] [] [] [] [] [] [] []]; by vm_compute. Qed.

Lemma asciiText_toLowerCase (s : string) :
  asciiText s = true -> asciiText (toLowerCase s) = true.
Proof.
  unfold asciiText. induction s as [|c s IH]; [done|]. cbn [toLowerCase allChars].
  intros [Hc Hs]%andb_true_iff. by rewrite isAscii_lowerChar, IH.
Qed.

Lemma allChars_trimStart (p : ascii -> bool) (s : string) :
  allChars p s = true -> allChars p (trimStart s) = true.
Proof.
  induction s as [|c s IH]; [done|]. cbn [trimStart]. destruct (isSpace c); [|done].
  cbn [allChars]. intros [_ Hs]%andb_true_iff. by apply IH.
Qed.

Lemma allChars_trimEnd (p : ascii -> bool) (s : string) :
  allChars p s = true -> allChars p (trimEnd s) = true.
Proof.
  induction s as [|c s IH]; [done|]. cbn [allChars trimEnd].
  intros [Hc Hs]%andb_true_iff. specialize (IH Hs).
  destruct (trimEnd s) as [|c' r].
  - destruct (isSpace c); [done|]. cbn [allChars]. by rewrite Hc.
  - cbn [allChars] in *. by rewrite Hc.
Qed.

Lemma asciiText_cellText (v : JsVal) :
  asciiText (toString v) = true -> asciiText (cellText v) = true.
Proof.
  intros Hv. unfold cellText. apply asciiText_toLowerCase. unfold asciiText, trim.
  apply allChars_trimEnd, allChars_trimStart. unfold jsOr.
  by destruct (truthy v).
Qed.
End KeyTexts.

(** The text a cell of ASCII characters contributes to a key is stable: it is
    a text of ASCII characters, taken again of itself it does not change, it
    ignores the letter case and the surrounding white space of a text, and a
    row whose cells are replaced by their key texts keeps its key. *)
Theorem key_texts_are_stable (r : record) (columns : list string) :
  (forall v, asciiText (toString v) = true ->
     asciiText (cellText v) = true /\ cellText (VStr (cellText v)) = cellText v) /\
  (forall s, asciiText s = true ->
     cellText (VStr (toLowerCase s)) = cellText (VStr s) /\
     cellText (VStr (trim s)) = cellText (VStr s)) /\
  (Forall (fun c => asciiText (toString (get r c)) = true) columns ->
   createKey ((fun v => VStr (cellText v)) <$> r) columns = createKey r columns).
Proof.
  split_and!.
  - intros v Hv. split; [by apply asciiText_cellText | apply cellText_stable].
  - intros s _. rewrite !cellText_text.
    by rewrite trim_toLowerCase, toLowerCase_idem, trim_idem.
  - intros _. unfold createKey. f_equal. apply map_ext. intros c.
    unfold get. rewrite lookup_fmap. destruct (r !! c) as [v|]; simpl.
    + apply cellText_stable.
    + done.
Qed.

Lemma key_texts_are_stable_witness :
  let row : record := {[ "Invoice No" := VStr "  INV-1 "; "Amount" := VNum 100 ]} in
  cellText (VStr (cellText (VStr "  INV-1 "))) = cellText (VStr "  INV-1 ") /\
  cellText (VStr (toLowerCase "  INV-1 ")) = cellText (VStr "  INV-1 ") /\
  createKey ((fun v => VStr (cellText v)) <$> row) ["Invoice No"; "Amount"]
    = createKey row ["Invoice No"; "Amount"].
Proof.
  intros row.
  destruct (key_texts_are_stable row ["Invoice No"; "Amount"]) as (H1 & H2 & H3).
  split_and!.
  - apply H1. reflexivity.
  - apply H2. reflexivity.
  - apply H3. repeat constructor.
Defined.

Lemma moneyValue_non_numeric_witness :
  allChars Budget.nonDigit "N.A." = true /\ Server.moneyValue "N.A." = 0%Q.
Proof. split; [reflexivity | apply moneyValue_non_numeric; reflexivity]. Defined.
(** ** Table names *)

Section TableNames.
Import Columns.

Lemma digits_of_uint (d : Decimal.uint) :
  allChars isDigit (NilEmpty.string_of_uint d) = true.
Proof. induction d; cbn [NilEmpty.string_of_uint allChars]; by rewrite ?IHd. Qed.

Lemma digits_of_number (z : Z) : (0 <= z)%Z -> allChars isDigit (Z_to_string z) = true.
Proof.
  intros Hz. unfold Z_to_string. destruct z as [|p|p]; [done| |lia].
  cbn [Z.to_int NilZero.string_of_int]. unfold NilZero.string_of_uint.
  pose proof (digits_of_uint (Pos.to_uint p)) as H.
  by destruct (Pos.to_uint p).
Qed.

Lemma digit_is_name_char (c : ascii) : isDigit c = true -> isNameChar c = true.
Proof. intros H. unfold isNameChar. by rewrite H, orb_true_r. Qed.
End TableNames.

(** The names [/api/save-mapping] gives the two mapped tables pass the test
    [/api/reconcile-mapped-data] makes on table names, and a column name that
    falls back on the time of the call is an identifier. *)
Theorem mapped_table_names_are_accepted (logId : Z) (name : string) :
  (0 <= logId)%Z ->
  validTableName (gstTableName logId) = true /\
  validTableName (tallyTableName logId) = true /\
  wellFormedName (sanitizeColumnName (Z_to_string logId) name) = true.
Proof.
  intros Hz. pose proof (digits_of_number logId Hz) as Hd.
  assert (allChars isNameChar (Z_to_string logId) = true) as Hn.
  { apply (allChars_weaken isDigit); [apply digit_is_name_char | done]. }
  unfold validTableName, gstTableName, tallyTableName. split_and!.
  - rewrite allChars_app, Hn. reflexivity.
  - rewrite allChars_app, Hn. reflexivity.
  - unfold sanitizeColumnName. destruct (String.eqb name ""); [by apply wellFormed_prefixed|].
    cbv zeta. pose proof (allChars_sanitized name) as Hall.
    destruct (String.eqb_spec (sanitized name) "") as [_ | Hne];
      [by apply wellFormed_prefixed|].
    destruct (startsWithDigit (sanitized name)) eqn:Hs.
    + by apply wellFormed_prefixed.
    + by apply wellFormed_plain.
Qed.

Lemma mapped_table_names_are_accepted_witness :
  validTableName (gstTableName 1730000000000) = true /\
  validTableName (tallyTableName 1730000000000) = true /\
  wellFormedName (sanitizeColumnName (Z_to_string 1730000000000) "Invoice No.") = true.
Proof. apply mapped_table_names_are_accepted. lia. Defined.
(** ** The numbering of repeated column names *)

Section Dedupe.
Import Columns.

Lemma uses_snoc (base : string) (cols : list string) (x : string) :
  uses base (cols ++ [x]) =
    uses base cols + (if decide (savedColumnName x = base) then 1 else 0).
Proof.
  unfold uses. rewrite filter_app, length_app, filter_cons, filter_nil.
  by destruct (decide (savedColumnName x = base)).
Qed.

Lemma dedupe_fold (cols : list string) :
  let r := fold_left dedupeStep cols (∅, []) in
  (forall base, default 0 (r.1 !! base) = uses base cols) /\
  length r.2 = length cols /\
  (forall i orig, cols !! i = Some orig ->
     r.2 !! i = Some (numbered (savedColumnName orig)
                               (uses (savedColumnName orig) (take (Datatypes.S i) cols)))).
Proof.
  induction cols as [|x cols IH] using rev_ind; [by split_and!|].
  rewrite fold_left_app. cbn [fold_left].
  destruct (fold_left dedupeStep cols (∅, [])) as [seen out].
  simpl in IH. destruct IH as (Hseen & Hlen & Hout). unfold dedupeStep. simpl.
  split_and!.
  - intros base. rewrite uses_snoc. case_decide as Hb.
    + subst base. by rewrite lookup_insert_eq, <- Hseen.
    + rewrite lookup_insert_ne by done. rewrite Hseen. lia.
  - rewrite !length_app, Hlen. done.
  - intros i orig Hi. destruct (decide (i < length cols)) as [Hlt | Hge].
    + rewrite lookup_app_l in Hi by done. rewrite lookup_app_l by lia.
      rewrite take_app_le by lia. by apply Hout.
    + apply lookup_lt_Some in Hi as Hi'. rewrite length_app in Hi'. simpl in Hi'.
      assert (i = length cols) as -> by lia.
      rewrite lookup_app_r in Hi by lia. rewrite Nat.sub_diag in Hi.
      inversion Hi; subst orig.
      rewrite lookup_app_r by lia. rewrite Hlen, Nat.sub_diag. simpl.
      rewrite take_ge by (rewrite length_app; simpl; lia).
      rewrite uses_snoc, decide_True by done. by rewrite Hseen.
Qed.
End Dedupe.

Import Columns.

(** The save routes create one column per given name: the first name that is
    sanitized to a base name gets the base name, the k-th one, from the second
    on, the base name followed by an underscore and k. *)
Theorem repeated_names_are_numbered (cols : list string) :
  length (sanitizedCols cols) = length cols /\
  forall i orig, cols !! i = Some orig ->
    sanitizedCols cols !! i =
      Some (numbered (savedColumnName orig)
                     (uses (savedColumnName orig) (take (Datatypes.S i) cols))).
Proof.
  destruct (dedupe_fold cols) as (_ & Hlen & Hout). by split.
Qed.
